(** * PeerTube video API controllers: ingestion, update, view and import

    A shallow embedding of [server/controllers/api/videos/index.ts] and
    [server/controllers/api/videos/import.ts], and the properties of the
    import resolver, of the update and view of a video and of the torrent
    stage that hold on it.

    Definitions
    - [JS]      : the JavaScript values the controllers branch on
                  (undefined / null / falsy values, the [||] operator).
    - [Eff]     : a state-and-exception monad for the [async] functions,
                  with settled promises, [await], [try]/[catch],
                  transactions and the fate of each collaborator call.
    - [Imports] : [addVideoImport], [addTorrentImport],
                  [addYoutubeDLImport], [buildVideo], the thumbnail helpers
                  and [insertIntoDB].
    - [Videos]  : [updateVideo], [viewVideo] and
                  [createTorrentAndSetInfoHashAsync].
    - [ImportsSpec], [VideosSpec] : the vocabulary of the statements and
                  sample requests.

    Theorems
    - [EffFacts]      : laws of the monad and a small frame logic.
    - [ImportsProofs] : merge policy, source selection, torrent validation,
                  thumbnail fallback, subtitles.
    - [VideosProofs]  : views of live videos, the torrent reload guard,
                  failure and success of an update.

    Collaborators that are not part of the two files (the ORM, Redis, the
    job queue, the extractor, the file system) are not modelled beyond
    their effect on the state; whether a call to one of them succeeds is
    given by the environment of the run. *)

From Stdlib Require Import ZArith String List Bool Lia.
From stdpp Require Import base option gmap strings list.

Local Open Scope Z_scope.

(* ===================================================================== *)
(** * JavaScript values                                                   *)
(* ===================================================================== *)

Module JS.

(** The values a request body or an extractor result can hold in a field.
    [VDate arg] stands for the object [new Date(arg)]. *)
Inductive JSVal : Type :=
| VUndefined
| VNull
| VBool (b : bool)
| VNum (n : Z)
| VStr (s : string)
| VDate (arg : JSVal).

#[global] Instance JSVal_eq_dec : EqDecision JSVal.
Proof. solve_decision. Defined.

(** ToBoolean: [undefined], [null], [false], [0] and [''] are falsy, every
    object is truthy. *)
Definition truthy (v : JSVal) : bool :=
  match v with
  | VUndefined | VNull => false
  | VBool b => b
  | VNum n => negb (n =? 0)
  | VStr s => negb (String.eqb s EmptyString)
  | VDate _ => true
  end.

(** [a || b] *)
Definition js_or (a b : JSVal) : JSVal := if truthy a then a else b.

(** [a !== b] on primitives. *)
Definition strict_neq (a b : JSVal) : bool := negb (bool_decide (a = b)).

(** [new Date(v)] *)
Definition newDate (v : JSVal) : JSVal := VDate v.

(** [a || b] where both sides are arrays or [undefined]: an array, even an
    empty one, is truthy. *)
Definition arr_or {A} (a b : option (list A)) : option (list A) :=
  match a with Some l => Some l | None => b end.

End JS.

Export JS.

Declare Scope js_scope.
Delimit Scope js_scope with js.
Infix "||" := js_or (at level 50, left associativity) : js_scope.

(* ===================================================================== *)
(** * Effects: state, exceptions and promises                             *)
(* ===================================================================== *)

Module Eff.

(** Completion of a computation: a value, or a thrown error. *)
Inductive Res (E A : Type) : Type :=
| Ok (a : A)
| Throw (e : E).
Arguments Ok {E A} a.
Arguments Throw {E A} e.

(** A settled promise. *)
Inductive Promise (E A : Type) : Type :=
| Fulfilled (a : A)
| Rejected (e : E).
Arguments Fulfilled {E A} a.
Arguments Rejected {E A} e.

(** What a collaborator call does: it completes, throws before returning
    its promise, or returns a promise that rejects. *)
Inductive Fate : Type := Succeeds | ThrowsSync | Rejects.

#[global] Instance Fate_eq_dec : EqDecision Fate.
Proof. solve_decision. Defined.

Definition M (S E A : Type) : Type := S -> Res E A * S.

Section Ops.
Context {S E : Type}.

Definition ret {A} (a : A) : M S E A := fun s => (Ok a, s).

Definition bind {A B} (m : M S E A) (k : A -> M S E B) : M S E B :=
  fun s =>
    match m s with
    | (Ok a, s') => k a s'
    | (Throw e, s') => (Throw e, s')
    end.

Definition throw {A} (e : E) : M S E A := fun s => (Throw e, s).

(** [try { m } catch (err) { h err }] *)
Definition try_catch {A} (m : M S E A) (h : E -> M S E A) : M S E A :=
  fun s =>
    match m s with
    | (Ok a, s') => (Ok a, s')
    | (Throw e, s') => h e s'
    end.

Definition gets {A} (f : S -> A) : M S E A := fun s => (Ok (f s), s).

Definition modify (f : S -> S) : M S E unit := fun s => (Ok tt, f s).

(** [await p] *)
Definition await {A} (p : Promise E A) : M S E A :=
  match p with
  | Fulfilled a => ret a
  | Rejected e => throw e
  end.

(** Calling a collaborator without awaiting it: the call either throws,
    or hands back a promise; the effect [eff] takes place only when the
    call succeeds. *)
Definition invoke {A} (f : Fate) (e : E) (eff : M S E A)
  : M S E (Promise E A) :=
  match f with
  | ThrowsSync => throw e
  | Rejects => ret (Rejected e)
  | Succeeds => bind eff (fun a => ret (Fulfilled a))
  end.

(** [await collaborator(...)] *)
Definition call {A} (f : Fate) (e : E) (eff : M S E A) : M S E A :=
  bind (invoke f e eff) await.

(** [sequelizeTypescript.transaction(async t => body)]: the writes of
    [body] to the database part of the state are kept when it returns and
    undone when it throws; everything else (in-memory objects, files, log)
    stays as [body] left it. *)
Definition transaction {D A} (snapshot : S -> D) (restore : D -> S -> S)
    (body : M S E A) : M S E A :=
  fun s =>
    match body s with
    | (Ok a, s') => (Ok a, s')
    | (Throw e, s') => (Throw e, restore (snapshot s) s')
    end.

(** [m] moves every state to an [R]-related one, whatever its outcome. *)
Definition frames {A} (R : S -> S -> Prop) (m : M S E A) : Prop :=
  forall s, R s (snd (m s)).

End Ops.

End Eff.

Export Eff.

Declare Scope eff_scope.
Delimit Scope eff_scope with eff.
Notation "x <- m ;; k" := (bind m (fun x => k))
  (at level 20, m at level 99, k at level 200, only parsing) : eff_scope.
Notation "' pat <- m ;; k" := (bind m (fun x => match x with pat => k end))
  (at level 20, pat pattern, m at level 99, k at level 200, only parsing)
  : eff_scope.
Notation "m ;;; k" := (bind m (fun _ => k))
  (at level 100, k at level 200, right associativity, only parsing)
  : eff_scope.

(* ===================================================================== *)
(** * videos/import.ts                                                    *)
(* ===================================================================== *)

Module Imports.

(** ** Data *)

(** [VideoImportCreate], the request body. *)
Module Body.
Record t : Type := mk {
  targetUrl : JSVal;
  magnetUri : JSVal;
  name : JSVal;
  category : JSVal;
  licence : JSVal;
  language : JSVal;
  nsfw : JSVal;
  description : JSVal;
  support : JSVal;
  privacy : JSVal;
  waitTranscoding : JSVal;
  commentsEnabled : JSVal;
  downloadEnabled : JSVal;
  originallyPublishedAt : JSVal;
  tags : option (list string)
}.
End Body.

(** [YoutubeDLInfo], what the extractor provides. The torrent and magnet
    paths pass [{ name: videoName }], every other field [undefined]. *)
Module Info.
Record t : Type := mk {
  name : JSVal;
  description : JSVal;
  category : JSVal;
  licence : JSVal;
  language : JSVal;
  nsfw : JSVal;
  tags : option (list string);
  thumbnailUrl : JSVal;
  ext : option string;
  originallyPublishedAt : JSVal
}.
Definition onlyName (n : JSVal) : t :=
  mk n VUndefined VUndefined VUndefined VUndefined VUndefined None
     VUndefined None VUndefined.
End Info.

Inductive VideoState : Type := TO_TRANSCODE | PUBLISHED | TO_IMPORT.

(** The object literal [videoData] of [buildVideo], with the [url] set right
    after the model is built. *)
Module VideoData.
Record t : Type := mk {
  name : JSVal;
  remote : bool;
  category : JSVal;
  licence : JSVal;
  language : JSVal;
  commentsEnabled : bool;
  downloadEnabled : bool;
  waitTranscoding : JSVal;
  state : VideoState;
  nsfw : JSVal;
  description : JSVal;
  support : JSVal;
  privacy : JSVal;
  duration : Z;
  channelId : Z;
  originallyPublishedAt : JSVal;
  url : JSVal
}.
Definition set_url (u : JSVal) (v : t) : t :=
  mk (name v) (remote v) (category v) (licence v) (language v)
     (commentsEnabled v) (downloadEnabled v) (waitTranscoding v) (state v)
     (nsfw v) (description v) (support v) (privacy v) (duration v)
     (channelId v) (originallyPublishedAt v) u.
End VideoData.

Inductive ThumbnailType : Type := MINIATURE | PREVIEW.

Inductive ThumbnailOrigin : Type :=
| FromExisting (inputPath : string)
| FromUrl (downloadUrl : JSVal).

Record Thumbnail : Type := mkThumbnail {
  th_type : ThumbnailType;
  th_origin : ThumbnailOrigin
}.

(** A file received by multer. *)
Record UploadFile : Type := mkUploadFile {
  path : string;
  originalname : string
}.

(** [req]: body and the first file of each upload field, when present. *)
Record Request : Type := mkRequest {
  body : Body.t;
  thumbnailfile : option UploadFile;
  previewfile : option UploadFile;
  torrentfile : option UploadFile
}.

(** [res.locals]: the target channel and the authenticated user. *)
Record Locals : Type := mkLocals {
  videoChannel_id : Z;
  user_id : Z
}.

(** [parsedTorrent.name] / [parsed.name]: a string (or nothing), or an
    array of strings. *)
Inductive NameField : Type :=
| NameVal (v : JSVal)
| NameArr (l : list string).

Record ParsedTorrent : Type := mkParsedTorrent {
  pt_files : list string;
  pt_name : NameField
}.

Record Subtitle : Type := mkSubtitle {
  sub_language : string;
  sub_path : string
}.

Record VideoCaption : Type := mkVideoCaption {
  cap_videoId : Z;
  cap_language : string;
  cap_filename : string
}.

Inductive VideoImportState : Type := PENDING.

(** A row of the import table: [videoImportAttributes] plus [videoId]. *)
Record VideoImport : Type := mkVideoImport {
  vi_id : Z;
  vi_videoId : Z;
  vi_targetUrl : JSVal;
  vi_magnetUri : JSVal;
  vi_torrentName : JSVal;
  vi_state : VideoImportState;
  vi_userId : Z
}.

Inductive TorrentJobType : Type := TorrentFile | MagnetUri.

(** Payload of the ['video-import'] job. *)
Inductive Payload : Type :=
| PayloadTorrent (type : TorrentJobType) (videoImportId : Z) (magnetUri : JSVal)
| PayloadYoutubeDL (videoImportId : Z) (fileExt : string).

Inductive ServerErrorCode : Type := INCORRECT_FILES_IN_TORRENT.

Inductive ResponseBody : Type :=
| JsonImport (i : VideoImport)
| JsonError (code : option ServerErrorCode) (error : string).

Record Response : Type := mkResponse {
  status : Z;
  json : ResponseBody
}.

Definition BAD_REQUEST_400 : Z := 400.
Definition OK_200 : Z := 200.

Inductive LogLevel : Type := LInfo | LWarn | LAudit.

Record LogEntry : Type := mkLog {
  level : LogLevel;
  message : string
}.

Inductive FsEvent : Type :=
| FsMove (src dst : string)
| FsMoveCaption (src : string) (filename : string)
| FsCleanUpReqFiles.

(** ** Collaborators *)

(** The collaborator calls that can fail. *)
Inductive Call : Type :=
| CGetYoutubeDLInfo
| CGetYoutubeDLSubs
| CMiniatureFromExisting (t : ThumbnailType)
| CMiniatureFromUrl (t : ThumbnailType)
| CVideoSave
| CAddAndSaveThumbnail (t : ThumbnailType)
| CAutoBlacklist
| CSetVideoTags
| CVideoImportCreate
| CMoveAndProcessCaptionFile (language : string)
| CInsertOrReplaceLanguage (language : string)
| CCreateJob
| CMove
| CReadFile
| CParseTorrent
| CMagnetDecode.

#[global] Instance ThumbnailType_eq_dec : EqDecision ThumbnailType.
Proof. solve_decision. Defined.

#[global] Instance Call_eq_dec : EqDecision Call.
Proof. solve_decision. Defined.

Inductive Error : Type :=
| Failed (c : Call).

(** What the outside world answers during one request. *)
Record Env : Type := mkEnv {
  fate : Call -> Fate;
  youtubeDLInfo : Info.t;              (* youtubeDL.getYoutubeDLInfo() *)
  youtubeDLSubs : list Subtitle;       (* youtubeDL.getYoutubeDLSubs() *)
  parseTorrent : string -> ParsedTorrent;  (* by path of the file read *)
  magnetDecode : JSVal -> NameField;   (* magnetUtil.decode(uri).name *)
  getSecureTorrentName : string -> string;
  generateCaptionName : string -> string;
  getLocalVideoActivityPubUrl : VideoData.t -> JSVal;
  autoBlacklisted : VideoData.t -> bool;
  TORRENTS_DIR : string;
  PRIVATE : Z                          (* VideoPrivacy.PRIVATE *)
}.

(** ** State *)

(** The tables written inside transactions. *)
Record Db : Type := mkDb {
  videos : list (Z * VideoData.t);
  thumbnails : list (Z * Thumbnail);
  blacklist : list Z;
  videoTags : list (Z * option (list string));
  videoImports : list VideoImport;
  captions : list VideoCaption
}.

Record World : Type := mkWorld {
  db : Db;
  jobs : list Payload;
  fs : list FsEvent;
  log : list LogEntry
}.

Definition set_db (d : Db) (w : World) : World :=
  mkWorld d (jobs w) (fs w) (log w).

Definition upd_db (f : Db -> Db) (w : World) : World := set_db (f (db w)) w.

Definition add_job (p : Payload) (w : World) : World :=
  mkWorld (db w) (jobs w ++ [p]) (fs w) (log w).

Definition add_fs (e : FsEvent) (w : World) : World :=
  mkWorld (db w) (jobs w) (fs w ++ [e]) (log w).

Definition add_log (l : LogEntry) (w : World) : World :=
  mkWorld (db w) (jobs w) (fs w) (log w ++ [l]).

Definition insert_video (r : Z * VideoData.t) (d : Db) : Db :=
  mkDb (videos d ++ [r]) (thumbnails d) (blacklist d) (videoTags d)
       (videoImports d) (captions d).

Definition insert_thumbnail (r : Z * Thumbnail) (d : Db) : Db :=
  mkDb (videos d) (thumbnails d ++ [r]) (blacklist d) (videoTags d)
       (videoImports d) (captions d).

Definition insert_blacklist (flag : bool) (id : Z) (d : Db) : Db :=
  mkDb (videos d) (thumbnails d)
       (if flag then blacklist d ++ [id] else blacklist d) (videoTags d)
       (videoImports d) (captions d).

Definition insert_tags (r : Z * option (list string)) (d : Db) : Db :=
  mkDb (videos d) (thumbnails d) (blacklist d) (videoTags d ++ [r])
       (videoImports d) (captions d).

Definition insert_import (r : VideoImport) (d : Db) : Db :=
  mkDb (videos d) (thumbnails d) (blacklist d) (videoTags d)
       (videoImports d ++ [r]) (captions d).

Definition same_caption_key (a b : VideoCaption) : bool :=
  (cap_videoId a =? cap_videoId b) && String.eqb (cap_language a) (cap_language b).

(** [VideoCaptionModel.insertOrReplaceLanguage]: one caption per video and
    language. *)
Definition insert_caption (c : VideoCaption) (d : Db) : Db :=
  mkDb (videos d) (thumbnails d) (blacklist d) (videoTags d) (videoImports d)
       (List.filter (fun c' => negb (same_caption_key c c')) (captions d) ++ [c]).

Definition next_id {A} (rows : list A) : Z := Z.of_nat (length rows) + 1.

Abbreviation M := (Eff.M World Error).

(** ** Operations *)

Section Operations.
Variable env : Env.

Local Open Scope eff_scope.

Definition logger (lv : LogLevel) (msg : string) : M unit :=
  modify (add_log (mkLog lv msg)).

(** [await collaborator(...)] for the collaborator [c]. *)
Definition awaitCall {A} (c : Call) (eff : M A) : M A :=
  call (fate env c) (Failed c) eff.

(** [sequelizeTypescript.transaction] over the tables of [Db]. *)
Definition inTransaction {A} (body : M A) : M A :=
  transaction db set_db body.

(** [isArray(x) ? x[0] : x] *)
Definition firstName (n : NameField) : JSVal :=
  match n with
  | NameArr (s :: _) => VStr s
  | NameArr [] => VUndefined
  | NameVal v => v
  end.

(** [join(dir, file)] *)
Definition join (dir file : string) : string :=
  String.append dir (String.append "/" file).

Definition buildVideo (channelId : Z) (body : Body.t) (importData : Info.t)
  : VideoData.t :=
  let videoData := {|
    VideoData.name :=
      (Body.name body || Info.name importData || VStr "Unknown name")%js;
    VideoData.remote := false;
    VideoData.category := (Body.category body || Info.category importData)%js;
    VideoData.licence := (Body.licence body || Info.licence importData)%js;
    VideoData.language := (Body.language body || Info.language importData)%js;
    VideoData.commentsEnabled :=
      strict_neq (Body.commentsEnabled body) (VBool false);
    VideoData.downloadEnabled :=
      strict_neq (Body.downloadEnabled body) (VBool false);
    VideoData.waitTranscoding := (Body.waitTranscoding body || VBool false)%js;
    VideoData.state := TO_IMPORT;
    VideoData.nsfw :=
      (Body.nsfw body || Info.nsfw importData || VBool false)%js;
    VideoData.description :=
      (Body.description body || Info.description importData)%js;
    VideoData.support := (Body.support body || VNull)%js;
    VideoData.privacy := (Body.privacy body || VNum (PRIVATE env))%js;
    VideoData.duration := 0;
    VideoData.channelId := channelId;
    VideoData.originallyPublishedAt :=
      if truthy (Body.originallyPublishedAt body)
      then newDate (Body.originallyPublishedAt body)
      else Info.originallyPublishedAt importData;
    VideoData.url := VUndefined
  |} in
  VideoData.set_url (getLocalVideoActivityPubUrl env videoData) videoData.

Definition processThumbnail (req : Request) (video : VideoData.t)
  : M (option Thumbnail) :=
  match thumbnailfile req with
  | Some thumbnailPhysicalFile =>
      awaitCall (CMiniatureFromExisting MINIATURE)
        (ret (Some (mkThumbnail MINIATURE
                      (FromExisting (path thumbnailPhysicalFile)))))
  | None => ret None
  end.

Definition processPreview (req : Request) (video : VideoData.t)
  : M (option Thumbnail) :=
  match previewfile req with
  | Some previewPhysicalFile =>
      awaitCall (CMiniatureFromExisting PREVIEW)
        (ret (Some (mkThumbnail PREVIEW
                      (FromExisting (path previewPhysicalFile)))))
  | None => ret None
  end.

(** [createVideoMiniatureFromUrl(...)], called but not awaited. *)
Definition createVideoMiniatureFromUrl (url : JSVal) (type : ThumbnailType)
  : M (Promise Error (option Thumbnail)) :=
  invoke (fate env (CMiniatureFromUrl type)) (Failed (CMiniatureFromUrl type))
    (ret (Some (mkThumbnail type (FromUrl url)))).

(** The [try] block leaves through [return createVideoMiniatureFromUrl(..)]:
    the promise is handed to the caller as it is, and the caller's [await]
    settles it. The [catch] sees only what the call throws before it
    returns that promise. *)
Definition processThumbnailFromUrl (url : JSVal) (video : VideoData.t)
  : M (option Thumbnail) :=
  returned <-
    try_catch
      (createVideoMiniatureFromUrl url MINIATURE)
      (fun err =>
         logger LWarn "Cannot generate video thumbnail %s for %s." ;;;
         ret (Fulfilled None)) ;;
  await returned.

Definition processPreviewFromUrl (url : JSVal) (video : VideoData.t)
  : M (option Thumbnail) :=
  returned <-
    try_catch
      (createVideoMiniatureFromUrl url PREVIEW)
      (fun err =>
         logger LWarn "Cannot generate video preview %s for %s." ;;;
         ret (Fulfilled None)) ;;
  await returned.

(** [videoCreated.addAndSaveThumbnail(model, t)] when [model] is set. *)
Definition addAndSaveThumbnail (videoId : Z) (model : option Thumbnail)
  : M unit :=
  match model with
  | Some th =>
      awaitCall (CAddAndSaveThumbnail (th_type th))
        (modify (upd_db (insert_thumbnail (videoId, th))))
  | None => ret tt
  end.

Definition insertIntoDB (video : VideoData.t)
    (thumbnailModel previewModel : option Thumbnail)
    (tags : option (list string))
    (targetUrl magnetUri torrentName : JSVal) (userId : Z)
  : M VideoImport :=
  inTransaction (
    (* Save video object in database *)
    videoCreated_id <-
      awaitCall CVideoSave (
        id <- gets (fun w => next_id (videos (db w))) ;;
        modify (upd_db (insert_video (id, video))) ;;;
        ret id) ;;
    addAndSaveThumbnail videoCreated_id thumbnailModel ;;;
    addAndSaveThumbnail videoCreated_id previewModel ;;;
    awaitCall CAutoBlacklist
      (modify (upd_db (insert_blacklist (autoBlacklisted env video)
                         videoCreated_id))) ;;;
    awaitCall CSetVideoTags
      (modify (upd_db (insert_tags (videoCreated_id, tags)))) ;;;
    (* Create video import object in database *)
    awaitCall CVideoImportCreate (
      id <- gets (fun w => next_id (videoImports (db w))) ;;
      let videoImport :=
        mkVideoImport id videoCreated_id targetUrl magnetUri torrentName
                      PENDING userId in
      modify (upd_db (insert_import videoImport)) ;;;
      ret videoImport)).

(** The body of [for (const subtitle of subtitles)]. *)
Fixpoint importSubtitles (videoId : Z) (subtitles : list Subtitle) : M unit :=
  match subtitles with
  | [] => ret tt
  | subtitle :: rest =>
      let videoCaption :=
        mkVideoCaption videoId (sub_language subtitle)
          (generateCaptionName env (sub_language subtitle)) in
      (* Move physical file *)
      awaitCall (CMoveAndProcessCaptionFile (sub_language subtitle))
        (modify (add_fs (FsMoveCaption (sub_path subtitle)
                           (cap_filename videoCaption)))) ;;;
      inTransaction
        (awaitCall (CInsertOrReplaceLanguage (sub_language subtitle))
           (modify (upd_db (insert_caption videoCaption)))) ;;;
      importSubtitles videoId rest
  end.

(** [`.${ext || 'mp4'}`] *)
Definition fileExt (ext : option string) : string :=
  String.append "."
    match ext with
    | Some e => if String.eqb e EmptyString then "mp4" else e
    | None => "mp4"
    end.

Definition createImportJob (payload : Payload) : M unit :=
  awaitCall CCreateJob (modify (add_job payload)).

Definition addYoutubeDLImport (req : Request) (res : Locals) : M Response :=
  let body := body req in
  let targetUrl := Body.targetUrl body in
  (* Get video infos *)
  fetched <-
    try_catch
      (info <- awaitCall CGetYoutubeDLInfo (ret (youtubeDLInfo env)) ;;
       ret (inl info))
      (fun err =>
         logger LInfo "Cannot fetch information from import for URL %s." ;;;
         ret (inr (mkResponse BAD_REQUEST_400
                     (JsonError None
                        "Cannot fetch remote information of this URL.")))) ;;
  match fetched with
  | inr response => ret response
  | inl youtubeDLInfo =>
      let video := buildVideo (videoChannel_id res) body youtubeDLInfo in
      (* Process video thumbnail from request.files *)
      thumbnailModel <- processThumbnail req video ;;
      (* Process video thumbnail from url if processing from request.files
         failed *)
      thumbnailModel <-
        (if negb (bool_decide (is_Some thumbnailModel))
            && truthy (Info.thumbnailUrl youtubeDLInfo)
         then processThumbnailFromUrl (Info.thumbnailUrl youtubeDLInfo) video
         else ret thumbnailModel) ;;
      (* Process video preview from request.files *)
      previewModel <- processPreview req video ;;
      (* Process video preview from url if processing from request.files
         failed *)
      previewModel <-
        (if negb (bool_decide (is_Some previewModel))
            && truthy (Info.thumbnailUrl youtubeDLInfo)
         then processPreviewFromUrl (Info.thumbnailUrl youtubeDLInfo) video
         else ret previewModel) ;;
      let tags := arr_or (Body.tags body) (Info.tags youtubeDLInfo) in
      videoImport <-
        insertIntoDB video thumbnailModel previewModel tags
          targetUrl VUndefined VUndefined (user_id res) ;;
      (* Get video subtitles *)
      try_catch
        (subtitles <- awaitCall CGetYoutubeDLSubs (ret (youtubeDLSubs env)) ;;
         logger LInfo "Will create %s subtitles from youtube import %s." ;;;
         importSubtitles (vi_videoId videoImport) subtitles)
        (fun err => logger LWarn "Cannot get video subtitles.") ;;;
      (* Create job to import the video *)
      let payload :=
        PayloadYoutubeDL (vi_id videoImport) (fileExt (Info.ext youtubeDLInfo))
      in
      createImportJob payload ;;;
      logger LAudit "video-imports create" ;;;
      ret (mkResponse OK_200 (JsonImport videoImport))
  end.

(** The branch on the torrent file yields either the early response or the
    three locals [videoName], [torrentName] and [magnetUri]. *)
Definition addTorrentImport (req : Request) (res : Locals)
    (torrentfile : option UploadFile) : M Response :=
  let body := body req in
  named <-
    match torrentfile with
    | Some torrentfile =>
        let torrentName := originalname torrentfile in
        (* Rename the torrent to a secured name *)
        let newTorrentPath :=
          join (TORRENTS_DIR env) (getSecureTorrentName env torrentName) in
        awaitCall CMove
          (modify (add_fs (FsMove (path torrentfile) newTorrentPath))) ;;;
        awaitCall CReadFile (ret tt) ;;;
        parsedTorrent <-
          awaitCall CParseTorrent (ret (parseTorrent env newTorrentPath)) ;;
        if negb (Nat.eqb (length (pt_files parsedTorrent)) 1)
        then
          modify (add_fs FsCleanUpReqFiles) ;;;
          ret (inr (mkResponse BAD_REQUEST_400
                      (JsonError (Some INCORRECT_FILES_IN_TORRENT)
                         "Torrents with only 1 file are supported.")))
        else
          ret (inl (firstName (pt_name parsedTorrent),
                    VStr torrentName, VUndefined))
    | None =>
        let magnetUri := Body.magnetUri body in
        parsed <- awaitCall CMagnetDecode (ret (magnetDecode env magnetUri)) ;;
        ret (inl (firstName parsed, VUndefined, magnetUri))
    end ;;
  match named with
  | inr response => ret response
  | inl (videoName, torrentName, magnetUri) =>
      let video :=
        buildVideo (videoChannel_id res) body (Info.onlyName videoName) in
      thumbnailModel <- processThumbnail req video ;;
      previewModel <- processPreview req video ;;
      let tags := arr_or (Body.tags body) None in
      videoImport <-
        insertIntoDB video thumbnailModel previewModel tags
          VUndefined magnetUri torrentName (user_id res) ;;
      (* Create job to import the video *)
      let payload :=
        PayloadTorrent
          (if bool_decide (is_Some torrentfile) then TorrentFile else MagnetUri)
          (vi_id videoImport) magnetUri in
      createImportJob payload ;;;
      logger LAudit "video-imports create" ;;;
      ret (mkResponse OK_200 (JsonImport videoImport))
  end.

(** [addVideoImport] answers nothing when the request names no source. *)
Definition addVideoImport (req : Request) (res : Locals)
  : M (option Response) :=
  if truthy (Body.targetUrl (body req))
  then r <- addYoutubeDLImport req res ;; ret (Some r)
  else
    let file := torrentfile req in
    if truthy (Body.magnetUri (body req)) || bool_decide (is_Some file)
    then r <- addTorrentImport req res file ;; ret (Some r)
    else ret None.

End Operations.

End Imports.

(* ===================================================================== *)
(** * videos/index.ts                                                     *)
(* ===================================================================== *)

Module Videos.

(** ** Data *)

(** The attributes of the video instance the controllers read or assign.
    [owned] is what [isOwned()] answers for this video. *)
Record Video : Type := mkVideo {
  id : Z;
  uuid : string;
  name : JSVal;
  category : JSVal;
  licence : JSVal;
  language : JSVal;
  nsfw : JSVal;
  waitTranscoding : JSVal;
  support : JSVal;
  description : JSVal;
  commentsEnabled : JSVal;
  downloadEnabled : JSVal;
  originallyPublishedAt : JSVal;
  privacy : Z;
  channelId : Z;
  VideoChannel : Z;
  isLive : bool;
  owned : bool
}.

Definition set_name (x : JSVal) (v : Video) : Video :=
  let 'mkVideo a b _ d e f g h i j k l m n o p q r := v in
  mkVideo a b x d e f g h i j k l m n o p q r.
Definition set_category (x : JSVal) (v : Video) : Video :=
  let 'mkVideo a b c _ e f g h i j k l m n o p q r := v in
  mkVideo a b c x e f g h i j k l m n o p q r.
Definition set_licence (x : JSVal) (v : Video) : Video :=
  let 'mkVideo a b c d _ f g h i j k l m n o p q r := v in
  mkVideo a b c d x f g h i j k l m n o p q r.
Definition set_language (x : JSVal) (v : Video) : Video :=
  let 'mkVideo a b c d e _ g h i j k l m n o p q r := v in
  mkVideo a b c d e x g h i j k l m n o p q r.
Definition set_nsfw (x : JSVal) (v : Video) : Video :=
  let 'mkVideo a b c d e f _ h i j k l m n o p q r := v in
  mkVideo a b c d e f x h i j k l m n o p q r.
Definition set_waitTranscoding (x : JSVal) (v : Video) : Video :=
  let 'mkVideo a b c d e f g _ i j k l m n o p q r := v in
  mkVideo a b c d e f g x i j k l m n o p q r.
Definition set_support (x : JSVal) (v : Video) : Video :=
  let 'mkVideo a b c d e f g h _ j k l m n o p q r := v in
  mkVideo a b c d e f g h x j k l m n o p q r.
Definition set_description (x : JSVal) (v : Video) : Video :=
  let 'mkVideo a b c d e f g h i _ k l m n o p q r := v in
  mkVideo a b c d e f g h i x k l m n o p q r.
Definition set_commentsEnabled (x : JSVal) (v : Video) : Video :=
  let 'mkVideo a b c d e f g h i j _ l m n o p q r := v in
  mkVideo a b c d e f g h i j x l m n o p q r.
Definition set_downloadEnabled (x : JSVal) (v : Video) : Video :=
  let 'mkVideo a b c d e f g h i j k _ m n o p q r := v in
  mkVideo a b c d e f g h i j k x m n o p q r.
Definition set_originallyPublishedAt (x : JSVal) (v : Video) : Video :=
  let 'mkVideo a b c d e f g h i j k l _ n o p q r := v in
  mkVideo a b c d e f g h i j k l x n o p q r.
Definition set_privacy (x : Z) (v : Video) : Video :=
  let 'mkVideo a b c d e f g h i j k l m _ o p q r := v in
  mkVideo a b c d e f g h i j k l m x o p q r.
Definition set_channelId (x : Z) (v : Video) : Video :=
  let 'mkVideo a b c d e f g h i j k l m n _ p q r := v in
  mkVideo a b c d e f g h i j k l m n x p q r.
Definition set_VideoChannel (x : Z) (v : Video) : Video :=
  let 'mkVideo a b c d e f g h i j k l m n o _ q r := v in
  mkVideo a b c d e f g h i j k l m n o x q r.

(** [tags] of the update body: absent, or a value ([null] or an array). *)
Inductive TagsField : Type :=
| TagsUndefined
| TagsValue (tags : option (list string)).

(** [scheduleUpdate] of the update body. *)
Inductive ScheduleField : Type :=
| ScheduleUndefined
| ScheduleNull
| ScheduleObject (updateAt : JSVal) (privacy : JSVal).

(** [VideoUpdate], the request body of an update. [privacy], when present,
    is a [VideoPrivacy] number. *)
Module Patch.
Record t : Type := mk {
  name : JSVal;
  category : JSVal;
  licence : JSVal;
  language : JSVal;
  nsfw : JSVal;
  waitTranscoding : JSVal;
  support : JSVal;
  description : JSVal;
  commentsEnabled : JSVal;
  downloadEnabled : JSVal;
  originallyPublishedAt : JSVal;
  privacy : option Z;
  tags : TagsField;
  scheduleUpdate : ScheduleField
}.
End Patch.

(** A row of [ScheduleVideoUpdateModel], keyed by video id. *)
Record ScheduleVideoUpdate : Type := mkSchedule {
  updateAt : JSVal;
  sched_privacy : JSVal
}.

Inductive ThumbnailType : Type := MINIATURE | PREVIEW.

Record Thumbnail : Type := mkThumbnail {
  th_type : ThumbnailType;
  th_path : string
}.

Record VideoFile : Type := mkVideoFile {
  f_id : Z;
  f_videoId : Z;
  f_resolution : Z;
  f_size : Z;
  f_extname : string;
  infoHash : JSVal;
  torrentFilename : JSVal
}.

Definition set_torrent (hash name : JSVal) (f : VideoFile) : VideoFile :=
  mkVideoFile (f_id f) (f_videoId f) (f_resolution f) (f_size f) (f_extname f)
              hash name.

Definition NO_CONTENT_204 : Z := 204.

(** What the controllers ask of the outside, in order. *)
Inductive Event : Type :=
| EvTransactionBegin
| EvTransactionCommit
| EvTransactionRollback
| EvSendDelete (v : Video)
| EvSave (v : Video)
| EvAddAndSaveThumbnail (t : Thumbnail)
| EvSetVideoTags (tags : option (list string))
| EvSetVideoChannel (channel : Z)
| EvChangeVideoChannelShare (oldVideoChannel : Z)
| EvScheduleUpsert (videoId : Z)
| EvScheduleDelete (videoId : Z)
| EvAutoBlacklist (videoId : Z)
| EvFederate (v : Video) (isNewVideo : bool)
| EvAudit
| EvLog (message : string)
| EvNotifyOnNewVideo (videoId : Z)
| EvHook (action : string)
| EvResetSequelizeInstance
| EvSetIPVideoView (ip uuid : string) (isLive : bool)
| EvLiveAddViewTo (videoId : Z)
| EvAddVideoView (videoId : Z)
| EvSendView (videoId : Z)
| EvCreateTorrent (fileId : Z)
| EvRemoveTorrent (fileId : Z)
| EvSaveFile (f : VideoFile).

(** ** Collaborators *)

Inductive Call : Type :=
| CBuildVideoThumbnails
| CSendDelete
| CSave
| CAddAndSaveThumbnail (t : ThumbnailType)
| CSetVideoTags
| CSetVideoChannel
| CChangeVideoChannelShare
| CScheduleUpsert
| CScheduleDelete
| CAutoBlacklist
| CFederate
| CNotifyOnNewVideo
| CHook
| CDoesVideoIPViewExist
| CLoadVideo
| CSetIPVideoView
| CLiveAddViewTo
| CAddVideoView
| CGetServerActor
| CSendView
| CCreateTorrent
| CLoadFileWithVideo
| CRemoveTorrent
| CSaveFile.

Inductive Error : Type :=
| Failed (c : Call)
| TypeError (message : string).

(** The tables written inside transactions. *)
Record Db : Type := mkDb {
  videos : gmap Z Video;
  thumbnails : list (Z * Thumbnail);
  videoTags : gmap Z (option (list string));
  schedules : gmap Z ScheduleVideoUpdate;
  blacklist : gset Z;
  files : gmap Z VideoFile
}.

(** What the outside world answers during one request. [concurrent] is what
    other requests do to the file table while a torrent is being created. *)
Record Env : Type := mkEnv {
  fate : Call -> Fate;
  isPrivacyForFederation : Z -> bool;
  isNewVideo : Video -> Z -> bool;
  isConfidential : Video -> bool;
  builtThumbnails : option Thumbnail * option Thumbnail;
  autoBlacklisted : Video -> bool;
  createdTorrent : Video -> VideoFile -> string * string;
  concurrent : gmap Z VideoFile -> gmap Z VideoFile
}.

(** ** State *)

(** [videoInstance] is the in-memory instance [res.locals.videoAll], shared
    by every attempt of the request; [ipViews], [videoViews] are the Redis
    keys and counters, [liveViews] the live manager's, [torrents] the
    torrent files on disk. *)
Record World : Type := mkWorld {
  db : Db;
  videoInstance : Video;
  ipViews : gset (string * string);
  videoViews : gmap Z nat;
  liveViews : gmap Z nat;
  torrents : gset string;
  trace : list Event
}.

Definition set_db (d : Db) (w : World) : World :=
  mkWorld d (videoInstance w) (ipViews w) (videoViews w) (liveViews w)
          (torrents w) (trace w).

Definition upd_db (f : Db -> Db) (w : World) : World := set_db (f (db w)) w.

Definition set_videoInstance (v : Video) (w : World) : World :=
  mkWorld (db w) v (ipViews w) (videoViews w) (liveViews w) (torrents w)
          (trace w).

Definition upd_videoInstance (f : Video -> Video) (w : World) : World :=
  set_videoInstance (f (videoInstance w)) w.

Definition add_ipView (k : string * string) (w : World) : World :=
  mkWorld (db w) (videoInstance w) ({[k]} ∪ ipViews w) (videoViews w)
          (liveViews w) (torrents w) (trace w).

Definition incr (k : Z) (m : gmap Z nat) : gmap Z nat :=
  <[k := S (default 0%nat (m !! k))]> m.

Definition incr_videoViews (k : Z) (w : World) : World :=
  mkWorld (db w) (videoInstance w) (ipViews w) (incr k (videoViews w))
          (liveViews w) (torrents w) (trace w).

Definition incr_liveViews (k : Z) (w : World) : World :=
  mkWorld (db w) (videoInstance w) (ipViews w) (videoViews w)
          (incr k (liveViews w)) (torrents w) (trace w).

Definition upd_torrents (f : gset string -> gset string) (w : World) : World :=
  mkWorld (db w) (videoInstance w) (ipViews w) (videoViews w) (liveViews w)
          (f (torrents w)) (trace w).

Definition add_event (e : Event) (w : World) : World :=
  mkWorld (db w) (videoInstance w) (ipViews w) (videoViews w) (liveViews w)
          (torrents w) (trace w ++ [e]).

Definition put_video (v : Video) (d : Db) : Db :=
  mkDb (<[id v := v]> (videos d)) (thumbnails d) (videoTags d) (schedules d)
       (blacklist d) (files d).

Definition put_thumbnail (r : Z * Thumbnail) (d : Db) : Db :=
  mkDb (videos d) (thumbnails d ++ [r]) (videoTags d) (schedules d)
       (blacklist d) (files d).

Definition put_tags (k : Z) (t : option (list string)) (d : Db) : Db :=
  mkDb (videos d) (thumbnails d) (<[k := t]> (videoTags d)) (schedules d)
       (blacklist d) (files d).

Definition upd_schedules
    (f : gmap Z ScheduleVideoUpdate -> gmap Z ScheduleVideoUpdate) (d : Db)
  : Db :=
  mkDb (videos d) (thumbnails d) (videoTags d) (f (schedules d))
       (blacklist d) (files d).

Definition put_blacklist (flag : bool) (k : Z) (d : Db) : Db :=
  mkDb (videos d) (thumbnails d) (videoTags d) (schedules d)
       (if flag then {[k]} ∪ blacklist d else blacklist d) (files d).

Definition upd_files (f : gmap Z VideoFile -> gmap Z VideoFile) (d : Db) : Db :=
  mkDb (videos d) (thumbnails d) (videoTags d) (schedules d) (blacklist d)
       (f (files d)).

Abbreviation M := (Eff.M World Error).

(** ** Operations *)

Section Operations.
Variable env : Env.

Local Open Scope eff_scope.

Definition emit (e : Event) : M unit := modify (add_event e).

(** [await collaborator(...)] for the collaborator [c]. *)
Definition awaitCall {A} (c : Call) (eff : M A) : M A :=
  call (fate env c) (Failed c) eff.

(** [sequelizeTypescript.transaction] over the tables of [Db]. *)
Definition inTransaction {A} (body : M A) : M A :=
  emit EvTransactionBegin ;;;
  try_catch
    (a <- transaction db set_db body ;;
     emit EvTransactionCommit ;;;
     ret a)
    (fun err => emit EvTransactionRollback ;;; throw err).

(** [await Promise.all(promises)] on settled promises. *)
Fixpoint awaitAll (promises : list (Promise Error unit)) : M unit :=
  match promises with
  | [] => ret tt
  | p :: rest => await p ;;; awaitAll rest
  end.

(** Modelled from the spec: [hasPrivacyForFederation] is a method of the
    video model, which is not part of the sources; federation eligibility is
    a predicate of the privacy alone. *)
Definition hasPrivacyForFederation (v : Video) : bool :=
  isPrivacyForFederation env (privacy v).

(** Modelled from the spec: [setPrivacy] is a method of the video model,
    which is not part of the sources; it stores the new privacy. *)
Definition setPrivacy (newPrivacy : Z) (v : Video) : Video :=
  set_privacy newPrivacy v.

(** [parseInt(privacy.toString(), 10)] of a privacy number. *)
Definition parseInt_toString (privacy : Z) : Z := privacy.

(** Modelled from the spec: [toJSON] is a method of the video model, which
    is not part of the sources; the snapshot holds the value of every
    attribute. *)
Definition toJSON (v : Video) : Video := v.

(** Modelled from the spec: [resetSequelizeInstance] (helpers/database-utils)
    is not part of the sources; it assigns every saved field back to the
    instance. *)
Definition resetFields (savedFields instance : Video) : Video :=
  set_name (name savedFields)
  (set_category (category savedFields)
  (set_licence (licence savedFields)
  (set_language (language savedFields)
  (set_nsfw (nsfw savedFields)
  (set_waitTranscoding (waitTranscoding savedFields)
  (set_support (support savedFields)
  (set_description (description savedFields)
  (set_commentsEnabled (commentsEnabled savedFields)
  (set_downloadEnabled (downloadEnabled savedFields)
  (set_originallyPublishedAt (originallyPublishedAt savedFields)
  (set_privacy (privacy savedFields)
  (set_channelId (channelId savedFields)
  (set_VideoChannel (VideoChannel savedFields) instance))))))))))))).

Definition resetSequelizeInstance (savedFields : Video) : M unit :=
  modify (upd_videoInstance (resetFields savedFields)) ;;;
  emit EvResetSequelizeInstance.

(** [if (x !== undefined) videoInstance.field = x] *)
Definition assignIfDefined (x : JSVal) (set : JSVal -> Video -> Video)
    (videoInstance : Video) : Video :=
  if strict_neq x VUndefined then set x videoInstance else videoInstance.

(** The assignments that open the transaction of [updateVideo], from
    [name] down to [originallyPublishedAt]. *)
Definition assignFields (videoInfoToUpdate : Patch.t) (videoInstance : Video)
  : Video :=
  let videoInstance :=
    assignIfDefined (Patch.name videoInfoToUpdate) set_name videoInstance in
  let videoInstance :=
    assignIfDefined (Patch.category videoInfoToUpdate) set_category
      videoInstance in
  let videoInstance :=
    assignIfDefined (Patch.licence videoInfoToUpdate) set_licence
      videoInstance in
  let videoInstance :=
    assignIfDefined (Patch.language videoInfoToUpdate) set_language
      videoInstance in
  let videoInstance :=
    assignIfDefined (Patch.nsfw videoInfoToUpdate) set_nsfw videoInstance in
  let videoInstance :=
    assignIfDefined (Patch.waitTranscoding videoInfoToUpdate)
      set_waitTranscoding videoInstance in
  let videoInstance :=
    assignIfDefined (Patch.support videoInfoToUpdate) set_support
      videoInstance in
  let videoInstance :=
    assignIfDefined (Patch.description videoInfoToUpdate) set_description
      videoInstance in
  let videoInstance :=
    assignIfDefined (Patch.commentsEnabled videoInfoToUpdate)
      set_commentsEnabled videoInstance in
  let videoInstance :=
    assignIfDefined (Patch.downloadEnabled videoInfoToUpdate)
      set_downloadEnabled videoInstance in
  if strict_neq (Patch.originallyPublishedAt videoInfoToUpdate) VUndefined
     && strict_neq (Patch.originallyPublishedAt videoInfoToUpdate) VNull
  then set_originallyPublishedAt
         (newDate (Patch.originallyPublishedAt videoInfoToUpdate))
         videoInstance
  else videoInstance.

(** [videoInstanceUpdated.addAndSaveThumbnail(model, t)] when [model] is
    set. *)
Definition addAndSaveThumbnail (model : option Thumbnail) : M unit :=
  match model with
  | Some th =>
      awaitCall (CAddAndSaveThumbnail (th_type th)) (
        v <- gets videoInstance ;;
        modify (upd_db (put_thumbnail (id v, th))) ;;;
        emit (EvAddAndSaveThumbnail th))
  | None => ret tt
  end.

(** [if (videoInfoToUpdate.privacy !== undefined) { ... }]: answers
    [isNewVideo]. *)
Definition updatePrivacy (videoInfoToUpdate : Patch.t)
    (hadPrivacyForFederation : bool) : M bool :=
  match Patch.privacy videoInfoToUpdate with
  | Some privacy =>
      isNewVideo <- gets (fun w => isNewVideo env (videoInstance w) privacy) ;;
      let newPrivacy := parseInt_toString privacy in
      modify (upd_videoInstance (setPrivacy newPrivacy)) ;;;
      (* Unfederate the video if the new privacy is not compatible with
         federation *)
      nowForFederation <-
        gets (fun w => hasPrivacyForFederation (videoInstance w)) ;;
      (if hadPrivacyForFederation && negb nowForFederation
       then awaitCall CSendDelete (
              v <- gets videoInstance ;; emit (EvSendDelete v))
       else ret tt) ;;;
      ret isNewVideo
  | None => ret false
  end.

(** [videoInstance.save(sequelizeOptions)] *)
Definition saveVideo : M unit :=
  awaitCall CSave (
    v <- gets videoInstance ;;
    modify (upd_db (put_video v)) ;;;
    emit (EvSave v)).

(** Video tags update? *)
Definition updateTags (videoInfoToUpdate : Patch.t) : M unit :=
  match Patch.tags videoInfoToUpdate with
  | TagsValue tags =>
      awaitCall CSetVideoTags (
        v <- gets videoInstance ;;
        modify (upd_db (put_tags (id v) tags)) ;;;
        emit (EvSetVideoTags tags))
  | TagsUndefined => ret tt
  end.

(** Video channel update? [$set('VideoChannel', ...)] stores the new
    channel id on the instance and in its row. *)
Definition updateChannel (res_locals_videoChannel : option Z)
    (hadPrivacyForFederation : bool) (oldVideoChannel : Z) : M unit :=
  channelId_now <- gets (fun w => channelId (videoInstance w)) ;;
  match res_locals_videoChannel with
  | Some videoChannel =>
      if negb (channelId_now =? videoChannel)
      then
        awaitCall CSetVideoChannel (
          modify (upd_videoInstance (set_channelId videoChannel)) ;;;
          v <- gets videoInstance ;;
          modify (upd_db (put_video v)) ;;;
          emit (EvSetVideoChannel videoChannel)) ;;;
        modify (upd_videoInstance (set_VideoChannel videoChannel)) ;;;
        if hadPrivacyForFederation
        then awaitCall CChangeVideoChannelShare
               (emit (EvChangeVideoChannelShare oldVideoChannel))
        else ret tt
      else ret tt
  | None => ret tt
  end.

(** Schedule an update in the future? *)
Definition updateSchedule (videoInfoToUpdate : Patch.t) : M unit :=
  videoId <- gets (fun w => id (videoInstance w)) ;;
  match Patch.scheduleUpdate videoInfoToUpdate with
  | ScheduleObject updateAt privacy =>
      awaitCall CScheduleUpsert (
        modify (upd_db (upd_schedules
          (fun s => <[videoId := mkSchedule (newDate updateAt)
                                            (privacy || VNull)%js]> s))) ;;;
        emit (EvScheduleUpsert videoId))
  | ScheduleNull =>
      awaitCall CScheduleDelete (
        modify (upd_db (upd_schedules (fun s => delete videoId s))) ;;;
        emit (EvScheduleDelete videoId))
  | ScheduleUndefined => ret tt
  end.

(** [autoBlacklistVideoIfNeeded], [federateVideoIfNeeded], the audit and
    the log entry that close the transaction. *)
Definition finishUpdate (isNewVideo : bool) : M unit :=
  awaitCall CAutoBlacklist (
    v <- gets videoInstance ;;
    modify (upd_db (put_blacklist (autoBlacklisted env v) (id v))) ;;;
    emit (EvAutoBlacklist (id v))) ;;;
  awaitCall CFederate (
    v <- gets videoInstance ;; emit (EvFederate v isNewVideo)) ;;;
  emit EvAudit ;;;
  emit (EvLog "Video with name %s and uuid %s updated.").

(** The function given to [sequelizeTypescript.transaction] by
    [updateVideo], block by block. [videoInstance.save] answers the
    instance itself, so [videoInstanceUpdated] is [videoInstance]. *)
Definition updateVideoTransaction (videoInfoToUpdate : Patch.t)
    (res_locals_videoChannel : option Z) (hadPrivacyForFederation : bool)
    (thumbnailModel previewModel : option Thumbnail) : M Video :=
  oldVideoChannel <- gets (fun w => VideoChannel (videoInstance w)) ;;
  modify (upd_videoInstance (assignFields videoInfoToUpdate)) ;;;
  isNewVideo <- updatePrivacy videoInfoToUpdate hadPrivacyForFederation ;;
  saveVideo ;;;
  addAndSaveThumbnail thumbnailModel ;;;
  addAndSaveThumbnail previewModel ;;;
  updateTags videoInfoToUpdate ;;;
  updateChannel res_locals_videoChannel hadPrivacyForFederation
    oldVideoChannel ;;;
  updateSchedule videoInfoToUpdate ;;;
  finishUpdate isNewVideo ;;;
  gets videoInstance.

(** What [updateVideo] runs inside its [try]. *)
Definition updateVideoTry (videoInfoToUpdate : Patch.t)
    (res_locals_videoChannel : option Z)
    (wasConfidentialVideo hadPrivacyForFederation : bool)
    (thumbnailModel previewModel : option Thumbnail) : M unit :=
  videoInstanceUpdated <-
    inTransaction
      (updateVideoTransaction videoInfoToUpdate res_locals_videoChannel
         hadPrivacyForFederation thumbnailModel previewModel) ;;
  (if wasConfidentialVideo
   then awaitCall CNotifyOnNewVideo
          (emit (EvNotifyOnNewVideo (id videoInstanceUpdated)))
   else ret tt) ;;;
  awaitCall CHook (emit (EvHook "action:api.video.updated")).

Definition updateVideo (videoInfoToUpdate : Patch.t)
    (res_locals_videoChannel : option Z) : M Z :=
  videoInstance <- gets videoInstance ;;
  let videoFieldsSave := toJSON videoInstance in
  let wasConfidentialVideo := isConfidential env videoInstance in
  let hadPrivacyForFederation := hasPrivacyForFederation videoInstance in
  ' (thumbnailModel, previewModel) <-
    awaitCall CBuildVideoThumbnails (ret (builtThumbnails env)) ;;
  try_catch
    (updateVideoTry videoInfoToUpdate res_locals_videoChannel
       wasConfidentialVideo hadPrivacyForFederation
       thumbnailModel previewModel)
    (fun err =>
       (* Force fields we want to update *)
       resetSequelizeInstance videoFieldsSave ;;;
       throw err) ;;;
  ret NO_CONTENT_204.

Definition viewVideo (ip : string) (immutableVideoAttrs_id : Z)
    (immutableVideoAttrs_uuid : string) : M Z :=
  exists_ <-
    awaitCall CDoesVideoIPViewExist
      (gets (fun w =>
               bool_decide ((ip, immutableVideoAttrs_uuid) ∈ ipViews w))) ;;
  if (exists_ : bool)
  then
    emit (EvLog "View for ip %s and video %s already exists.") ;;;
    ret NO_CONTENT_204
  else
    loaded <-
      awaitCall CLoadVideo
        (gets (fun w => videos (db w) !! immutableVideoAttrs_id)) ;;
    match loaded with
    | None => throw (TypeError "Cannot read properties of null")
    | Some video =>
        setView <-
          invoke (fate env CSetIPVideoView) (Failed CSetIPVideoView) (
            modify (add_ipView (ip, uuid video)) ;;;
            emit (EvSetIPVideoView ip (uuid video) (isLive video))) ;;
        let promises := [ setView ] in
        (* Increment our live manager *)
        federateView <-
          (if isLive video && owned video
           then
             awaitCall CLiveAddViewTo (
               modify (incr_liveViews (id video)) ;;;
               emit (EvLiveAddViewTo (id video))) ;;;
             (* Views of our local live will be sent by our live manager *)
             ret false
           else ret true) ;;
        (* Increment our video views cache counter *)
        promises <-
          (if negb (isLive video)
           then
             p <- invoke (fate env CAddVideoView) (Failed CAddVideoView) (
                    modify (incr_videoViews (id video)) ;;;
                    emit (EvAddVideoView (id video))) ;;
             ret (promises ++ [ p ])
           else ret promises) ;;
        promises <-
          (if (federateView : bool)
           then
             awaitCall CGetServerActor (ret tt) ;;;
             p <- invoke (fate env CSendView) (Failed CSendView)
                    (emit (EvSendView (id video))) ;;
             ret (promises ++ [ p ])
           else ret promises) ;;
        awaitAll promises ;;;
        awaitCall CHook (emit (EvHook "action:api.video.viewed")) ;;;
        ret NO_CONTENT_204
    end.

(** [createTorrentAndSetInfoHash] makes the torrent file and sets
    [infoHash] and [torrentFilename] on [fileArg]; it takes long enough for
    other requests to change the file table meanwhile. *)
Definition createTorrentAndSetInfoHash (video : Video) (fileArg : VideoFile)
  : M VideoFile :=
  awaitCall CCreateTorrent (
    let '(hash, filename) := createdTorrent env video fileArg in
    modify (upd_torrents (fun t => {[filename]} ∪ t)) ;;;
    emit (EvCreateTorrent (f_id fileArg)) ;;;
    modify (upd_db (upd_files (concurrent env))) ;;;
    ret (set_torrent (VStr hash) (VStr filename) fileArg)).

(** [fileArg.removeTorrent()] *)
Definition removeTorrent (fileArg : VideoFile) : M unit :=
  awaitCall CRemoveTorrent (
    match torrentFilename fileArg with
    | VStr filename => modify (upd_torrents (fun t => t ∖ {[filename]}))
    | _ => ret tt
    end ;;;
    emit (EvRemoveTorrent (f_id fileArg))).

Definition createTorrentAndSetInfoHashAsync (video : Video)
    (fileArg : VideoFile) : M unit :=
  fileArg <- createTorrentAndSetInfoHash video fileArg ;;
  (* Refresh videoFile because the createTorrentAndSetInfoHash could be
     long *)
  refreshedFile <-
    awaitCall CLoadFileWithVideo
      (gets (fun w => files (db w) !! f_id fileArg)) ;;
  match refreshedFile with
  | None =>
      (* File does not exist anymore, remove the generated torrent *)
      removeTorrent fileArg
  | Some refreshedFile =>
      let refreshedFile :=
        set_torrent (infoHash fileArg) (torrentFilename fileArg)
                    refreshedFile in
      awaitCall CSaveFile (
        modify (upd_db (upd_files
          (fun f => <[f_id refreshedFile := refreshedFile]> f))) ;;;
        emit (EvSaveFile refreshedFile))
  end.

(** The head of the chain [addVideo] starts without awaiting it:
    [createTorrentAndSetInfoHashAsync(video, videoFile).catch(err =>
    logger.error(...))]. *)
Definition createTorrentDetached (video : Video) (videoFile : VideoFile)
  : M unit :=
  try_catch
    (createTorrentAndSetInfoHashAsync video videoFile)
    (fun err => emit (EvLog "Cannot create torrent file for video %s")).

End Operations.

End Videos.

(* ===================================================================== *)
(** * Statements about videos/import.ts                                   *)
(* ===================================================================== *)

Module ImportsSpec.
Import Imports.

(** ** The merge policy of [buildVideo] *)

(** The descriptor fields for which the extractor can provide a value. *)
Inductive Field : Type :=
| FName | FCategory | FLicence | FLanguage | FNsfw | FDescription.

Definition requested (f : Field) (body : Body.t) : JSVal :=
  match f with
  | FName => Body.name body
  | FCategory => Body.category body
  | FLicence => Body.licence body
  | FLanguage => Body.language body
  | FNsfw => Body.nsfw body
  | FDescription => Body.description body
  end.

Definition extracted (f : Field) (importData : Info.t) : JSVal :=
  match f with
  | FName => Info.name importData
  | FCategory => Info.category importData
  | FLicence => Info.licence importData
  | FLanguage => Info.language importData
  | FNsfw => Info.nsfw importData
  | FDescription => Info.description importData
  end.

Definition built (f : Field) (video : VideoData.t) : JSVal :=
  match f with
  | FName => VideoData.name video
  | FCategory => VideoData.category video
  | FLicence => VideoData.licence video
  | FLanguage => VideoData.language video
  | FNsfw => VideoData.nsfw video
  | FDescription => VideoData.description video
  end.

(** What a field falls back to when neither the request nor the extractor
    gives a truthy value: [name] and [nsfw] have a hard default, the other
    fields keep whatever (falsy) value the extractor had. *)
Definition hardDefault (f : Field) (extractorValue : JSVal) : JSVal :=
  match f with
  | FName => VStr "Unknown name"
  | FNsfw => VBool false
  | _ => extractorValue
  end.

(** ** Sources of an import request *)

Inductive Source : Type := RemoteUrl | TorrentUpload | Magnet.

(** The source [addVideoImport] acts on: remote URL first, then torrent
    file, then magnet URI. *)
Definition selectedSource (req : Request) : option Source :=
  if truthy (Body.targetUrl (body req)) then Some RemoteUrl
  else if bool_decide (is_Some (torrentfile req)) then Some TorrentUpload
  else if truthy (Body.magnetUri (body req)) then Some Magnet
  else None.

Definition with_sources (targetUrl magnetUri : JSVal) (b : Body.t) : Body.t :=
  Body.mk targetUrl magnetUri (Body.name b) (Body.category b)
    (Body.licence b) (Body.language b) (Body.nsfw b) (Body.description b)
    (Body.support b) (Body.privacy b) (Body.waitTranscoding b)
    (Body.commentsEnabled b) (Body.downloadEnabled b)
    (Body.originallyPublishedAt b) (Body.tags b).

(** The request that names the selected source only. *)
Definition onlySelectedSource (req : Request) : Request :=
  match selectedSource req with
  | Some RemoteUrl =>
      mkRequest (with_sources (Body.targetUrl (body req)) VUndefined (body req))
                (thumbnailfile req) (previewfile req) None
  | Some TorrentUpload =>
      mkRequest (with_sources (Body.targetUrl (body req)) VUndefined (body req))
                (thumbnailfile req) (previewfile req) (torrentfile req)
  | _ => req
  end.

Definition namedSources (req : Request) : nat :=
  ((if truthy (Body.targetUrl (body req)) then 1 else 0)
   + (if bool_decide (is_Some (torrentfile req)) then 1 else 0)
   + (if truthy (Body.magnetUri (body req)) then 1 else 0))%nat.

(** ** Subtitles *)

(** Both steps of a subtitle go through. *)
Definition subtitleSucceeds (env : Env) (s : Subtitle) : bool :=
  bool_decide (fate env (CMoveAndProcessCaptionFile (sub_language s)) = Succeeds)
  && bool_decide (fate env (CInsertOrReplaceLanguage (sub_language s)) = Succeeds).

Fixpoint takeUntilFailure (env : Env) (subtitles : list Subtitle)
  : list Subtitle :=
  match subtitles with
  | [] => []
  | s :: rest =>
      if subtitleSucceeds env s then s :: takeUntilFailure env rest else []
  end.

(** The subtitles that end up inserted: none when the list cannot be
    fetched, otherwise those before the first failing one. *)
Definition importedSubtitles (env : Env) : list Subtitle :=
  if bool_decide (fate env CGetYoutubeDLSubs = Succeeds)
  then takeUntilFailure env (youtubeDLSubs env)
  else [].

Definition subtitlesAllSucceed (env : Env) : bool :=
  bool_decide (fate env CGetYoutubeDLSubs = Succeeds)
  && forallb (subtitleSucceeds env) (youtubeDLSubs env).

Definition captionOf (env : Env) (videoId : Z) (s : Subtitle) : VideoCaption :=
  mkVideoCaption videoId (sub_language s)
                 (generateCaptionName env (sub_language s)).

Definition insert_captions (cs : list VideoCaption) (d : Db) : Db :=
  fold_left (fun d c => insert_caption c d) cs d.

Definition isSubtitleCall (c : Call) : bool :=
  match c with
  | CGetYoutubeDLSubs
  | CMoveAndProcessCaptionFile _
  | CInsertOrReplaceLanguage _ => true
  | _ => false
  end.

(** ** Sample requests and environments *)

Definition emptyBody : Body.t :=
  Body.mk VUndefined VUndefined VUndefined VUndefined VUndefined VUndefined
          VUndefined VUndefined VUndefined VUndefined VUndefined VUndefined
          VUndefined VUndefined None.

Definition urlBody : Body.t :=
  with_sources (VStr "https://example.org/v/1") VUndefined emptyBody.

Definition urlAndMagnetBody : Body.t :=
  with_sources (VStr "https://example.org/v/1") (VStr "magnet:?xt=urn:btih:abc")
               emptyBody.

Definition nsfwFalseBody : Body.t :=
  Body.mk (VStr "https://example.org/v/1") VUndefined VUndefined VUndefined
          VUndefined VUndefined (VBool false) VUndefined VUndefined VUndefined
          VUndefined VUndefined VUndefined VUndefined None.

Definition sampleInfo : Info.t :=
  Info.mk (VStr "A talk") (VStr "About things") (VNum 15) (VNum 1)
          (VStr "en") (VBool true) (Some ["talk"%string])
          (VStr "https://example.org/t.jpg") (Some "webm"%string) VUndefined.

Definition english : Subtitle := mkSubtitle "en" "/tmp/en.vtt".
Definition french : Subtitle := mkSubtitle "fr" "/tmp/fr.vtt".

Definition twoFiles : ParsedTorrent :=
  mkParsedTorrent ["a.mp4"%string; "b.mp4"%string] (NameVal (VStr "pack")).

Definition sampleEnv (fate : Call -> Fate) : Env :=
  mkEnv fate sampleInfo [english; french]
        (fun _ => twoFiles)
        (fun _ => NameVal (VStr "clip"))
        (fun n => n) (fun l => String.append l ".vtt")
        (fun _ => VStr "https://peertube.example/videos/watch/1")
        (fun _ => false) "/var/torrents" 3.

Definition allSucceed : Call -> Fate := fun _ => Succeeds.

(** The download of the thumbnail fails: the promise of
    [createVideoMiniatureFromUrl] rejects. *)
Definition thumbnailDownloadFails : Call -> Fate :=
  fun c =>
    match c with
    | CMiniatureFromUrl MINIATURE => Rejects
    | _ => Succeeds
    end.

(** Moving the first subtitle fails. *)
Definition englishSubtitleFails : Call -> Fate :=
  fun c =>
    match c with
    | CMoveAndProcessCaptionFile l =>
        if String.eqb l "en" then Rejects else Succeeds
    | _ => Succeeds
    end.

Definition emptyDb : Db := mkDb [] [] [] [] [] [].
Definition emptyWorld : World := mkWorld emptyDb [] [] [].

Definition someLocals : Locals := mkLocals 7 42.

Definition torrentUpload : UploadFile := mkUploadFile "/tmp/upload-1" "pack.torrent".

End ImportsSpec.

(* ===================================================================== *)
(** * Statements about videos/index.ts                                    *)
(* ===================================================================== *)

Module VideosSpec.
Import Videos.

(** ** Relations between the state before and after a run *)

(** The trace grows by events that all satisfy [ok]. *)
Definition appends (ok : Event -> bool) (w w' : World) : Prop :=
  exists t, trace w' = trace w ++ t /\ forallb ok t = true.

Definition not_AddVideoView (e : Event) : bool :=
  match e with EvAddVideoView _ => false | _ => true end.

Definition not_SendView (e : Event) : bool :=
  match e with EvSendView _ => false | _ => true end.

(** The VOD counters are left alone and no [addVideoView] is issued. *)
Definition vodUntouched (w w' : World) : Prop :=
  videoViews w' = videoViews w /\ appends not_AddVideoView w w'.

(** The attributes of a video no controller assigns. *)
Definition immutables (v : Video) : Z * string * bool * bool :=
  (id v, uuid v, isLive v, owned v).

Definition sameImmutables (w w' : World) : Prop :=
  immutables (videoInstance w') = immutables (videoInstance w).

(** The instance, the video table and the schedule table are left alone;
    the trace grows. *)
Definition keeps (w w' : World) : Prop :=
  videoInstance w' = videoInstance w
  /\ videos (db w') = videos (db w)
  /\ schedules (db w') = schedules (db w)
  /\ exists t, trace w' = trace w ++ t.

(** ** What a successful update leaves behind *)

Definition withPrivacy (p : Patch.t) (v : Video) : Video :=
  match Patch.privacy p with
  | Some privacy => setPrivacy (parseInt_toString privacy) v
  | None => v
  end.

Definition newChannel (channel : option Z) (v : Video) : option Z :=
  match channel with
  | Some c => if channelId v =? c then None else Some c
  | None => None
  end.

(** The row of the video table after the update. *)
Definition persistedRow (p : Patch.t) (channel : option Z) (v : Video)
  : Video :=
  let v' := withPrivacy p (assignFields p v) in
  match newChannel channel v' with
  | Some c => set_channelId c v'
  | None => v'
  end.

(** The in-memory instance after the update. *)
Definition updatedInstance (p : Patch.t) (channel : option Z) (v : Video)
  : Video :=
  let v' := withPrivacy p (assignFields p v) in
  match newChannel channel v' with
  | Some c => set_VideoChannel c (set_channelId c v')
  | None => v'
  end.

(** Whether the update retracts the video from the federation. *)
Definition unfederates (env : Env) (p : Patch.t) (v : Video) : bool :=
  match Patch.privacy p with
  | Some privacy =>
      hasPrivacyForFederation env v
      && negb (isPrivacyForFederation env (parseInt_toString privacy))
  | None => false
  end.

Definition scheduled (p : Patch.t) (videoId : Z)
    (s : gmap Z ScheduleVideoUpdate) : gmap Z ScheduleVideoUpdate :=
  match Patch.scheduleUpdate p with
  | ScheduleObject updateAt privacy =>
      <[videoId := mkSchedule (newDate updateAt) (privacy || VNull)%js]> s
  | ScheduleNull => delete videoId s
  | ScheduleUndefined => s
  end.

(** The attributes an update body can mention by a JavaScript value. *)
Inductive Attribute : Type :=
| AName | ACategory | ALicence | ALanguage | ANsfw | AWaitTranscoding
| ASupport | ADescription | ACommentsEnabled | ADownloadEnabled
| AOriginallyPublishedAt.

Definition attribute (a : Attribute) (v : Video) : JSVal :=
  match a with
  | AName => name v
  | ACategory => category v
  | ALicence => licence v
  | ALanguage => language v
  | ANsfw => nsfw v
  | AWaitTranscoding => waitTranscoding v
  | ASupport => support v
  | ADescription => description v
  | ACommentsEnabled => commentsEnabled v
  | ADownloadEnabled => downloadEnabled v
  | AOriginallyPublishedAt => originallyPublishedAt v
  end.

Definition mentioned (a : Attribute) (p : Patch.t) : JSVal :=
  match a with
  | AName => Patch.name p
  | ACategory => Patch.category p
  | ALicence => Patch.licence p
  | ALanguage => Patch.language p
  | ANsfw => Patch.nsfw p
  | AWaitTranscoding => Patch.waitTranscoding p
  | ASupport => Patch.support p
  | ADescription => Patch.description p
  | ACommentsEnabled => Patch.commentsEnabled p
  | ADownloadEnabled => Patch.downloadEnabled p
  | AOriginallyPublishedAt => Patch.originallyPublishedAt p
  end.

Definition with_originallyPublishedAt (x : JSVal) (p : Patch.t) : Patch.t :=
  Patch.mk (Patch.name p) (Patch.category p) (Patch.licence p)
    (Patch.language p) (Patch.nsfw p) (Patch.waitTranscoding p)
    (Patch.support p) (Patch.description p) (Patch.commentsEnabled p)
    (Patch.downloadEnabled p) x (Patch.privacy p) (Patch.tags p)
    (Patch.scheduleUpdate p).

(** ** Sample videos, requests and environments *)

Definition sampleVideo (live owned : bool) : Video :=
  mkVideo 1 "uuid-1" (VStr "A talk") (VNum 15) (VNum 1) (VStr "en")
          (VBool false) (VBool false) VNull (VStr "About things")
          (VBool true) (VBool true) (VDate (VStr "2020-01-01")) 1 7 7
          live owned.

Definition sampleFile : VideoFile :=
  mkVideoFile 5 1 720 1000 ".mp4" VNull VNull.

(** The same file record after another request changed its size. *)
Definition changedFile : VideoFile :=
  mkVideoFile 5 1 720 2000 ".mp4" VNull VNull.

Definition emptyDb : Db := mkDb ∅ [] ∅ ∅ ∅ ∅.

Definition sampleSchedule : ScheduleVideoUpdate :=
  mkSchedule (VDate (VStr "2030-01-01")) (VNum 1).

(** A world whose tables hold the video [v], a scheduled change for it and
    the file [sampleFile]; [v] is also the loaded instance. *)
Definition worldWith (v : Video) : World :=
  mkWorld
    (upd_files (fun f => <[5 := sampleFile]> f)
       (upd_schedules (fun s => <[id v := sampleSchedule]> s)
          (put_video v emptyDb)))
    v ∅ ∅ ∅ ∅ [].

Definition allSucceed : Call -> Fate := fun _ => Succeeds.

(** Saving the video fails. *)
Definition saveFails : Call -> Fate :=
  fun c => match c with CSave => Rejects | _ => Succeeds end.

(** Privacy 1 (public) is the only one open to federation. *)
Definition sampleEnv (fate : Call -> Fate)
    (concurrent : gmap Z VideoFile -> gmap Z VideoFile) : Env :=
  mkEnv fate (fun p => p =? 1) (fun _ _ => false) (fun _ => false)
        (None, None) (fun _ => false)
        (fun _ _ => ("hash"%string, "file.torrent"%string))
        concurrent.

Definition untouched : gmap Z VideoFile -> gmap Z VideoFile := fun f => f.
Definition fileDeleted : gmap Z VideoFile -> gmap Z VideoFile :=
  fun f => delete 5 f.
Definition fileChanged : gmap Z VideoFile -> gmap Z VideoFile :=
  fun f => <[5 := changedFile]> f.

(** [{ privacy: 3 }] *)
Definition privatePatch : Patch.t :=
  Patch.mk VUndefined VUndefined VUndefined VUndefined VUndefined VUndefined
           VUndefined VUndefined VUndefined VUndefined VUndefined (Some 3)
           TagsUndefined ScheduleUndefined.

(** [{ name: 'Renamed', originallyPublishedAt: null, scheduleUpdate: null }] *)
Definition nullsPatch : Patch.t :=
  Patch.mk (VStr "Renamed") VUndefined VUndefined VUndefined VUndefined
           VUndefined VUndefined VUndefined VUndefined VUndefined VNull None
           TagsUndefined ScheduleNull.

End VideosSpec.

(* ===================================================================== *)
(** * More statements about videos/import.ts                              *)
(* ===================================================================== *)

Module ImportsMore.
Import Imports ImportsSpec.

(** ** Relations between the state before and after a run *)

Definition sameCaptions (w w' : World) : Prop :=
  captions (db w') = captions (db w).

(** Rows, jobs, file operations and log lines are only added, after the
    ones that were there. (Captions are replaced by language and are not
    part of this.) *)
Definition growsOnly (w w' : World) : Prop :=
  videos (db w) `prefix_of` videos (db w')
  /\ thumbnails (db w) `prefix_of` thumbnails (db w')
  /\ blacklist (db w) `prefix_of` blacklist (db w')
  /\ videoTags (db w) `prefix_of` videoTags (db w')
  /\ videoImports (db w) `prefix_of` videoImports (db w')
  /\ jobs w `prefix_of` jobs w'
  /\ fs w `prefix_of` fs w'
  /\ log w `prefix_of` log w'.

(** [payload.videoImportId] *)
Definition payloadImportId (p : Payload) : Z :=
  match p with
  | PayloadTorrent _ videoImportId _ => videoImportId
  | PayloadYoutubeDL videoImportId _ => videoImportId
  end.

(** ** What the torrent paths work from *)

(** The name [addTorrentImport] builds the descriptor from: the one the
    torrent file carries, else the one of the magnet URI. *)
Definition importedName (env : Env) (req : Request)
    (torrentfile : option UploadFile) : JSVal :=
  match torrentfile with
  | Some f =>
      firstName
        (pt_name (parseTorrent env
                    (join (TORRENTS_DIR env)
                          (getSecureTorrentName env (originalname f)))))
  | None => firstName (magnetDecode env (Body.magnetUri (body req)))
  end.

(** [torrentName] and [magnetUri] as they stand after the branch on the
    torrent file: each is assigned in one branch only. *)
Definition recordedTorrentName (torrentfile : option UploadFile) : JSVal :=
  match torrentfile with
  | Some f => VStr (originalname f)
  | None => VUndefined
  end.

Definition recordedMagnetUri (req : Request)
    (torrentfile : option UploadFile) : JSVal :=
  match torrentfile with
  | Some _ => VUndefined
  | None => Body.magnetUri (body req)
  end.

Definition torrentJobType (torrentfile : option UploadFile) : TorrentJobType :=
  match torrentfile with Some _ => TorrentFile | None => MagnetUri end.

(** ** Thumbnail slots of a remote-URL import *)

(** What a slot ends up with when the import goes on: the uploaded file
    first; else the picture behind the extractor's URL, when there is such
    a URL and the fetch is not given up. *)
Definition resolvedSlot (env : Env) (uploaded : option UploadFile)
    (url : JSVal) (t : ThumbnailType) : option Thumbnail :=
  match uploaded with
  | Some f => Some (mkThumbnail t (FromExisting (path f)))
  | None =>
      if truthy url
         && bool_decide (fate env (CMiniatureFromUrl t) = Succeeds)
      then Some (mkThumbnail t (FromUrl url))
      else None
  end.

(** The slot of an import that has no URL to fall back on. *)
Definition uploadedSlot (uploaded : option UploadFile) (t : ThumbnailType)
  : option Thumbnail :=
  match uploaded with
  | Some f => Some (mkThumbnail t (FromExisting (path f)))
  | None => None
  end.

Definition slotRows (videoId : Z) (slots : list (option Thumbnail))
  : list (Z * Thumbnail) :=
  omap (fun s => match s with Some th => Some (videoId, th) | None => None end)
       slots.

(** ** What the transaction of an import stores *)

(** The import record created from the state [w]. *)
Definition createdImport (w : World) (res : Locals)
    (targetUrl magnetUri torrentName : JSVal) : VideoImport :=
  mkVideoImport (next_id (videoImports (db w))) (next_id (videos (db w)))
                targetUrl magnetUri torrentName PENDING (user_id res).

(** The tables [d'] are the tables [d] with one descriptor, its
    thumbnails, its blacklist entry if any, its tag row and one import
    record more. *)
Definition stored (env : Env) (d d' : Db) (video : VideoData.t)
    (slots : list (option Thumbnail)) (tags : option (list string))
    (videoImport : VideoImport) : Prop :=
  videos d' = videos d ++ [(vi_videoId videoImport, video)]
  /\ thumbnails d' = thumbnails d ++ slotRows (vi_videoId videoImport) slots
  /\ blacklist d'
     = (if autoBlacklisted env video
        then blacklist d ++ [vi_videoId videoImport]
        else blacklist d)
  /\ videoTags d' = videoTags d ++ [(vi_videoId videoImport, tags)]
  /\ videoImports d' = videoImports d ++ [videoImport].

(** A step before the transaction: it leaves the tables and the job queue
    alone, it returns [a] when it returns, and what it throws does not
    come from the job queue. *)
Definition quiet {A} (w : World) (run : Res Error A * World) (a : A) : Prop :=
  db (snd run) = db w /\ jobs (snd run) = jobs w
  /\ match fst run with
     | Ok a' => a' = a
     | Throw e => e <> Failed CCreateJob
     end.

(** The handler answered with the import it created. *)
Definition created (outcome : Res Error (option Response)) : bool :=
  match outcome with
  | Ok (Some r) => bool_decide (status r = OK_200)
  | _ => false
  end.

(** ** Sample requests and environments *)

Definition oneFile : ParsedTorrent :=
  mkParsedTorrent ["clip.mp4"%string] (NameArr ["clip"%string; "alt"%string]).

Definition torrentEnv (fate : Call -> Fate) : Env :=
  mkEnv fate sampleInfo []
        (fun _ => oneFile)
        (fun _ => NameVal VUndefined)
        (fun n => n) (fun l => String.append l ".vtt")
        (fun _ => VStr "https://peertube.example/videos/watch/1")
        (fun _ => false) "/var/torrents" 3.

Definition magnetBody : Body.t :=
  with_sources VUndefined (VStr "magnet:?xt=urn:btih:abc") emptyBody.

Definition extractorFails : Call -> Fate :=
  fun c => match c with CGetYoutubeDLInfo => Rejects | _ => Succeeds end.

Definition jobQueueFails : Call -> Fate :=
  fun c => match c with CCreateJob => Rejects | _ => Succeeds end.

Definition importCreateFails : Call -> Fate :=
  fun c => match c with CVideoImportCreate => Rejects | _ => Succeeds end.

(** Every fetch from the extractor's thumbnail URL is given up before it
    starts. *)
Definition urlFetchesGivenUp : Call -> Fate :=
  fun c => match c with CMiniatureFromUrl _ => ThrowsSync | _ => Succeeds end.

Definition thumbUpload : UploadFile := mkUploadFile "/tmp/thumb-1" "t.png".

End ImportsMore.
(* ===================================================================== *)
(** * More statements about videos/index.ts                               *)
(* ===================================================================== *)

Module VideosMore.
Import Videos VideosSpec.

(** ** The chain [addVideo] leaves behind *)

Section Detached.
Variable env : Env.

Local Open Scope eff_scope.

(** What [addVideo] starts once its transaction is committed, without
    awaiting it: [createTorrentAndSetInfoHashAsync(video, videoFile)
    .catch(...).then(load).then(notify and federate).catch(...)]. The
    notifier is called and not awaited: only what it throws before
    returning reaches the chain. *)
Definition addVideoDetached (video : Video) (videoFile : VideoFile)
  : M unit :=
  try_catch
    (createTorrentDetached env video videoFile ;;;
     refreshedVideo <-
       awaitCall env CLoadVideo (gets (fun w => videos (db w) !! id video)) ;;
     match refreshedVideo with
     | None => ret tt
     | Some refreshedVideo =>
         (* Only federate and notify after the torrent creation *)
         invoke (fate env CNotifyOnNewVideo) (Failed CNotifyOnNewVideo)
           (emit (EvNotifyOnNewVideo (id refreshedVideo))) ;;;
         awaitCall env CFederate (emit (EvFederate refreshedVideo true))
     end)
    (fun err => emit (EvLog "Cannot federate or notify video creation %s")).

End Detached.

(** The events of the torrent stage. *)
Definition torrentEvent (e : Event) : bool :=
  match e with
  | EvCreateTorrent _ | EvRemoveTorrent _ | EvSaveFile _ => true
  | EvLog message =>
      bool_decide (message = "Cannot create torrent file for video %s"%string)
  | _ => false
  end.

(** The torrent stage leaves the video table alone and asks of the
    outside what belongs to it only. *)
Definition torrentStage (w w' : World) : Prop :=
  videos (db w') = videos (db w) /\ appends torrentEvent w w'.

(** The events that announce a video. *)
Definition announces (e : Event) : bool :=
  match e with
  | EvNotifyOnNewVideo _ | EvFederate _ _ => true
  | _ => false
  end.

(** ** Views *)

(** The view keys and both view counters are left alone. *)
Definition countersUntouched (w w' : World) : Prop :=
  ipViews w' = ipViews w
  /\ videoViews w' = videoViews w
  /\ liveViews w' = liveViews w.


Definition not_Hook (e : Event) : bool :=
  match e with EvHook _ => false | _ => true end.

(** ** Updates *)

Definition not_SendDelete (e : Event) : bool :=
  match e with EvSendDelete _ => false | _ => true end.

Definition not_Notify (e : Event) : bool :=
  match e with EvNotifyOnNewVideo _ => false | _ => true end.

(** What the instance holds for [a] once the body's value is assigned:
    the value itself, a date made of it for [originallyPublishedAt]. *)
Definition assigned (a : Attribute) (p : Patch.t) : JSVal :=
  match a with
  | AOriginallyPublishedAt => newDate (mentioned a p)
  | _ => mentioned a p
  end.


(** What follows the commit of a successful update. *)
Definition afterCommit (env : Env) (v : Video) : list Event :=
  (if isConfidential env v then [EvNotifyOnNewVideo (id v)] else [])
  ++ [EvHook "action:api.video.updated"].

(** ** Sample requests and environments *)

(** Creating the torrent fails. *)
Definition torrentFails : Call -> Fate :=
  fun c => match c with CCreateTorrent => Rejects | _ => Succeeds end.

(** Sending the view to the federation fails. *)
Definition sendViewFails : Call -> Fate :=
  fun c => match c with CSendView => Rejects | _ => Succeeds end.

(** [{ name: '', nsfw: false, support: null, category: 0 }] *)
Definition falsyPatch : Patch.t :=
  Patch.mk (VStr "") (VNum 0) VUndefined VUndefined (VBool false) VUndefined
           VNull VUndefined VUndefined VUndefined VUndefined None
           TagsUndefined ScheduleUndefined.

(** [{ scheduleUpdate: { updateAt: '2031-05-01' } }] *)
Definition schedulePatch : Patch.t :=
  Patch.mk VUndefined VUndefined VUndefined VUndefined VUndefined VUndefined
           VUndefined VUndefined VUndefined VUndefined VUndefined None
           TagsUndefined (ScheduleObject (VStr "2031-05-01") VUndefined).

(** [{ description: 'More' }] *)
Definition descriptionPatch : Patch.t :=
  Patch.mk VUndefined VUndefined VUndefined VUndefined VUndefined VUndefined
           VUndefined (VStr "More") VUndefined VUndefined VUndefined None
           TagsUndefined ScheduleUndefined.



End VideosMore.

(* ===================================================================== *)
(** * videos/index.ts: uploads                                            *)
(* ===================================================================== *)

Module Upload.

(** ** Data *)

Inductive VideoState : Type := PUBLISHED | TO_TRANSCODE.

(** [VideoCreate]: the fields of [videoInfo] the controller reads itself;
    the whole of it goes to [buildLocalVideoFromReq]. [previewfile] is
    there in the metadata of a resumable upload. *)
Record VideoCreate : Type := mkVideoCreate {
  vc_name : JSVal;
  vc_tags : Videos.TagsField;
  vc_scheduleUpdate : Videos.ScheduleField;
  vc_previewfile : option string
}.

(** [express.VideoUploadFile], an object of the request: every attempt of
    the request sees what the attempts before it assigned. *)
Record VideoUploadFile : Type := mkUploadFile {
  path : string;
  filename : string;
  size : Z;
  up_duration : Z
}.

Record UploadFiles : Type := mkFiles {
  thumbnailfile : option string;
  previewfile : option string
}.

Record VideoFile : Type := mkVideoFile {
  f_extname : string;
  f_size : Z;
  f_videoStreamingPlaylistId : JSVal;
  f_metadata : string;
  f_resolution : option Z;
  f_fps : option Z;
  f_filename : option string;
  f_videoId : option Z;
  f_id : option Z
}.

Definition set_resolution (r : Z) (f : VideoFile) : VideoFile :=
  mkVideoFile (f_extname f) (f_size f) (f_videoStreamingPlaylistId f)
    (f_metadata f) (Some r) (f_fps f) (f_filename f) (f_videoId f) (f_id f).
Definition set_fps (x : Z) (f : VideoFile) : VideoFile :=
  mkVideoFile (f_extname f) (f_size f) (f_videoStreamingPlaylistId f)
    (f_metadata f) (f_resolution f) (Some x) (f_filename f) (f_videoId f)
    (f_id f).
Definition set_filename (x : string) (f : VideoFile) : VideoFile :=
  mkVideoFile (f_extname f) (f_size f) (f_videoStreamingPlaylistId f)
    (f_metadata f) (f_resolution f) (f_fps f) (Some x) (f_videoId f) (f_id f).
Definition set_videoId (x : option Z) (f : VideoFile) : VideoFile :=
  mkVideoFile (f_extname f) (f_size f) (f_videoStreamingPlaylistId f)
    (f_metadata f) (f_resolution f) (f_fps f) (f_filename f) x (f_id f).
Definition set_f_id (x : Z) (f : VideoFile) : VideoFile :=
  mkVideoFile (f_extname f) (f_size f) (f_videoStreamingPlaylistId f)
    (f_metadata f) (f_resolution f) (f_fps f) (f_filename f) (f_videoId f)
    (Some x).

(** The video instance; [id] is set by [save]. *)
Record Video : Type := mkVideo {
  id : option Z;
  uuid : string;
  name : JSVal;
  state : VideoState;
  duration : Z;
  channelId : Z;
  VideoChannel : option Z;
  url : JSVal;
  VideoFiles : list VideoFile
}.

Definition set_state (x : VideoState) (v : Video) : Video :=
  mkVideo (id v) (uuid v) (name v) x (duration v) (channelId v)
    (VideoChannel v) (url v) (VideoFiles v).
Definition set_duration (x : Z) (v : Video) : Video :=
  mkVideo (id v) (uuid v) (name v) (state v) x (channelId v)
    (VideoChannel v) (url v) (VideoFiles v).
Definition set_VideoChannel (x : Z) (v : Video) : Video :=
  mkVideo (id v) (uuid v) (name v) (state v) (duration v) (channelId v)
    (Some x) (url v) (VideoFiles v).
Definition set_url (x : JSVal) (v : Video) : Video :=
  mkVideo (id v) (uuid v) (name v) (state v) (duration v) (channelId v)
    (VideoChannel v) x (VideoFiles v).
Definition set_id (x : Z) (v : Video) : Video :=
  mkVideo (Some x) (uuid v) (name v) (state v) (duration v) (channelId v)
    (VideoChannel v) (url v) (VideoFiles v).
Definition set_VideoFiles (x : list VideoFile) (v : Video) : Video :=
  mkVideo (id v) (uuid v) (name v) (state v) (duration v) (channelId v)
    (VideoChannel v) (url v) x.

(** [{ video: { id, uuid } }] *)
Record Response : Type := mkResponse {
  r_id : option Z;
  r_uuid : string
}.

Inductive Event : Type :=
| EvAudit
| EvLog (message : string)
| EvHook (action : string).

(** ** Collaborators *)

Inductive Call : Type :=
| CDeleteResumableUploadMetaFile
| CGetMetadataFromFile
| CGetVideoFileFPS
| CGetVideoFileResolution
| CMove
| CBuildVideoThumbnailsFromReq
| CVideoSave
| CAddAndSaveThumbnail (t : Videos.ThumbnailType)
| CVideoFileSave
| CSetVideoTags
| CScheduleCreate
| CSetAsUpdated
| CAutoBlacklist
| CAddOptimizeOrMergeAudioJob
| CHook.

#[global] Instance UploadThumbnailType_eq_dec :
  EqDecision Videos.ThumbnailType.
Proof. solve_decision. Defined.

#[global] Instance UploadCall_eq_dec : EqDecision Call.
Proof. solve_decision. Defined.

Inductive Error : Type :=
| Failed (c : Call).

(** What the configuration and the outside world answer during one
    request. [buildLocalVideoFromReq] answers the attributes the instance
    is built from, with the uuid the model gives a new instance. *)
Record Env : Type := mkEnv {
  fate : Call -> Fate;
  TRANSCODING_ENABLED : bool;          (* CONFIG.TRANSCODING.ENABLED *)
  DEFAULT_AUDIO_RESOLUTION : Z;
  buildLocalVideoFromReq : VideoCreate -> Z -> Video;
  getLocalVideoActivityPubUrl : Video -> JSVal;
  extname : string -> string;
  getMetadataFromFile : string -> string;
  isAudio : VideoFile -> bool;         (* videoFile.isAudio() *)
  getVideoFileFPS : string -> Z;
  getVideoFileResolution : string -> Z;
  generateVideoFilename : Video -> bool -> option Z -> string -> string;
  getVideoFilePath : Video -> VideoFile -> string;
  buildVideoThumbnailsFromReq :
    Video -> UploadFiles -> Videos.Thumbnail * Videos.Thumbnail;
  autoBlacklisted : Video -> bool
}.

(** ** State *)

Record ScheduleVideoUpdate : Type := mkSchedule {
  sched_videoId : option Z;
  sched_updateAt : JSVal;
  sched_privacy : JSVal
}.

(** The tables written inside the transaction. *)
Record Db : Type := mkDb {
  videos : list Video;
  thumbnails : list (option Z * Videos.Thumbnail);
  files : list VideoFile;
  videoTags : list (option Z * Videos.TagsField);
  schedules : list ScheduleVideoUpdate;
  channelsUpdated : list Z;
  blacklist : list (option Z)
}.

(** [physicalFile] is the uploaded file object of the request; [moves] the
    files moved on disk; [jobs] the transcoding jobs asked for; [detached]
    the chains started and not awaited, each with the video and the file
    it was given. *)
Record World : Type := mkWorld {
  db : Db;
  physicalFile : VideoUploadFile;
  metaDeleted : list string;
  moves : list (string * string);
  jobs : list (Video * VideoFile);
  detached : list (Video * VideoFile);
  trace : list Event
}.

Definition set_db (d : Db) (w : World) : World :=
  mkWorld d (physicalFile w) (metaDeleted w) (moves w) (jobs w) (detached w)
          (trace w).

Definition upd_db (f : Db -> Db) (w : World) : World := set_db (f (db w)) w.

Definition set_physicalFile (f : VideoUploadFile) (w : World) : World :=
  mkWorld (db w) f (metaDeleted w) (moves w) (jobs w) (detached w) (trace w).

Definition add_metaDeleted (p : string) (w : World) : World :=
  mkWorld (db w) (physicalFile w) (metaDeleted w ++ [p]) (moves w) (jobs w)
          (detached w) (trace w).

Definition add_move (from to : string) (w : World) : World :=
  mkWorld (db w) (physicalFile w) (metaDeleted w) (moves w ++ [(from, to)])
          (jobs w) (detached w) (trace w).

Definition add_job (j : Video * VideoFile) (w : World) : World :=
  mkWorld (db w) (physicalFile w) (metaDeleted w) (moves w) (jobs w ++ [j])
          (detached w) (trace w).

Definition add_detached (c : Video * VideoFile) (w : World) : World :=
  mkWorld (db w) (physicalFile w) (metaDeleted w) (moves w) (jobs w)
          (detached w ++ [c]) (trace w).

Definition add_event (e : Event) (w : World) : World :=
  mkWorld (db w) (physicalFile w) (metaDeleted w) (moves w) (jobs w)
          (detached w) (trace w ++ [e]).

Definition insert_video (v : Video) (d : Db) : Db :=
  mkDb (videos d ++ [v]) (thumbnails d) (files d) (videoTags d) (schedules d)
       (channelsUpdated d) (blacklist d).

Definition insert_thumbnail (r : option Z * Videos.Thumbnail) (d : Db) : Db :=
  mkDb (videos d) (thumbnails d ++ [r]) (files d) (videoTags d) (schedules d)
       (channelsUpdated d) (blacklist d).

Definition insert_file (f : VideoFile) (d : Db) : Db :=
  mkDb (videos d) (thumbnails d) (files d ++ [f]) (videoTags d) (schedules d)
       (channelsUpdated d) (blacklist d).

Definition insert_tags (r : option Z * Videos.TagsField) (d : Db) : Db :=
  mkDb (videos d) (thumbnails d) (files d) (videoTags d ++ [r]) (schedules d)
       (channelsUpdated d) (blacklist d).

Definition insert_schedule (s : ScheduleVideoUpdate) (d : Db) : Db :=
  mkDb (videos d) (thumbnails d) (files d) (videoTags d) (schedules d ++ [s])
       (channelsUpdated d) (blacklist d).

Definition insert_channelUpdated (c : Z) (d : Db) : Db :=
  mkDb (videos d) (thumbnails d) (files d) (videoTags d) (schedules d)
       (channelsUpdated d ++ [c]) (blacklist d).

Definition insert_blacklist (flag : bool) (k : option Z) (d : Db) : Db :=
  mkDb (videos d) (thumbnails d) (files d) (videoTags d) (schedules d)
       (channelsUpdated d)
       (if flag then blacklist d ++ [k] else blacklist d).

(** The id the table gives its next row. *)
Definition next_id {A} (rows : list A) : Z := Z.of_nat (length rows) + 1.

Abbreviation M := (Eff.M World Error).

(** ** Operations *)

Section Operations.
Variable env : Env.

Local Open Scope eff_scope.

Definition emit (e : Event) : M unit := modify (add_event e).

(** [await collaborator(...)] for the collaborator [c]. *)
Definition awaitCall {A} (c : Call) (eff : M A) : M A :=
  call (fate env c) (Failed c) eff.

(** [sequelizeTypescript.transaction] over the tables of [Db]. *)
Definition inTransaction {A} (body : M A) : M A :=
  transaction db set_db body.

(** [videoCreated.addAndSaveThumbnail(model, t)] *)
Definition addAndSaveThumbnail (videoId : option Z)
    (model : Videos.Thumbnail) : M unit :=
  awaitCall (CAddAndSaveThumbnail (Videos.th_type model))
    (modify (upd_db (insert_thumbnail (videoId, model)))).

(** The function given to [sequelizeTypescript.transaction] by [addVideo].
    [video.save] answers the instance itself, with its id: [videoCreated]
    is [video]. *)
Definition addVideoTransaction (videoChannel_id : Z) (videoInfo : VideoCreate)
    (video : Video) (videoFile : VideoFile)
    (thumbnailModel previewModel : Videos.Thumbnail)
  : M (Video * VideoFile) :=
  video <-
    awaitCall CVideoSave (
      id <- gets (fun w => next_id (videos (db w))) ;;
      let video := set_id id video in
      modify (upd_db (insert_video video)) ;;;
      ret video) ;;
  addAndSaveThumbnail (id video) thumbnailModel ;;;
  addAndSaveThumbnail (id video) previewModel ;;;
  (* Do not forget to add video channel information to the created video *)
  let video := set_VideoChannel videoChannel_id video in
  let videoFile := set_videoId (id video) videoFile in
  videoFile <-
    awaitCall CVideoFileSave (
      id <- gets (fun w => next_id (files (db w))) ;;
      let videoFile := set_f_id id videoFile in
      modify (upd_db (insert_file videoFile)) ;;;
      ret videoFile) ;;
  let video := set_VideoFiles [ videoFile ] video in
  awaitCall CSetVideoTags
    (modify (upd_db (insert_tags (id video, vc_tags videoInfo)))) ;;;
  (* Schedule an update in the future? *)
  match vc_scheduleUpdate videoInfo with
  | Videos.ScheduleObject updateAt privacy =>
      awaitCall CScheduleCreate
        (modify (upd_db (insert_schedule
           (mkSchedule (id video) (newDate updateAt)
                       (privacy || VNull)%js))))
  | _ => ret tt
  end ;;;
  (* Channel has a new content, set as updated *)
  awaitCall CSetAsUpdated
    (modify (upd_db (insert_channelUpdated videoChannel_id))) ;;;
  awaitCall CAutoBlacklist
    (modify (upd_db (insert_blacklist (autoBlacklisted env video)
                       (id video)))) ;;;
  emit EvAudit ;;;
  emit (EvLog "Video with name %s and uuid %s created.") ;;;
  ret (video, videoFile).

Definition addVideo (videoChannel_id : Z) (videoInfo : VideoCreate)
    (files : UploadFiles) : M Response :=
  videoPhysicalFile <- gets physicalFile ;;
  let videoData := buildLocalVideoFromReq env videoInfo videoChannel_id in
  let videoData :=
    set_state (if TRANSCODING_ENABLED env then TO_TRANSCODE else PUBLISHED)
              videoData in
  (* duration was added by a previous middleware *)
  let videoData := set_duration (up_duration videoPhysicalFile) videoData in
  let video := set_VideoChannel videoChannel_id videoData in
  (* We use the UUID, so set the URL after building the object *)
  let video := set_url (getLocalVideoActivityPubUrl env video) video in
  metadata <-
    awaitCall CGetMetadataFromFile
      (ret (getMetadataFromFile env (path videoPhysicalFile))) ;;
  let videoFile :=
    mkVideoFile (extname env (filename videoPhysicalFile))
                (size videoPhysicalFile) VNull metadata None None None None
                None in
  videoFile <-
    (if isAudio env videoFile
     then ret (set_resolution (DEFAULT_AUDIO_RESOLUTION env) videoFile)
     else
       fps <-
         awaitCall CGetVideoFileFPS
           (ret (getVideoFileFPS env (path videoPhysicalFile))) ;;
       let videoFile := set_fps fps videoFile in
       videoFileResolution <-
         awaitCall CGetVideoFileResolution
           (ret (getVideoFileResolution env (path videoPhysicalFile))) ;;
       ret (set_resolution videoFileResolution videoFile)) ;;
  let videoFile :=
    set_filename
      (generateVideoFilename env video false (f_resolution videoFile)
         (f_extname videoFile))
      videoFile in
  (* Move physical file *)
  let destination := getVideoFilePath env video videoFile in
  awaitCall CMove (modify (add_move (path videoPhysicalFile) destination)) ;;;
  (* This is important in case if there is another attempt in the retry
     process *)
  modify (set_physicalFile
            (mkUploadFile destination (getVideoFilePath env video videoFile)
               (size videoPhysicalFile) (up_duration videoPhysicalFile))) ;;;
  ' (thumbnailModel, previewModel) <-
    awaitCall CBuildVideoThumbnailsFromReq
      (ret (buildVideoThumbnailsFromReq env video files)) ;;
  ' (video, videoFile) <-
    inTransaction
      (addVideoTransaction videoChannel_id videoInfo video videoFile
         thumbnailModel previewModel) ;;
  (* Create the torrent file in async way because it could be long *)
  modify (add_detached (video, videoFile)) ;;;
  (if state video is TO_TRANSCODE
   then awaitCall CAddOptimizeOrMergeAudioJob
          (modify (add_job (video, videoFile)))
   else ret tt) ;;;
  invoke (fate env CHook) (Failed CHook)
    (emit (EvHook "action:api.video.uploaded")) ;;;
  ret (mkResponse (id video) (uuid video)).

(** The request body and the request files as they are. (The timeout the
    handler sets on the request first is not part of the state.) *)
Definition addVideoLegacy (videoChannel_id : Z) (body : VideoCreate)
    (files : UploadFiles) : M Response :=
  addVideo videoChannel_id body files.

(** [videoInfo] is the metadata of the uploaded file, and of the files
    only the preview named there is passed on. *)
Definition addVideoResumable (videoChannel_id : Z) (metadata : VideoCreate)
  : M Response :=
  videoPhysicalFile <- gets physicalFile ;;
  let videoInfo := metadata in
  let files := mkFiles None (vc_previewfile videoInfo) in
  (* Don't need the meta file anymore *)
  awaitCall CDeleteResumableUploadMetaFile
    (modify (add_metaDeleted (path videoPhysicalFile))) ;;;
  addVideo videoChannel_id videoInfo files.

End Operations.

End Upload.

(* ===================================================================== *)
(** * Statements about uploads                                            *)
(* ===================================================================== *)

Module UploadSpec.
Import Upload.

(** ** The objects [addVideo] builds, as values *)

Section Built.
Variable env : Env.
Variable videoChannel_id : Z.
Variable videoInfo : VideoCreate.

(** [video], before it is saved. *)
Definition builtVideo (f : VideoUploadFile) : Video :=
  let videoData :=
    set_duration (up_duration f)
      (set_state (if TRANSCODING_ENABLED env then TO_TRANSCODE else PUBLISHED)
         (buildLocalVideoFromReq env videoInfo videoChannel_id)) in
  let video := set_VideoChannel videoChannel_id videoData in
  set_url (getLocalVideoActivityPubUrl env video) video.

(** [new VideoFileModel({ ... })] *)
Definition newVideoFile (f : VideoUploadFile) : VideoFile :=
  mkVideoFile (extname env (filename f)) (size f) VNull
              (getMetadataFromFile env (path f)) None None None None None.

(** [videoFile] once its resolution and its name are set. *)
Definition namedVideoFile (f : VideoUploadFile) : VideoFile :=
  let videoFile :=
    if isAudio env (newVideoFile f)
    then set_resolution (DEFAULT_AUDIO_RESOLUTION env) (newVideoFile f)
    else set_resolution (getVideoFileResolution env (path f))
           (set_fps (getVideoFileFPS env (path f)) (newVideoFile f)) in
  set_filename
    (generateVideoFilename env (builtVideo f) false (f_resolution videoFile)
       (f_extname videoFile))
    videoFile.

Definition destination (f : VideoUploadFile) : string :=
  getVideoFilePath env (builtVideo f) (namedVideoFile f).

(** The file object of the request after the move. *)
Definition movedFile (f : VideoUploadFile) : VideoUploadFile :=
  mkUploadFile (destination f) (destination f) (size f) (up_duration f).

(** The row of the video, in the tables [d]. *)
Definition videoRow (d : Db) (f : VideoUploadFile) : Video :=
  set_id (next_id (videos d)) (builtVideo f).

(** The row of the file. *)
Definition fileRow (d : Db) (f : VideoUploadFile) : VideoFile :=
  set_f_id (next_id (files d))
    (set_videoId (id (videoRow d f)) (namedVideoFile f)).

(** [videoCreated], with its file. *)
Definition createdVideo (d : Db) (f : VideoUploadFile) : Video :=
  set_VideoFiles [fileRow d f] (set_VideoChannel videoChannel_id (videoRow d f)).

Definition scheduleRows (videoId : option Z) : list ScheduleVideoUpdate :=
  match vc_scheduleUpdate videoInfo with
  | Videos.ScheduleObject updateAt privacy =>
      [mkSchedule videoId (newDate updateAt) (privacy || VNull)%js]
  | _ => []
  end.

(** The tables [d'] are the tables [d] with the rows of one upload
    more. *)
Definition stored (files : UploadFiles) (f : VideoUploadFile) (d d' : Db)
  : Prop :=
  let video := createdVideo d f in
  videos d' = videos d ++ [videoRow d f]
  /\ thumbnails d'
     = thumbnails d
       ++ [(id video, fst (buildVideoThumbnailsFromReq env (builtVideo f) files));
           (id video, snd (buildVideoThumbnailsFromReq env (builtVideo f) files))]
  /\ Upload.files d' = Upload.files d ++ [fileRow d f]
  /\ videoTags d' = videoTags d ++ [(id video, vc_tags videoInfo)]
  /\ schedules d' = schedules d ++ scheduleRows (id video)
  /\ channelsUpdated d' = channelsUpdated d ++ [videoChannel_id]
  /\ blacklist d'
     = (if autoBlacklisted env video then blacklist d ++ [id video]
        else blacklist d).

(** The upload is committed: its rows are stored, the file is moved and
    the chain of the torrent is started. *)
Definition committed (files : UploadFiles) (w w' : World) : Prop :=
  let f := physicalFile w in
  stored files f (db w) (db w')
  /\ moves w' = moves w ++ [(path f, destination f)]
  /\ physicalFile w' = movedFile f
  /\ detached w' = detached w ++ [(createdVideo (db w) f, fileRow (db w) f)].

End Built.

(** The errors that come after the commit. *)
Definition afterCommit (e : Error) : Prop :=
  e = Failed CAddOptimizeOrMergeAudioJob \/ e = Failed CHook.

(** The errors that come before the file is moved. *)
Definition beforeMove (e : Error) : Prop :=
  e = Failed CGetMetadataFromFile \/ e = Failed CGetVideoFileFPS
  \/ e = Failed CGetVideoFileResolution \/ e = Failed CMove.

(** The meta files deleted are the same. *)
Definition sameMeta (w w' : World) : Prop := metaDeleted w' = metaDeleted w.

(** The same configuration and answers, with other fates for the calls. *)
Definition with_fate (f : Call -> Fate) (env : Env) : Env :=
  mkEnv f (TRANSCODING_ENABLED env) (DEFAULT_AUDIO_RESOLUTION env)
        (buildLocalVideoFromReq env) (getLocalVideoActivityPubUrl env)
        (extname env) (getMetadataFromFile env) (isAudio env)
        (getVideoFileFPS env) (getVideoFileResolution env)
        (generateVideoFilename env) (getVideoFilePath env)
        (buildVideoThumbnailsFromReq env) (autoBlacklisted env).

(** ** Sample requests and environments *)

Definition sampleThumbnails : Videos.Thumbnail * Videos.Thumbnail :=
  (Videos.mkThumbnail Videos.MINIATURE "thumb.jpg",
   Videos.mkThumbnail Videos.PREVIEW "preview.jpg").

(** A server that transcodes; files named [*.mp3] are audio. *)
Definition sampleEnv (fate : Call -> Fate) (transcoding : bool) : Env :=
  mkEnv fate transcoding 0
        (fun info channel =>
           mkVideo None "uuid-9" (vc_name info) PUBLISHED 0 channel None
                   VUndefined [])
        (fun v => VStr (String.append "https://peertube.example/videos/watch/"
                                      (uuid v)))
        (fun name => if String.eqb name "song.mp3" then ".mp3" else ".mp4")
        (fun _ => "{}"%string)
        (fun f => String.eqb (f_extname f) ".mp3")
        (fun _ => 30) (fun _ => 720)
        (fun v _ r ext => String.append (uuid v) ext)
        (fun v f => String.append "/var/videos/"
                      (default ""%string (f_filename f)))
        (fun _ _ => sampleThumbnails)
        (fun _ => false).

Definition allSucceed : Call -> Fate := fun _ => Succeeds.

(** Saving the file row fails. *)
Definition fileSaveFails : Call -> Fate :=
  fun c => match c with CVideoFileSave => Rejects | _ => Succeeds end.

(** The transcoding job cannot be created. *)
Definition jobFails : Call -> Fate :=
  fun c =>
    match c with CAddOptimizeOrMergeAudioJob => Rejects | _ => Succeeds end.

(** Neither the frame rate nor the resolution can be read. *)
Definition probesFail : Call -> Fate :=
  fun c =>
    match c with
    | CGetVideoFileFPS | CGetVideoFileResolution => Rejects
    | _ => Succeeds
    end.

(** The meta file of the resumable upload cannot be deleted. *)
Definition metaDeleteFails : Call -> Fate :=
  fun c =>
    match c with CDeleteResumableUploadMetaFile => Rejects | _ => Succeeds end.

Definition emptyDb : Db := mkDb [] [] [] [] [] [] [].

Definition videoUpload : VideoUploadFile :=
  mkUploadFile "/tmp/upload-7" "clip.mp4" 1000 12.

Definition audioUpload : VideoUploadFile :=
  mkUploadFile "/tmp/upload-8" "song.mp3" 500 180.

Definition worldWith (f : VideoUploadFile) : World :=
  mkWorld emptyDb f [] [] [] [] [].

Definition sampleInfo : VideoCreate :=
  mkVideoCreate (VStr "A clip") (Videos.TagsValue (Some ["clip"%string]))
                (Videos.ScheduleObject (VStr "2031-05-01") VUndefined) None.

Definition noFiles : UploadFiles := mkFiles None None.

End UploadSpec.


(* ===================================================================== *)
(** * Facts about the effect monad                                        *)
(* ===================================================================== *)

Module EffFacts.

(** ** The [||] operator *)

Lemma js_or_truthy a b : truthy a = true -> js_or a b = a.
Proof. unfold js_or. now intros ->. Qed.

Lemma js_or_falsy a b : truthy a = false -> js_or a b = b.
Proof. unfold js_or. now intros ->. Qed.

(** ** Running and inverting calls *)

Section Laws.
Context {S E : Type}.

Lemma call_succeeds_run {A} (e : E) (eff : M S E A) (s : S) :
  call Succeeds e eff s = eff s.
Proof.
  unfold call, invoke, bind, ret, await.
  destruct (eff s) as [[a | e'] s']; reflexivity.
Qed.

Lemma call_fails_run {A} (f : Fate) (e : E) (eff : M S E A) (s : S) :
  f <> Succeeds -> call f e eff s = (Throw e, s).
Proof. destruct f; [congruence | reflexivity | reflexivity]. Qed.

Lemma bind_ok_inv {A B} (m : M S E A) (k : A -> M S E B) s b s' :
  bind m k s = (Ok b, s') ->
  exists a s1, m s = (Ok a, s1) /\ k a s1 = (Ok b, s').
Proof.
  unfold bind. destruct (m s) as [[a | e] s1]; [eauto | discriminate].
Qed.

Lemma call_ok_inv {A} (f : Fate) (e : E) (eff : M S E A) s a s' :
  call f e eff s = (Ok a, s') -> f = Succeeds /\ eff s = (Ok a, s').
Proof.
  destruct f; [| discriminate | discriminate].
  rewrite call_succeeds_run. auto.
Qed.

End Laws.

(** ** Frames: a preorder on states kept by every step is kept by the
    whole computation, whatever its outcome *)

Section Frames.
Context {S E : Type} (R : S -> S -> Prop) `{!PreOrder R}.

Lemma frames_run {A} (m : M S E A) s r s' :
  frames R m -> m s = (r, s') -> R s s'.
Proof. intros Hm Hrun. specialize (Hm s). now rewrite Hrun in Hm. Qed.

Lemma frames_ret {A} (a : A) : frames R (ret a : M S E A).
Proof. intros s. simpl. reflexivity. Qed.

Lemma frames_throw {A} (e : E) : frames R (throw e : M S E A).
Proof. intros s. simpl. reflexivity. Qed.

Lemma frames_gets {A} (f : S -> A) : frames R (gets f : M S E A).
Proof. intros s. simpl. reflexivity. Qed.

Lemma frames_modify (f : S -> S) :
  (forall s, R s (f s)) -> frames R (modify f : M S E unit).
Proof. intros H s. apply H. Qed.

Lemma frames_bind {A B} (m : M S E A) (k : A -> M S E B) :
  frames R m -> (forall a, frames R (k a)) -> frames R (bind m k).
Proof.
  intros Hm Hk s. unfold bind. specialize (Hm s).
  destruct (m s) as [[a | e] s1]; simpl in *; [| exact Hm].
  etransitivity; [exact Hm | apply Hk].
Qed.

Lemma frames_try_catch {A} (m : M S E A) (h : E -> M S E A) :
  frames R m -> (forall e, frames R (h e)) -> frames R (try_catch m h).
Proof.
  intros Hm Hh s. unfold try_catch. specialize (Hm s).
  destruct (m s) as [[a | e] s1]; simpl in *; [exact Hm |].
  etransitivity; [exact Hm | apply Hh].
Qed.

Lemma frames_await {A} (p : Promise E A) : frames R (await p : M S E A).
Proof. destruct p; [apply frames_ret | apply frames_throw]. Qed.

Lemma frames_invoke {A} f (e : E) (eff : M S E A) :
  frames R eff -> frames R (invoke f e eff).
Proof.
  intros H. destruct f; simpl.
  - apply frames_bind; [exact H | intros a; apply frames_ret].
  - apply frames_throw.
  - apply frames_ret.
Qed.

Lemma frames_call {A} f (e : E) (eff : M S E A) :
  frames R eff -> frames R (call f e eff).
Proof.
  intros H. apply frames_bind; [now apply frames_invoke |].
  intros p. apply frames_await.
Qed.

Lemma frames_transaction {D A} (snap : S -> D) (restore : D -> S -> S)
    (body : M S E A) :
  frames R body ->
  (forall s s', R s s' -> R s (restore (snap s) s')) ->
  frames R (transaction snap restore body).
Proof.
  intros Hb Hr s. unfold transaction. specialize (Hb s).
  destruct (body s) as [[a | e] s1]; simpl in *; [exact Hb |].
  now apply Hr.
Qed.

End Frames.

Ltac eff_red :=
  cbv [call invoke bind await ret throw try_catch modify gets transaction].

Ltac inv_bind H a s Hs :=
  apply bind_ok_inv in H; destruct H as (a & s & Hs & H).

Ltac frames_step :=
  match goal with
  | |- frames _ (bind _ _) => refine (frames_bind _ _ _ _ _); [| intros ?]
  | |- frames _ (ret _) => refine (frames_ret _ _)
  | |- frames _ (throw _) => refine (frames_throw _ _)
  | |- frames _ (gets _) => refine (frames_gets _ _)
  | |- frames _ (await _) => refine (frames_await _ _)
  | |- frames _ (call _ _ _) => refine (frames_call _ _ _ _ _)
  | |- frames _ (invoke _ _ _) => refine (frames_invoke _ _ _ _ _)
  | |- frames _ (try_catch _ _) =>
      refine (frames_try_catch _ _ _ _ _); [| intros ?]
  | |- frames _ (modify _) => refine (frames_modify _ _ _); intros ?
  | |- frames _ (match ?x with _ => _ end) => destruct x
  end.

End EffFacts.

(* ===================================================================== *)
(** * Theorems about videos/import.ts                                     *)
(* ===================================================================== *)

Module ImportsProofs.
Import Imports ImportsSpec EffFacts.

(** ** [buildVideo] *)

(** C9 (as amended). Each of name, category, licence, language, nsfw and
    description of the built descriptor is the request's value when that
    value is truthy, else the extractor's value when truthy, else the hard
    default: a request value of [false], [0] or [''] counts as absent. The
    fields the extractor has no say in take the request's value when truthy
    and their default otherwise; [commentsEnabled] and [downloadEnabled] are
    off only when the request says [false]. *)
Theorem buildVideo_truthy_precedence :
  forall env channelId body importData,
    let video := buildVideo env channelId body importData in
    (forall f,
       built f video =
         if truthy (requested f body) then requested f body
         else if truthy (extracted f importData) then extracted f importData
         else hardDefault f (extracted f importData))
    /\ VideoData.originallyPublishedAt video
       = (if truthy (Body.originallyPublishedAt body)
          then newDate (Body.originallyPublishedAt body)
          else Info.originallyPublishedAt importData)
    /\ VideoData.waitTranscoding video
       = (if truthy (Body.waitTranscoding body)
          then Body.waitTranscoding body else VBool false)
    /\ VideoData.support video
       = (if truthy (Body.support body) then Body.support body else VNull)
    /\ VideoData.privacy video
       = (if truthy (Body.privacy body)
          then Body.privacy body else VNum (PRIVATE env))
    /\ VideoData.commentsEnabled video
       = negb (bool_decide (Body.commentsEnabled body = VBool false))
    /\ VideoData.downloadEnabled video
       = negb (bool_decide (Body.downloadEnabled body = VBool false)).
Proof.
  intros env channelId body importData. cbv zeta.
  split; [| repeat split].
  intros f.
  destruct f; simpl; unfold js_or;
    repeat match goal with
           | |- context [truthy ?x] => destruct (truthy x) eqn:?
           end; try reflexivity; try congruence.
Qed.

(** C9, counterexample. The request says [nsfw: false], the extractor says
    [nsfw: true]: the descriptor is built with [nsfw: true]. *)
Lemma buildVideo_explicit_false_overridden :
  requested FNsfw nsfwFalseBody = VBool false
  /\ requested FNsfw nsfwFalseBody <> VUndefined
  /\ extracted FNsfw sampleInfo = VBool true
  /\ built FNsfw (buildVideo (sampleEnv allSucceed) 7 nsfwFalseBody sampleInfo)
     = VBool true
  /\ built FNsfw (buildVideo (sampleEnv allSucceed) 7 nsfwFalseBody sampleInfo)
     <> requested FNsfw nsfwFalseBody.
Proof. repeat split; try reflexivity; discriminate. Qed.

(** ** [addVideoImport] *)

(** C4 (as amended). [addVideoImport] rejects nothing. It acts on one
    source, the remote URL before the torrent file before the magnet URI,
    and runs as it would on the request naming that source alone; a request
    naming no source gets no answer and leaves the state as it was. *)
Theorem addVideoImport_selects_one_source :
  forall env req res w,
    addVideoImport env req res w
    = addVideoImport env (onlySelectedSource req) res w
    /\ (namedSources (onlySelectedSource req) <= 1)%nat
    /\ (namedSources req = 0%nat ->
        addVideoImport env req res w = (Ok None, w)).
Proof.
  intros env [b th pv tf] res w.
  unfold addVideoImport, onlySelectedSource, selectedSource, namedSources.
  simpl.
  destruct (truthy (Body.targetUrl b)) eqn:Hurl; simpl; rewrite ?Hurl; simpl.
  - repeat split; [lia | discriminate].
  - destruct tf as [f |]; simpl; rewrite ?Hurl; simpl.
    + rewrite orb_true_r. repeat split; [lia | discriminate].
    + destruct (truthy (Body.magnetUri b)) eqn:Hmag; simpl;
        rewrite ?Hurl, ?Hmag; simpl; repeat split; (lia || discriminate).
Qed.

(** C4, counterexample. A request naming both a remote URL and a magnet
    URI is answered with the created import; a descriptor and a job
    exist afterwards. A request naming no source is not answered at all. *)
Lemma addVideoImport_two_sources_accepted :
  let req := mkRequest urlAndMagnetBody None None None in
  let run := addVideoImport (sampleEnv allSucceed) req someLocals emptyWorld in
  namedSources req = 2%nat
  /\ (exists i, fst run = Ok (Some (mkResponse OK_200 (JsonImport i))))
  /\ length (videos (db (snd run))) = 1%nat
  /\ jobs (snd run) = [PayloadYoutubeDL 1 ".webm"]
  /\ addVideoImport (sampleEnv allSucceed) (mkRequest emptyBody None None None)
       someLocals emptyWorld
     = (Ok None, emptyWorld).
Proof.
  repeat split; try reflexivity.
  eexists. vm_compute. reflexivity.
Qed.

(** ** [addTorrentImport] *)

(** C5. When the torrent file was moved and parsed and its container does
    not describe exactly one file, the import is answered with status 400
    and the code [INCORRECT_FILES_IN_TORRENT]; no table is written and no
    job is created. *)
Theorem addTorrentImport_incorrect_files :
  forall env req res f w,
    fate env CMove = Succeeds ->
    fate env CReadFile = Succeeds ->
    fate env CParseTorrent = Succeeds ->
    length (pt_files (parseTorrent env
              (join (TORRENTS_DIR env)
                    (getSecureTorrentName env (originalname f))))) <> 1%nat ->
    let rejected :=
      mkResponse BAD_REQUEST_400
        (JsonError (Some INCORRECT_FILES_IN_TORRENT)
           "Torrents with only 1 file are supported.") in
    exists w',
      addTorrentImport env req res (Some f) w = (Ok rejected, w')
      /\ db w' = db w
      /\ jobs w' = jobs w
      /\ log w' = log w
      /\ (truthy (Body.targetUrl (body req)) = false ->
          torrentfile req = Some f ->
          addVideoImport env req res w = (Ok (Some rejected), w')).
Proof.
  intros env req res f w Hmove Hread Hparse Hcount. cbv zeta.
  apply Nat.eqb_neq in Hcount.
  assert (Hrun :
    addTorrentImport env req res (Some f) w
    = (Ok (mkResponse BAD_REQUEST_400
             (JsonError (Some INCORRECT_FILES_IN_TORRENT)
                "Torrents with only 1 file are supported.")),
       add_fs FsCleanUpReqFiles
         (add_fs (FsMove (path f)
                    (join (TORRENTS_DIR env)
                          (getSecureTorrentName env (originalname f)))) w))).
  { unfold addTorrentImport, awaitCall.
    rewrite Hmove, Hread, Hparse. eff_red. rewrite Hcount. reflexivity. }
  eexists. split; [exact Hrun |]. repeat split.
  intros Hurl Hfile. unfold addVideoImport.
  rewrite Hurl, Hfile, orb_true_r. unfold bind. rewrite Hrun. reflexivity.
Qed.

(** ** Thumbnails fetched from the extractor's URL *)

Lemma processThumbnailFromUrl_rejection_escapes :
  forall env url video w,
    fate env (CMiniatureFromUrl MINIATURE) = Rejects ->
    processThumbnailFromUrl env url video w
    = (Throw (Failed (CMiniatureFromUrl MINIATURE)), w).
Proof.
  intros env url video w H.
  unfold processThumbnailFromUrl, createVideoMiniatureFromUrl.
  rewrite H. reflexivity.
Qed.

Lemma processThumbnailFromUrl_sync_throw_caught :
  forall env url video w,
    fate env (CMiniatureFromUrl MINIATURE) = ThrowsSync ->
    processThumbnailFromUrl env url video w
    = (Ok None,
       add_log (mkLog LWarn "Cannot generate video thumbnail %s for %s.") w).
Proof.
  intros env url video w H.
  unfold processThumbnailFromUrl, createVideoMiniatureFromUrl.
  rewrite H. reflexivity.
Qed.

(** C3, the failing run. No thumbnail file is uploaded, the extractor gives
    a thumbnail URL and the download fails, the promise of
    [createVideoMiniatureFromUrl] rejecting: the rejection leaves
    [processThumbnailFromUrl] uncaught and [addYoutubeDLImport] throws
    before anything is logged, stored or queued. *)
Theorem addYoutubeDLImport_thumbnail_rejection_aborts :
  let req := mkRequest urlBody None None None in
  thumbnailfile req = None
  /\ truthy (Info.thumbnailUrl (youtubeDLInfo (sampleEnv thumbnailDownloadFails)))
     = true
  /\ fate (sampleEnv thumbnailDownloadFails) (CMiniatureFromUrl MINIATURE)
     = Rejects
  /\ addYoutubeDLImport (sampleEnv thumbnailDownloadFails) req someLocals
       emptyWorld
     = (Throw (Failed (CMiniatureFromUrl MINIATURE)), emptyWorld).
Proof. repeat split. Qed.

(** ** Subtitles *)

Lemma importSubtitles_run env videoId subs :
  forall w,
  exists r w',
    importSubtitles env videoId subs w = (r, w')
    /\ db w' = insert_captions
                 (map (captionOf env videoId) (takeUntilFailure env subs))
                 (db w)
    /\ jobs w' = jobs w
    /\ log w' = log w
    /\ (r = Ok tt <-> forallb (subtitleSucceeds env) subs = true).
Proof.
  induction subs as [| s rest IH]; intros w.
  - exists (Ok tt), w. simpl. tauto.
  - simpl. unfold awaitCall, inTransaction, subtitleSucceeds.
    destruct (fate env (CMoveAndProcessCaptionFile (sub_language s))) eqn:Hm;
      destruct (fate env (CInsertOrReplaceLanguage (sub_language s))) eqn:Hi;
      eff_red; simpl;
      try (eexists; eexists; split; [reflexivity |];
           simpl; repeat split; intros; discriminate).
    match goal with
    | |- context [importSubtitles env videoId rest ?w1] =>
        destruct (IH w1) as (r & w' & Hrun & Hdb & Hjobs & Hlog & Hr)
    end.
    rewrite Hrun. exists r, w'. split; [destruct r; reflexivity |].
    rewrite Hdb, Hjobs, Hlog. simpl. repeat split; apply Hr.
Qed.

Lemma insert_captions_tables cs : forall d,
  videos (insert_captions cs d) = videos d
  /\ videoImports (insert_captions cs d) = videoImports d.
Proof.
  unfold insert_captions.
  induction cs as [| c cs IH]; intros d; simpl; [tauto |].
  destruct (IH (insert_caption c d)) as [-> ->]. tauto.
Qed.

Lemma insert_captions_captions cs : forall d d',
  captions d = captions d' ->
  captions (insert_captions cs d) = captions (insert_captions cs d').
Proof.
  unfold insert_captions.
  induction cs as [| c cs IH]; intros d d' Heq; simpl; [exact Heq |].
  apply IH. simpl. now rewrite Heq.
Qed.

(** C1 (as amended). When every collaborator but the subtitle ones does
    its work, a remote-URL import is answered with the created import,
    whose record and job exist afterwards, whatever happens to the
    subtitles. The captions inserted are those of the subtitles before the
    first one that fails (none when the list cannot be fetched): a failure
    stops the loop, and it is logged as a warning. *)
Theorem addYoutubeDLImport_subtitles_best_effort :
  forall env req res w,
    (forall c, isSubtitleCall c = false -> fate env c = Succeeds) ->
    exists videoImport w',
      addYoutubeDLImport env req res w
      = (Ok (mkResponse OK_200 (JsonImport videoImport)), w')
      /\ In videoImport (videoImports (db w'))
      /\ jobs w' = jobs w ++ [PayloadYoutubeDL (vi_id videoImport)
                                (fileExt (Info.ext (youtubeDLInfo env)))]
      /\ captions (db w')
         = captions (insert_captions
                       (map (captionOf env (vi_videoId videoImport))
                            (importedSubtitles env))
                       (db w))
      /\ (subtitlesAllSucceed env = false ->
          In (mkLog LWarn "Cannot get video subtitles.") (log w')).
Proof.
  intros env req res w H.
  pose proof (H CGetYoutubeDLInfo eq_refl) as H1.
  pose proof (H (CMiniatureFromExisting MINIATURE) eq_refl) as H2.
  pose proof (H (CMiniatureFromExisting PREVIEW) eq_refl) as H3.
  pose proof (H (CMiniatureFromUrl MINIATURE) eq_refl) as H4.
  pose proof (H (CMiniatureFromUrl PREVIEW) eq_refl) as H5.
  pose proof (H CVideoSave eq_refl) as H6.
  pose proof (H (CAddAndSaveThumbnail MINIATURE) eq_refl) as H7.
  pose proof (H (CAddAndSaveThumbnail PREVIEW) eq_refl) as H8.
  pose proof (H CAutoBlacklist eq_refl) as H9.
  pose proof (H CSetVideoTags eq_refl) as H10.
  pose proof (H CVideoImportCreate eq_refl) as H11.
  pose proof (H CCreateJob eq_refl) as H12.
  unfold addYoutubeDLImport, processThumbnail, processPreview,
    processThumbnailFromUrl, processPreviewFromUrl,
    createVideoMiniatureFromUrl, insertIntoDB, addAndSaveThumbnail,
    createImportJob, logger, awaitCall, inTransaction,
    importedSubtitles, subtitlesAllSucceed.
  rewrite H1.
  destruct (thumbnailfile req) as [tf |], (previewfile req) as [pf |],
    (truthy (Info.thumbnailUrl (youtubeDLInfo env))) eqn:Hurl;
    do 3 (rewrite ?Hurl, ?H2, ?H3, ?H4, ?H5, ?H6, ?H7, ?H8, ?H9, ?H10, ?H11, ?H12;
          eff_red; simpl).
  all: destruct (fate env CGetYoutubeDLSubs) eqn:Hsubs; simpl.
  all: try (eexists; eexists; split; [reflexivity |]; simpl;
            repeat split; intros; rewrite ?in_app_iff; simpl; tauto).
  all: match goal with
       | |- context [importSubtitles ?e ?vid ?subs ?w1] =>
           destruct (importSubtitles_run e vid subs w1)
             as (r & w3 & Hrun & Hdb & Hjobs & Hlog & Hr);
           rewrite Hrun
       end.
  all: destruct r as [[] | e];
    (eexists; eexists; split; [reflexivity |]); simpl;
    rewrite Hdb, Hjobs, Hlog;
    rewrite (proj2 (insert_captions_tables _ _));
    match goal with w0 : World |- _ => rewrite (insert_captions_captions _ _ (db w0)) by reflexivity end;
    simpl; repeat split; intros; rewrite ?in_app_iff; simpl; try tauto.
  all: match goal with
       | Hr : _ <-> ?b = true, Hf : ?b = false |- _ =>
           destruct Hr as [Hr _]; rewrite Hr in Hf by reflexivity;
           discriminate
       end.
Qed.

(** ** Sample runs *)

(** C1, counterexample. The extractor finds an English and a French
    subtitle; moving the English one fails while both steps of the French
    one would go through. The French subtitle is not imported: no caption
    is inserted at all. *)
Lemma subtitle_failure_skips_the_rest :
  let env := sampleEnv englishSubtitleFails in
  let run :=
    addYoutubeDLImport env (mkRequest urlBody None None None) someLocals
      emptyWorld in
  youtubeDLSubs env = [english; french]
  /\ subtitleSucceeds env english = false
  /\ subtitleSucceeds env french = true
  /\ captions (db (snd run)) = []
  /\ ~ In (captionOf env 1 french) (captions (db (snd run)))
  /\ In (mkLog LWarn "Cannot get video subtitles.") (log (snd run)).
Proof.
  cbv zeta. repeat split; try reflexivity.
  - vm_compute. intros [].
  - vm_compute. tauto.
Qed.

(** The import where moving the English subtitle fails. *)
Lemma addYoutubeDLImport_subtitles_best_effort_witness :
  let env := sampleEnv englishSubtitleFails in
  exists videoImport w',
    addYoutubeDLImport env (mkRequest urlBody None None None) someLocals
      emptyWorld
    = (Ok (mkResponse OK_200 (JsonImport videoImport)), w')
    /\ In videoImport (videoImports (db w'))
    /\ jobs w' = jobs emptyWorld
                 ++ [PayloadYoutubeDL (vi_id videoImport)
                       (fileExt (Info.ext (youtubeDLInfo env)))]
    /\ captions (db w')
       = captions (insert_captions
                     (map (captionOf env (vi_videoId videoImport))
                          (importedSubtitles env))
                     (db emptyWorld))
    /\ (subtitlesAllSucceed env = false ->
        In (mkLog LWarn "Cannot get video subtitles.") (log w')).
Proof.
  cbv zeta.
  apply (addYoutubeDLImport_subtitles_best_effort
           (sampleEnv englishSubtitleFails)
           (mkRequest urlBody None None None) someLocals emptyWorld).
  intros c Hc. destruct c; try reflexivity; discriminate Hc.
Defined.

(** A request naming the three sources at once, and one naming none. *)
Lemma addVideoImport_selects_one_source_witness :
  let env := sampleEnv allSucceed in
  let both := mkRequest urlAndMagnetBody None None (Some torrentUpload) in
  let none := mkRequest emptyBody None None None in
  addVideoImport env both someLocals emptyWorld
  = addVideoImport env (mkRequest urlBody None None None) someLocals emptyWorld
  /\ addVideoImport env none someLocals emptyWorld = (Ok None, emptyWorld).
Proof.
  cbv zeta. split.
  - exact (proj1 (addVideoImport_selects_one_source (sampleEnv allSucceed)
                    (mkRequest urlAndMagnetBody None None (Some torrentUpload))
                    someLocals emptyWorld)).
  - apply (proj2 (proj2 (addVideoImport_selects_one_source
                           (sampleEnv allSucceed)
                           (mkRequest emptyBody None None None)
                           someLocals emptyWorld))).
    reflexivity.
Defined.

(** The upload of a torrent describing two files. *)
Lemma addTorrentImport_incorrect_files_witness :
  let env := sampleEnv allSucceed in
  let req := mkRequest emptyBody None None (Some torrentUpload) in
  let rejected :=
    mkResponse BAD_REQUEST_400
      (JsonError (Some INCORRECT_FILES_IN_TORRENT)
         "Torrents with only 1 file are supported.") in
  exists w',
    addTorrentImport env req someLocals (Some torrentUpload) emptyWorld
    = (Ok rejected, w')
    /\ db w' = db emptyWorld
    /\ jobs w' = jobs emptyWorld
    /\ log w' = log emptyWorld
    /\ (truthy (Body.targetUrl (body req)) = false ->
        torrentfile req = Some torrentUpload ->
        addVideoImport env req someLocals emptyWorld = (Ok (Some rejected), w')).
Proof.
  cbv zeta.
  apply (addTorrentImport_incorrect_files (sampleEnv allSucceed)
           (mkRequest emptyBody None None (Some torrentUpload)) someLocals
           torrentUpload emptyWorld).
  - reflexivity.
  - reflexivity.
  - reflexivity.
  - vm_compute. lia.
Defined.

End ImportsProofs.

(* ===================================================================== *)
(** * Theorems about videos/index.ts                                      *)
(* ===================================================================== *)

Module VideosProofs.
Import Videos VideosSpec EffFacts.

(** ** Preorders *)

Lemma appends_refl ok w : appends ok w w.
Proof. exists []. now rewrite app_nil_r. Qed.

Lemma appends_trans ok a b c : appends ok a b -> appends ok b c -> appends ok a c.
Proof.
  intros (t1 & H1 & F1) (t2 & H2 & F2). exists (t1 ++ t2). split.
  - now rewrite H2, H1, app_assoc.
  - rewrite forallb_app, F1, F2. reflexivity.
Qed.

#[local] Instance appends_preorder ok : PreOrder (appends ok).
Proof. split; [intros w; apply appends_refl | intros a b c; apply appends_trans]. Qed.

#[local] Instance vodUntouched_preorder : PreOrder vodUntouched.
Proof.
  split.
  - intros w. split; [reflexivity | apply appends_refl].
  - intros a b c [H1 A1] [H2 A2]. split; [congruence | eapply appends_trans; eauto].
Qed.

Lemma appends_event ok e w : ok e = true -> appends ok w (add_event e w).
Proof. intros H. exists [e]. simpl. now rewrite H. Qed.

Lemma frames_awaitAll (R : World -> World -> Prop) `{!PreOrder R} ps :
  frames R (awaitAll ps).
Proof.
  induction ps as [| p ps IH]; simpl.
  - frames_step.
  - frames_step; [frames_step | exact IH].
Qed.

Ltac solve_appends :=
  first
    [ apply appends_refl
    | apply appends_event; reflexivity
    | exists []; split; [simpl; symmetry; apply app_nil_r | reflexivity] ].

Ltac solve_trace :=
  unfold appends; simpl;
  first
    [ exists []; rewrite app_nil_r; split; reflexivity
    | eexists; split; [rewrite <- ?app_assoc; reflexivity | reflexivity] ].

Ltac frames_go :=
  repeat first
    [ match goal with
      | |- frames _ (awaitAll _) => refine (frames_awaitAll _ _)
      | |- frames _ (transaction _ _ _) =>
          refine (frames_transaction _ _ _ _ _ _)
      end
    | frames_step ].

(** ** [viewVideo] *)

(** C2 (as amended). A view of a live video never increments the VOD
    counter and never calls [addVideoView]; when the live video is owned by
    this server the view is not sent to the federation either. *)
Theorem viewVideo_live_skips_vod_counter :
  forall env ip vid uuid w video,
    videos (db w) !! vid = Some video ->
    isLive video = true ->
    let w' := snd (viewVideo env ip vid uuid w) in
    vodUntouched w w'
    /\ (owned video = true -> appends not_SendView w w').
Proof.
  intros env ip vid uuid w video Hload Hlive. cbv zeta.
  pose (Q := fun w' => vodUntouched w w'
                       /\ (owned video = true -> appends not_SendView w w')).
  change (Q (snd (viewVideo env ip vid uuid w))).
  assert (Hstay : Q w).
  { split; [reflexivity | intros _; reflexivity]. }
  unfold viewVideo, awaitCall.
  unfold bind at 1.
  destruct (fate env CDoesVideoIPViewExist) eqn:F1;
    [rewrite call_succeeds_run | rewrite call_fails_run by discriminate ..];
    try unfold gets at 1; cbv beta iota; try exact Hstay.
  match goal with
  | |- context [@bool_decide ?P ?d] => destruct (@bool_decide P d)
  end.
  { unfold emit. eff_red. cbn [snd]. unfold Q.
    split; [split; [reflexivity |] | intros _];
      solve_appends. }
  unfold bind at 1.
  destruct (fate env CLoadVideo) eqn:F2;
    [rewrite call_succeeds_run | rewrite call_fails_run by discriminate ..];
    try unfold gets at 1; cbv beta iota; try exact Hstay.
  rewrite Hload. cbv beta iota. rewrite Hlive. cbn [andb negb].
  unfold Q. clear Q Hstay.
  split.
  - match goal with
    | |- vodUntouched ?w0 (snd (?m ?w0)) =>
        enough (frames vodUntouched m) as Hf by exact (Hf w0)
    end.
    unfold emit.
    frames_go.
    all: split; [reflexivity | solve_appends].
  - intros Hown. rewrite Hown. unfold emit.
    destruct (fate env CSetIPVideoView), (fate env CLiveAddViewTo),
      (fate env CHook); eff_red; simpl; solve_trace.
Qed.

(** ** [createTorrentAndSetInfoHashAsync] *)

Lemma createTorrentDetached_never_throws :
  forall env video videoFile w,
    fst (createTorrentDetached env video videoFile w) = Ok tt.
Proof.
  intros env video videoFile w. unfold createTorrentDetached, try_catch.
  destruct (createTorrentAndSetInfoHashAsync env video videoFile w)
    as [[[] | e] s]; reflexivity.
Qed.

(** C8. Once the torrent is created and the file record reloaded by id:
    if the record is gone, no table is written, the torrent just created is
    removed when the removal goes through, the function then returns
    normally, and the chain [addVideo] starts never throws; if the record
    is there, what is saved is the reloaded record with the new info-hash
    and torrent filename, every other field coming from the reloaded
    record and not from [fileArg]. *)
Theorem createTorrent_reload_guard :
  forall env video fileArg w,
    fate env CCreateTorrent = Succeeds ->
    fate env CLoadFileWithVideo = Succeeds ->
    let hash := fst (createdTorrent env video fileArg) in
    let filename := snd (createdTorrent env video fileArg) in
    let run := createTorrentAndSetInfoHashAsync env video fileArg w in
    match concurrent env (files (db w)) !! f_id fileArg with
    | None =>
        db (snd run) = upd_files (concurrent env) (db w)
        /\ fst (createTorrentDetached env video fileArg w) = Ok tt
        /\ (fate env CRemoveTorrent = Succeeds ->
            fst run = Ok tt
            /\ (filename ∉ torrents (snd run))
            /\ trace (snd run)
               = trace w ++ [EvCreateTorrent (f_id fileArg);
                             EvRemoveTorrent (f_id fileArg)])
    | Some refreshedFile =>
        fate env CSaveFile = Succeeds ->
        let saved := set_torrent (VStr hash) (VStr filename) refreshedFile in
        fst run = Ok tt
        /\ files (db (snd run))
           = <[f_id refreshedFile := saved]> (concurrent env (files (db w)))
        /\ trace (snd run)
           = trace w ++ [EvCreateTorrent (f_id fileArg); EvSaveFile saved]
    end.
Proof.
  intros env video fileArg w Hcreate Hload. cbv zeta.
  pose proof (createTorrentDetached_never_throws env video fileArg w) as Hdet.
  unfold createTorrentAndSetInfoHashAsync, createTorrentAndSetInfoHash,
    removeTorrent, awaitCall, emit.
  rewrite Hcreate, Hload.
  destruct (createdTorrent env video fileArg) as [hash filename].
  eff_red. simpl.
  destruct (concurrent env (files (db w)) !! f_id fileArg) as [fresh |] eqn:Hre.
  - intros Hsave. rewrite Hsave. simpl. rewrite <- app_assoc. auto.
  - split; [| split; [exact Hdet |]].
    + destruct (fate env CRemoveTorrent); reflexivity.
    + intros Hrm. rewrite Hrm. simpl. rewrite <- app_assoc.
      repeat split.
      intros [_ Hn]%elem_of_difference. apply Hn. now apply elem_of_singleton.
Qed.

(** ** [updateVideo]: failure *)

Lemma immutables_setters x z v :
  immutables (set_name x v) = immutables v
  /\ immutables (set_category x v) = immutables v
  /\ immutables (set_licence x v) = immutables v
  /\ immutables (set_language x v) = immutables v
  /\ immutables (set_nsfw x v) = immutables v
  /\ immutables (set_waitTranscoding x v) = immutables v
  /\ immutables (set_support x v) = immutables v
  /\ immutables (set_description x v) = immutables v
  /\ immutables (set_commentsEnabled x v) = immutables v
  /\ immutables (set_downloadEnabled x v) = immutables v
  /\ immutables (set_originallyPublishedAt x v) = immutables v
  /\ immutables (set_privacy z v) = immutables v
  /\ immutables (set_channelId z v) = immutables v
  /\ immutables (set_VideoChannel z v) = immutables v.
Proof. destruct v. repeat split. Qed.

Lemma immutables_assignIfDefined x set v :
  (forall y u, immutables (set y u) = immutables u) ->
  immutables (assignIfDefined x set v) = immutables v.
Proof. intros H. unfold assignIfDefined. destruct (strict_neq _ _); auto. Qed.

Lemma immutables_assignFields p v :
  immutables (assignFields p v) = immutables v.
Proof.
  unfold assignFields. cbv zeta.
  match goal with |- context [if ?b then _ else _] => destruct b end.
  1: rewrite (proj1 (proj2 (proj2 (proj2 (proj2 (proj2 (proj2 (proj2 (proj2
       (proj2 (proj2 (immutables_setters _ 0 _)))))))))))).
  all: repeat (rewrite immutables_assignIfDefined;
               [| intros y u; destruct u; reflexivity]);
    reflexivity.
Qed.

Lemma resetFields_restores saved instance :
  immutables instance = immutables saved ->
  resetFields saved instance = saved.
Proof.
  destruct saved, instance. unfold immutables. cbn [id uuid isLive owned].
  intros [= -> -> -> ->]. reflexivity.
Qed.

#[local] Instance sameImmutables_preorder : PreOrder sameImmutables.
Proof.
  split.
  - intros w. unfold sameImmutables. exact eq_refl.
  - intros a b c H1 H2. unfold sameImmutables in *. congruence.
Qed.

Ltac unfold_update :=
  unfold updateVideoTry, inTransaction, updateVideoTransaction, updatePrivacy,
    saveVideo, addAndSaveThumbnail, updateTags, updateChannel,
    updateSchedule, finishUpdate, resetSequelizeInstance, awaitCall, emit.

Lemma updateVideoTry_sameImmutables env p ch wasC had th pv :
  frames sameImmutables (updateVideoTry env p ch wasC had th pv).
Proof.
  unfold_update.
  frames_go.
  all: try (unfold sameImmutables; simpl;
            first [ reflexivity
                  | apply immutables_assignFields
                  | match goal with
                    | |- context [videoInstance ?s] =>
                        destruct (videoInstance s); reflexivity
                    end ]).
  intros s s' H. exact H.
Qed.

Lemma inTransaction_sameImmutables env p ch had th pv :
  frames sameImmutables
    (inTransaction (updateVideoTransaction env p ch had th pv)).
Proof.
  unfold_update.
  frames_go.
  all: try (unfold sameImmutables; simpl;
            first [ reflexivity
                  | apply immutables_assignFields
                  | match goal with
                    | |- context [videoInstance ?s] =>
                        destruct (videoInstance s); reflexivity
                    end ]).
  intros s s' H. exact H.
Qed.

Lemma inTransaction_throw_db {A} (body : M A) w e w1 :
  inTransaction body w = (Throw e, w1) -> db w1 = db w.
Proof.
  unfold inTransaction, emit. eff_red.
  destruct (body (add_event EvTransactionBegin w)) as [[a | e'] s]; simpl;
    intros [= <- <-]; reflexivity.
Qed.

(** C6. When the transaction of [updateVideo] throws, at whatever point,
    [updateVideo] throws the same error after resetting the instance: the
    state it leaves is the one the failed transaction left, with every
    field of the instance back to the snapshot taken before the update and
    the reset as last event. The tables are those of before the attempt,
    so that a retry starts from the original values. *)
Theorem updateVideo_failure_restores_snapshot :
  forall env videoInfoToUpdate channel w e w1,
    fate env CBuildVideoThumbnails = Succeeds ->
    inTransaction
      (updateVideoTransaction env videoInfoToUpdate channel
         (hasPrivacyForFederation env (videoInstance w))
         (fst (builtThumbnails env)) (snd (builtThumbnails env))) w
    = (Throw e, w1) ->
    updateVideo env videoInfoToUpdate channel w
    = (Throw e,
       add_event EvResetSequelizeInstance
         (set_videoInstance (toJSON (videoInstance w)) w1))
    /\ db w1 = db w.
Proof.
  intros env p ch w e w1 Hth Htx.
  split; [| exact (inTransaction_throw_db _ _ _ _ Htx)].
  pose proof (frames_run _ _ _ _ _ (inTransaction_sameImmutables _ _ _ _ _ _) Htx)
    as Him.
  unfold updateVideo, awaitCall. rewrite Hth.
  unfold bind at 1, gets at 1. cbv beta iota.
  unfold bind at 1. rewrite call_succeeds_run. unfold ret at 1. cbv beta iota.
  destruct (builtThumbnails env) as [th pv]. cbn [fst snd] in Htx.
  unfold bind at 1, try_catch at 1, updateVideoTry. unfold bind at 1.
  rewrite Htx. cbv beta iota.
  unfold resetSequelizeInstance, emit. eff_red.
  unfold upd_videoInstance, toJSON.
  rewrite resetFields_restores by exact Him. reflexivity.
Qed.

(** ** [updateVideo]: the blocks of the transaction *)

#[local] Instance keeps_preorder : PreOrder keeps.
Proof.
  split.
  - intros w. unfold keeps. repeat split. exists []. now rewrite app_nil_r.
  - intros a b c (I1 & V1 & S1 & t1 & T1) (I2 & V2 & S2 & t2 & T2).
    unfold keeps. repeat split; try congruence.
    exists (t1 ++ t2). now rewrite T2, T1, app_assoc.
Qed.

Ltac solve_keeps :=
  unfold keeps; simpl; repeat split;
  first [ exists []; symmetry; apply app_nil_r | eexists; reflexivity ].

Lemma addAndSaveThumbnail_keeps env model :
  frames keeps (addAndSaveThumbnail env model).
Proof. unfold addAndSaveThumbnail, awaitCall, emit. frames_go. all: solve_keeps. Qed.

Lemma updateTags_keeps env p : frames keeps (updateTags env p).
Proof. unfold updateTags, awaitCall, emit. frames_go. all: solve_keeps. Qed.

Lemma finishUpdate_keeps env isNew : frames keeps (finishUpdate env isNew).
Proof. unfold finishUpdate, awaitCall, emit. frames_go. all: solve_keeps. Qed.

Lemma inTransaction_ok_inv {A} (body : M A) w a w' :
  inTransaction body w = (Ok a, w') ->
  exists s,
    body (add_event EvTransactionBegin w) = (Ok a, s)
    /\ w' = add_event EvTransactionCommit s.
Proof.
  unfold inTransaction, emit. eff_red.
  destruct (body (add_event EvTransactionBegin w)) as [[a' | e'] s]; simpl;
    [| discriminate].
  intros [= <- <-]. eauto.
Qed.

Lemma privacy_set_privacy n v : privacy (set_privacy n v) = n.
Proof. now destruct v. Qed.

Lemma updatePrivacy_ok env p had w b w' :
  updatePrivacy env p had w = (Ok b, w') ->
  videoInstance w' = withPrivacy p (videoInstance w)
  /\ db w' = db w
  /\ trace w'
     = trace w ++
       (if match Patch.privacy p with
           | Some privacy =>
               had && negb (isPrivacyForFederation env
                              (parseInt_toString privacy))
           | None => false
           end
        then [EvSendDelete (videoInstance w')] else []).
Proof.
  unfold updatePrivacy, withPrivacy, awaitCall, emit, hasPrivacyForFederation,
    setPrivacy.
  destruct (Patch.privacy p) as [privacy |].
  - eff_red. simpl. rewrite privacy_set_privacy.
    destruct (had && negb (isPrivacyForFederation env (parseInt_toString privacy))).
    + destruct (fate env CSendDelete); simpl; try discriminate.
      intros [= <- <-]. simpl. auto.
    + intros [= <- <-]. simpl. rewrite app_nil_r. auto.
  - eff_red. intros [= <- <-]. rewrite app_nil_r. auto.
Qed.

Lemma saveVideo_ok env w w' :
  saveVideo env w = (Ok tt, w') ->
  w' = add_event (EvSave (videoInstance w))
         (upd_db (put_video (videoInstance w)) w).
Proof.
  unfold saveVideo, awaitCall, emit.
  destruct (fate env CSave); eff_red; simpl; try discriminate.
  now intros [= <-].
Qed.

Lemma updateChannel_ok env ch had old w w' :
  updateChannel env ch had old w = (Ok tt, w') ->
  let v := videoInstance w in
  videoInstance w'
  = match newChannel ch v with
    | Some c => set_VideoChannel c (set_channelId c v)
    | None => v
    end
  /\ videos (db w')
     = match newChannel ch v with
       | Some c => <[id (set_channelId c v) := set_channelId c v]> (videos (db w))
       | None => videos (db w)
       end
  /\ schedules (db w') = schedules (db w)
  /\ exists t, trace w' = trace w ++ t.
Proof.
  unfold updateChannel, newChannel, awaitCall, emit. cbv zeta.
  destruct ch as [c |]; eff_red.
  - destruct (channelId (videoInstance w) =? c); simpl.
    + intros [= <-]. repeat split. exists []. now rewrite app_nil_r.
    + destruct (fate env CSetVideoChannel); simpl; try discriminate.
      destruct had; simpl.
      * destruct (fate env CChangeVideoChannelShare); simpl; try discriminate.
        intros [= <-]. simpl. repeat split.
        rewrite <- app_assoc. eexists. reflexivity.
      * intros [= <-]. simpl. repeat split. eexists. reflexivity.
  - intros [= <-]. repeat split. exists []. now rewrite app_nil_r.
Qed.

Lemma updateSchedule_ok env p w w' :
  updateSchedule env p w = (Ok tt, w') ->
  videoInstance w' = videoInstance w
  /\ videos (db w') = videos (db w)
  /\ schedules (db w')
     = scheduled p (id (videoInstance w)) (schedules (db w))
  /\ exists t, trace w' = trace w ++ t.
Proof.
  unfold updateSchedule, scheduled, awaitCall, emit.
  destruct (Patch.scheduleUpdate p) as [| | updateAt privacy]; eff_red.
  - intros [= <-]. repeat split. exists []. now rewrite app_nil_r.
  - destruct (fate env CScheduleDelete); simpl; try discriminate.
    intros [= <-]. simpl. repeat split. eexists. reflexivity.
  - destruct (fate env CScheduleUpsert); simpl; try discriminate.
    intros [= <-]. simpl. repeat split. eexists. reflexivity.
Qed.

Lemma id_of_immutables a b : immutables a = immutables b -> id a = id b.
Proof. unfold immutables. now intros [= -> _ _ _]. Qed.

Lemma immutables_withPrivacy p v : immutables (withPrivacy p v) = immutables v.
Proof.
  unfold withPrivacy, setPrivacy. destruct (Patch.privacy p); [| reflexivity].
  now destruct v.
Qed.

Lemma id_prepared p v : id (withPrivacy p (assignFields p v)) = id v.
Proof.
  apply id_of_immutables.
  now rewrite immutables_withPrivacy, immutables_assignFields.
Qed.

Lemma id_set_channelId c v : id (set_channelId c v) = id v.
Proof. now destruct v. Qed.

Lemma id_set_VideoChannel c v : id (set_VideoChannel c v) = id v.
Proof. now destruct v. Qed.

Lemma updateVideoTransaction_ok env p ch th pv w a w' :
  updateVideoTransaction env p ch (hasPrivacyForFederation env (videoInstance w))
    th pv w = (Ok a, w') ->
  let v0 := videoInstance w in
  let v2 := withPrivacy p (assignFields p v0) in
  videoInstance w' = updatedInstance p ch v0
  /\ videos (db w') !! id v0 = Some (persistedRow p ch v0)
  /\ schedules (db w') = scheduled p (id v0) (schedules (db w))
  /\ exists t,
       trace w'
       = trace w ++ (if unfederates env p v0 then [EvSendDelete v2] else [])
                 ++ [EvSave v2] ++ t.
Proof.
  intros H. cbv zeta. unfold updateVideoTransaction in H.
  inv_bind H ovc wa Hovc. unfold gets in Hovc. injection Hovc as <- <-.
  inv_bind H u wb Hassign. unfold modify in Hassign. injection Hassign as _ <-.
  inv_bind H isNew wc Hpriv.
  apply updatePrivacy_ok in Hpriv as (Ipriv & Dpriv & Tpriv).
  inv_bind H u1 wd Hsave. destruct u1. apply saveVideo_ok in Hsave.
  inv_bind H u2 we Hth1.
  apply (frames_run keeps _ _ _ _ (addAndSaveThumbnail_keeps _ _)) in Hth1.
  inv_bind H u3 wf Hth2.
  apply (frames_run keeps _ _ _ _ (addAndSaveThumbnail_keeps _ _)) in Hth2.
  inv_bind H u4 wg Htags.
  apply (frames_run keeps _ _ _ _ (updateTags_keeps _ _)) in Htags.
  inv_bind H u5 wh Hch. destruct u5. apply updateChannel_ok in Hch.
  inv_bind H u6 wi Hsch. destruct u6. apply updateSchedule_ok in Hsch.
  inv_bind H u7 wj Hfin.
  apply (frames_run keeps _ _ _ _ (finishUpdate_keeps _ _)) in Hfin.
  unfold gets in H. injection H as _ <-.
  assert (Kmid : keeps wd wg) by (do 2 (etransitivity; [eassumption |]); assumption).
  clear Hth1 Hth2 Htags.
  destruct Kmid as (Imid & Vmid & Smid & tmid & Tmid).
  destruct Hch as (Ich & Vch & Sch & tch & Tch).
  destruct Hsch as (Isch & Vsch & Ssch & tsch & Tsch).
  destruct Hfin as (Ifin & Vfin & Sfin & tfin & Tfin).
  simpl in Ipriv, Dpriv, Tpriv.
  assert (Isd : videoInstance wd = videoInstance wc) by (subst wd; reflexivity).
  assert (Vsd : videos (db wd)
                = <[id (videoInstance wc) := videoInstance wc]> (videos (db w))).
  { subst wd. simpl. now rewrite Dpriv. }
  assert (Ssd : schedules (db wd) = schedules (db w)).
  { subst wd. simpl. now rewrite Dpriv. }
  assert (Tsd : trace wd = trace wc ++ [EvSave (videoInstance wc)]).
  { subst wd. reflexivity. }
  clear Hsave.
  rewrite Imid, Isd, Ipriv in Ich.
  rewrite Imid, Isd, Ipriv, Vmid, Vsd, Ipriv in Vch.
  unfold updatedInstance, persistedRow, unfederates. cbv zeta.
  repeat split.
  - now rewrite Ifin, Isch, Ich.
  - rewrite Vfin, Vsch, Vch.
    destruct (newChannel ch (withPrivacy p (assignFields p (videoInstance w)))).
    + rewrite id_set_channelId, id_prepared. apply lookup_insert_eq.
    + rewrite id_prepared. apply lookup_insert_eq.
  - rewrite Sfin, Ssch, Sch, Smid, Ssd. f_equal.
    rewrite Ich.
    destruct (newChannel ch (withPrivacy p (assignFields p (videoInstance w))));
      rewrite ?id_set_VideoChannel, ?id_set_channelId; apply id_prepared.
  - exists (tmid ++ tch ++ tsch ++ tfin).
    rewrite Tfin, Tsch, Tch, Tmid, Tsd, Tpriv, Ipriv.
    rewrite <- !app_assoc. reflexivity.
Qed.

(** ** [updateVideo] as a whole *)

Lemma updateVideo_throw_restores env p ch w e w' :
  updateVideo env p ch w = (Throw e, w') ->
  videoInstance w' = videoInstance w.
Proof.
  unfold updateVideo, awaitCall.
  unfold bind at 1, gets at 1. cbv beta iota.
  unfold bind at 1.
  destruct (fate env CBuildVideoThumbnails);
    [rewrite call_succeeds_run | rewrite call_fails_run by discriminate ..];
    try (intros [= _ <-]; reflexivity).
  unfold ret at 1. cbv beta iota.
  destruct (builtThumbnails env) as [th pv].
  unfold bind at 1, try_catch at 1.
  destruct (updateVideoTry env p ch (isConfidential env (videoInstance w))
              (hasPrivacyForFederation env (videoInstance w)) th pv w)
    as [[[] | e'] s] eqn:Hrun.
  - discriminate.
  - pose proof (frames_run _ _ _ _ _
                  (updateVideoTry_sameImmutables _ _ _ _ _ _ _) Hrun) as Him.
    unfold resetSequelizeInstance, emit. eff_red.
    intros [= _ <-]. simpl. unfold toJSON.
    now apply resetFields_restores.
Qed.

Lemma updateVideo_ok env p ch w r w' :
  updateVideo env p ch w = (Ok r, w') ->
  let v0 := videoInstance w in
  let v2 := withPrivacy p (assignFields p v0) in
  videoInstance w' = updatedInstance p ch v0
  /\ videos (db w') !! id v0 = Some (persistedRow p ch v0)
  /\ schedules (db w') = scheduled p (id v0) (schedules (db w))
  /\ exists t t',
       trace w'
       = trace w ++ [EvTransactionBegin]
                 ++ (if unfederates env p v0 then [EvSendDelete v2] else [])
                 ++ [EvSave v2] ++ t ++ [EvTransactionCommit] ++ t'.
Proof.
  intros H. cbv zeta. unfold updateVideo, awaitCall in H.
  inv_bind H v wa Hg. unfold gets in Hg. injection Hg as <- <-.
  inv_bind H thumbs wb Hb. apply call_ok_inv in Hb as [_ Hb].
  unfold ret in Hb. injection Hb as <- <-.
  destruct (builtThumbnails env) as [th pv].
  inv_bind H u wc Htry. unfold ret in H. injection H as _ <-.
  unfold try_catch in Htry.
  destruct (updateVideoTry env p ch (isConfidential env (videoInstance w))
              (hasPrivacyForFederation env (videoInstance w)) th pv w)
    as [[[] | e'] s] eqn:Hrun.
  2: { revert Htry. unfold resetSequelizeInstance, emit. eff_red. discriminate. }
  injection Htry as _ <-.
  unfold updateVideoTry in Hrun.
  inv_bind Hrun vU wd Htx.
  apply inTransaction_ok_inv in Htx as (wt & Hbody & ->).
  assert (Hpost : keeps (add_event EvTransactionCommit wt) s).
  { refine (frames_run keeps _ _ _ _ _ Hrun).
    unfold awaitCall, emit. frames_go. all: solve_keeps. }
  apply (updateVideoTransaction_ok env p ch th pv
           (add_event EvTransactionBegin w)) in Hbody.
  cbv zeta in Hbody. simpl in Hbody.
  destruct Hbody as (Ib & Vb & Sb & t & Tb).
  destruct Hpost as (Ip & Vp & Sp & t' & Tp). simpl in Ip, Vp, Sp, Tp.
  repeat split.
  - now rewrite Ip.
  - now rewrite Vp.
  - now rewrite Sp.
  - exists t, t'. rewrite Tp, Tb. rewrite <- !app_assoc. reflexivity.
Qed.

(** C7. When an update moves the privacy from one open to federation to
    one that is not, and succeeds, the events of the request start with the
    opening of the transaction, the retract ([sendDelete]) of the video
    carrying the new privacy and then its save; the commit comes later, and
    the row of the video ends with the new privacy. *)
Theorem updateVideo_unfederates_before_save :
  forall env videoInfoToUpdate channel w newPrivacy r w',
    Patch.privacy videoInfoToUpdate = Some newPrivacy ->
    hasPrivacyForFederation env (videoInstance w) = true ->
    isPrivacyForFederation env newPrivacy = false ->
    updateVideo env videoInfoToUpdate channel w = (Ok r, w') ->
    exists v t t',
      privacy v = newPrivacy
      /\ trace w'
         = trace w ++ [EvTransactionBegin; EvSendDelete v; EvSave v]
                   ++ t ++ [EvTransactionCommit] ++ t'
      /\ exists row,
           videos (db w') !! id (videoInstance w) = Some row
           /\ privacy row = newPrivacy.
Proof.
  intros env p ch w newPrivacy r w' Hp Hhad Hnow H.
  apply updateVideo_ok in H. cbv zeta in H.
  destruct H as (_ & Hrow & _ & t & t' & Htrace).
  assert (Hpriv : forall v, privacy (withPrivacy p v) = newPrivacy).
  { intros v. unfold withPrivacy, setPrivacy, parseInt_toString.
    rewrite Hp. apply privacy_set_privacy. }
  exists (withPrivacy p (assignFields p (videoInstance w))), t, t'.
  split; [apply Hpriv |]. split.
  - rewrite Htrace. unfold unfederates, parseInt_toString.
    rewrite Hp, Hhad, Hnow. reflexivity.
  - eexists. split; [exact Hrow |].
    unfold persistedRow. cbv zeta.
    destruct (newChannel ch _); [| apply Hpriv].
    rewrite <- (Hpriv (assignFields p (videoInstance w))).
    generalize (withPrivacy p (assignFields p (videoInstance w))).
    intros v. now destruct v.
Qed.

(** ** Attributes an update does not mention *)

Lemma attribute_assignIfDefined a x set v :
  (forall y u, attribute a (set y u) = attribute a u) \/ x = VUndefined ->
  attribute a (assignIfDefined x set v) = attribute a v.
Proof.
  unfold assignIfDefined. intros [H | ->]; [| reflexivity].
  destruct (strict_neq x VUndefined); [apply H | reflexivity].
Qed.

Lemma attribute_assignFields a p v :
  mentioned a p = VUndefined
  \/ (a = AOriginallyPublishedAt /\ mentioned a p = VNull) ->
  attribute a (assignFields p v) = attribute a v.
Proof.
  intros H. unfold assignFields. cbv zeta.
  assert (Hopa :
    forall u,
      attribute a
        (if strict_neq (Patch.originallyPublishedAt p) VUndefined
            && strict_neq (Patch.originallyPublishedAt p) VNull
         then set_originallyPublishedAt
                (newDate (Patch.originallyPublishedAt p)) u
         else u)
      = attribute a u).
  { intros u. destruct a; simpl in H;
      try (destruct (_ && _); [destruct u |]; reflexivity).
    destruct H as [-> | [_ ->]]; reflexivity. }
  rewrite Hopa. clear Hopa.
  assert (Hund : a <> AOriginallyPublishedAt -> mentioned a p = VUndefined).
  { intros Hne. destruct H as [H | [H _]]; [exact H | contradiction]. }
  destruct a; simpl in Hund;
    repeat (rewrite attribute_assignIfDefined;
            [| first [ left; intros y u; destruct u; reflexivity
                     | right; apply Hund; discriminate ]]);
    reflexivity.
Qed.

Lemma attribute_withPrivacy a p v :
  attribute a (withPrivacy p v) = attribute a v.
Proof.
  unfold withPrivacy, setPrivacy. destruct (Patch.privacy p); [| reflexivity].
  now destruct v, a.
Qed.

Lemma attribute_updatedInstance a p ch v :
  mentioned a p = VUndefined
  \/ (a = AOriginallyPublishedAt /\ mentioned a p = VNull) ->
  attribute a (updatedInstance p ch v) = attribute a v.
Proof.
  intros H. unfold updatedInstance. cbv zeta.
  rewrite <- (attribute_assignFields a p v H).
  rewrite <- (attribute_withPrivacy a p (assignFields p v)).
  generalize (withPrivacy p (assignFields p v)). intros u.
  destruct (newChannel ch u); [| reflexivity]. now destruct u, a.
Qed.

Lemma attribute_persistedRow a p ch v :
  mentioned a p = VUndefined
  \/ (a = AOriginallyPublishedAt /\ mentioned a p = VNull) ->
  attribute a (persistedRow p ch v) = attribute a v.
Proof.
  intros H. unfold persistedRow. cbv zeta.
  rewrite <- (attribute_assignFields a p v H).
  rewrite <- (attribute_withPrivacy a p (assignFields p v)).
  generalize (withPrivacy p (assignFields p v)). intros u.
  destruct (newChannel ch u); [| reflexivity]. now destruct u, a.
Qed.

Lemma updateVideo_attribute_kept env p ch w a :
  mentioned a p = VUndefined
  \/ (a = AOriginallyPublishedAt /\ mentioned a p = VNull) ->
  attribute a (videoInstance (snd (updateVideo env p ch w)))
  = attribute a (videoInstance w).
Proof.
  intros H.
  destruct (updateVideo env p ch w) as [[r | e] w'] eqn:Hrun; simpl.
  - apply updateVideo_ok in Hrun. destruct Hrun as (-> & _).
    now apply attribute_updatedInstance.
  - apply updateVideo_throw_restores in Hrun. now rewrite Hrun.
Qed.

(** C10. In [updateVideo] a [null] [originallyPublishedAt] does what an
    absent one does: the run is the same, the timestamp of the instance is
    unchanged whatever the outcome, and after a successful update the stored
    row still has it. A [null] [scheduleUpdate] instead removes the
    scheduled change of the video, where an absent one leaves the table as
    it is. Every attribute the body does not mention keeps its value, and
    so does the privacy when the body has none. *)
Theorem updateVideo_null_originallyPublishedAt_is_absent :
  forall env videoInfoToUpdate channel w,
    let withNull := with_originallyPublishedAt VNull videoInfoToUpdate in
    let without := with_originallyPublishedAt VUndefined videoInfoToUpdate in
    updateVideo env withNull channel w = updateVideo env without channel w
    /\ originallyPublishedAt
         (videoInstance (snd (updateVideo env withNull channel w)))
       = originallyPublishedAt (videoInstance w)
    /\ (forall r w',
          updateVideo env withNull channel w = (Ok r, w') ->
          exists row,
            videos (db w') !! id (videoInstance w) = Some row
            /\ originallyPublishedAt row
               = originallyPublishedAt (videoInstance w))
    /\ (forall r w',
          Patch.scheduleUpdate videoInfoToUpdate = ScheduleNull ->
          updateVideo env videoInfoToUpdate channel w = (Ok r, w') ->
          schedules (db w')
          = delete (id (videoInstance w)) (schedules (db w)))
    /\ (forall r w',
          Patch.scheduleUpdate videoInfoToUpdate = ScheduleUndefined ->
          updateVideo env videoInfoToUpdate channel w = (Ok r, w') ->
          schedules (db w') = schedules (db w))
    /\ (forall a,
          mentioned a videoInfoToUpdate = VUndefined ->
          attribute a
            (videoInstance (snd (updateVideo env videoInfoToUpdate channel w)))
          = attribute a (videoInstance w))
    /\ (Patch.privacy videoInfoToUpdate = None ->
        privacy
          (videoInstance (snd (updateVideo env videoInfoToUpdate channel w)))
        = privacy (videoInstance w)).
Proof.
  intros env p ch w. cbv zeta.
  split; [reflexivity |].
  split.
  { apply (updateVideo_attribute_kept env _ ch w AOriginallyPublishedAt).
    right. split; reflexivity. }
  split.
  { intros r w' Hrun. apply updateVideo_ok in Hrun.
    destruct Hrun as (_ & Hrow & _). eexists. split; [exact Hrow |].
    apply (attribute_persistedRow AOriginallyPublishedAt).
    right. split; reflexivity. }
  split.
  { intros r w' Hs Hrun. apply updateVideo_ok in Hrun.
    destruct Hrun as (_ & _ & -> & _). unfold scheduled. now rewrite Hs. }
  split.
  { intros r w' Hs Hrun. apply updateVideo_ok in Hrun.
    destruct Hrun as (_ & _ & -> & _). unfold scheduled. now rewrite Hs. }
  split.
  { intros a Ha. apply updateVideo_attribute_kept. now left. }
  intros Hp.
  destruct (updateVideo env p ch w) as [[r | e] w'] eqn:Hrun; simpl.
  - apply updateVideo_ok in Hrun. destruct Hrun as (-> & _).
    unfold updatedInstance, withPrivacy. cbv zeta. rewrite Hp.
    assert (Hkeep : privacy (assignFields p (videoInstance w))
                    = privacy (videoInstance w)).
    { unfold assignFields, assignIfDefined. cbv zeta.
      generalize (videoInstance w). intros v.
      repeat match goal with
             | |- context [if ?b then _ else _] => destruct b
             end; now destruct v. }
    rewrite <- Hkeep.
    generalize (assignFields p (videoInstance w)). intros u.
    destruct (newChannel ch u); [| reflexivity]. now destruct u.
  - apply updateVideo_throw_restores in Hrun. now rewrite Hrun.
Qed.

(** ** Sample runs *)

(** C2, counterexample. A live video of another server, not yet viewed
    from this address: the view is sent to the federation with
    [sendView]. *)
Lemma viewVideo_remote_live_federates :
  let video := sampleVideo true false in
  let w := worldWith video in
  let run := viewVideo (sampleEnv allSucceed untouched) "10.0.0.1" 1 "uuid-1" w in
  isLive video = true
  /\ owned video = false
  /\ bool_decide (("10.0.0.1"%string, "uuid-1"%string) ∈ ipViews w) = false
  /\ fst run = Ok NO_CONTENT_204
  /\ trace (snd run)
     = [EvSetIPVideoView "10.0.0.1" "uuid-1" true; EvSendView 1;
        EvHook "action:api.video.viewed"]
  /\ ~ appends not_SendView w (snd run).
Proof.
  cbv zeta. repeat split; try (vm_compute; reflexivity).
  intros (t & Ht & Hok).
  assert (Htr : trace (snd (viewVideo (sampleEnv allSucceed untouched)
                              "10.0.0.1" 1 "uuid-1"
                              (worldWith (sampleVideo true false))))
                = [EvSetIPVideoView "10.0.0.1" "uuid-1" true; EvSendView 1;
                   EvHook "action:api.video.viewed"])
    by (vm_compute; reflexivity).
  rewrite Htr in Ht. simpl in Ht. subst t. discriminate Hok.
Qed.

(** A first view of a live video of this server. *)
Lemma viewVideo_live_skips_vod_counter_witness :
  let video := sampleVideo true true in
  let w := worldWith video in
  let w' := snd (viewVideo (sampleEnv allSucceed untouched)
                   "10.0.0.1" 1 "uuid-1" w) in
  vodUntouched w w'
  /\ (owned video = true -> appends not_SendView w w').
Proof.
  cbv zeta.
  apply (viewVideo_live_skips_vod_counter (sampleEnv allSucceed untouched)
           "10.0.0.1" 1 "uuid-1" (worldWith (sampleVideo true true))
           (sampleVideo true true)).
  - vm_compute. reflexivity.
  - reflexivity.
Defined.

(** A renaming update whose save fails: the name assigned in the
    transaction is gone after the reset. *)
Lemma updateVideo_failure_restores_snapshot_witness :
  let env := sampleEnv saveFails untouched in
  let w := worldWith (sampleVideo false true) in
  let w1 :=
    snd (inTransaction
           (updateVideoTransaction env nullsPatch None
              (hasPrivacyForFederation env (videoInstance w))
              (fst (builtThumbnails env)) (snd (builtThumbnails env))) w) in
  name (videoInstance w1) = VStr "Renamed"
  /\ updateVideo env nullsPatch None w
     = (Throw (Failed CSave),
        add_event EvResetSequelizeInstance
          (set_videoInstance (toJSON (videoInstance w)) w1))
  /\ db w1 = db w.
Proof.
  cbv zeta. split; [reflexivity |].
  apply (updateVideo_failure_restores_snapshot (sampleEnv saveFails untouched)
           nullsPatch None (worldWith (sampleVideo false true))).
  - reflexivity.
  - vm_compute. reflexivity.
Defined.

(** A public video made private. *)
Lemma updateVideo_unfederates_before_save_witness :
  let env := sampleEnv allSucceed untouched in
  let w := worldWith (sampleVideo false true) in
  let w' := snd (updateVideo env privatePatch None w) in
  exists v t t',
    privacy v = 3
    /\ trace w'
       = trace w ++ [EvTransactionBegin; EvSendDelete v; EvSave v]
                 ++ t ++ [EvTransactionCommit] ++ t'
    /\ exists row,
         videos (db w') !! id (videoInstance w) = Some row
         /\ privacy row = 3.
Proof.
  cbv zeta.
  apply (updateVideo_unfederates_before_save (sampleEnv allSucceed untouched)
           privatePatch None (worldWith (sampleVideo false true)) 3
           NO_CONTENT_204).
  - reflexivity.
  - reflexivity.
  - reflexivity.
  - vm_compute. reflexivity.
Defined.

(** The file record deleted, and changed, while the torrent was created. *)
Lemma createTorrent_reload_guard_witness :
  let v := sampleVideo false true in
  let w := worldWith v in
  let gone :=
    createTorrentAndSetInfoHashAsync (sampleEnv allSucceed fileDeleted)
      v sampleFile w in
  let kept :=
    createTorrentAndSetInfoHashAsync (sampleEnv allSucceed fileChanged)
      v sampleFile w in
  (fst gone = Ok tt
   /\ files (db (snd gone)) = ∅
   /\ torrents (snd gone) = ∅)
  /\ (fst kept = Ok tt
      /\ files (db (snd kept)) !! 5
         = Some (mkVideoFile 5 1 720 2000 ".mp4" (VStr "hash")
                             (VStr "file.torrent"))).
Proof.
  cbv zeta. split.
  - pose proof (createTorrent_reload_guard (sampleEnv allSucceed fileDeleted)
                  (sampleVideo false true) sampleFile
                  (worldWith (sampleVideo false true)) eq_refl eq_refl)
      as (Hdb & _ & Hrm).
    destruct (Hrm eq_refl) as (Hok & _ & _).
    split; [exact Hok |]. split.
    + rewrite Hdb. vm_compute. reflexivity.
    + vm_compute. reflexivity.
  - pose proof (createTorrent_reload_guard (sampleEnv allSucceed fileChanged)
                  (sampleVideo false true) sampleFile
                  (worldWith (sampleVideo false true)) eq_refl eq_refl)
      as Hkept.
    destruct (Hkept eq_refl) as (Hok & Hfiles & _).
    split; [exact Hok |]. rewrite Hfiles. vm_compute. reflexivity.
Defined.

(** An update with [originallyPublishedAt: null] and
    [scheduleUpdate: null] on a video that has a scheduled change. *)
Lemma updateVideo_null_originallyPublishedAt_is_absent_witness :
  let env := sampleEnv allSucceed untouched in
  let w := worldWith (sampleVideo false true) in
  let w' := snd (updateVideo env nullsPatch None w) in
  originallyPublishedAt (videoInstance w') = VDate (VStr "2020-01-01")
  /\ schedules (db w) !! 1 = Some sampleSchedule
  /\ schedules (db w') = delete 1 (schedules (db w))
  /\ category (videoInstance w') = category (videoInstance w).
Proof.
  cbv zeta.
  pose proof (updateVideo_null_originallyPublishedAt_is_absent
                (sampleEnv allSucceed untouched) nullsPatch None
                (worldWith (sampleVideo false true)))
    as (_ & Hopa & _ & Hnull & _ & Hframe & _).
  split; [exact Hopa |]. split; [vm_compute; reflexivity |]. split.
  - apply (Hnull NO_CONTENT_204).
    + reflexivity.
    + vm_compute. reflexivity.
  - apply (Hframe ACategory). reflexivity.
Defined.

End VideosProofs.


(* ===================================================================== *)
(** * More theorems about videos/import.ts                                *)
(* ===================================================================== *)

Module ImportsMoreProofs.
Import Imports ImportsSpec ImportsMore EffFacts.

(** Destructs the fate of the next call of the run and goes on. *)
Ltac run_fates env :=
  repeat (eff_red; simpl;
          match goal with
          | |- context [fate env ?c] => destruct (fate env c) eqn:?
          end);
  eff_red; simpl.

(** ** Inverting a run, whatever its outcome *)

Section Inversions.
Context {S E : Type}.

Lemma bind_inv {A B} (m : Eff.M S E A) (k : A -> Eff.M S E B) s r s' :
  bind m k s = (r, s') ->
  (exists a s1, m s = (Ok a, s1) /\ k a s1 = (r, s'))
  \/ (exists e, m s = (Throw e, s') /\ r = Throw e).
Proof.
  unfold bind. destruct (m s) as [[a | e] s1]; intros H.
  - left. eauto.
  - right. injection H as <- <-. eauto.
Qed.

Lemma call_inv {A} (f : Fate) (e : E) (eff : Eff.M S E A) s r s' :
  call f e eff s = (r, s') ->
  (f = Succeeds /\ eff s = (r, s'))
  \/ (f <> Succeeds /\ r = Throw e /\ s' = s).
Proof.
  destruct f.
  - rewrite call_succeeds_run. auto.
  - intros [= <- <-]. right. repeat split. discriminate.
  - intros [= <- <-]. right. repeat split. discriminate.
Qed.

Lemma try_catch_inv {A} (m : Eff.M S E A) (h : E -> Eff.M S E A) s r s' :
  try_catch m h s = (r, s') ->
  (exists a, m s = (Ok a, s') /\ r = Ok a)
  \/ (exists e s1, m s = (Throw e, s1) /\ h e s1 = (r, s')).
Proof.
  unfold try_catch. destruct (m s) as [[a | e] s1]; intros H.
  - left. injection H as <- <-. eauto.
  - right. eauto.
Qed.

End Inversions.

Ltac split_bind H a s Hm :=
  apply bind_inv in H;
  destruct H as [(a & s & Hm & H) | (? & Hm & ->)].

Ltac close_stored :=
  repeat split; simpl; rewrite <- ?app_assoc, ?app_nil_r;
  first [ reflexivity | destruct (autoBlacklisted _ _); reflexivity ].

Ltac close_throw :=
  split;
  [ reflexivity
  | split;
    [ intros Hne; first [ reflexivity | exfalso; apply Hne; reflexivity ]
    | intros He; first [ discriminate He | close_stored ] ] ].

Lemma insert_captions_others cs : forall d,
  videos (insert_captions cs d) = videos d
  /\ thumbnails (insert_captions cs d) = thumbnails d
  /\ blacklist (insert_captions cs d) = blacklist d
  /\ videoTags (insert_captions cs d) = videoTags d
  /\ videoImports (insert_captions cs d) = videoImports d.
Proof.
  unfold insert_captions.
  induction cs as [| c cs IH]; intros d; simpl; [tauto |].
  destruct (IH (insert_caption c d)) as (-> & -> & -> & -> & ->). tauto.
Qed.

Lemma stored_insert_captions env cs d d' video slots tags vi :
  stored env d d' video slots tags vi ->
  stored env d (insert_captions cs d') video slots tags vi.
Proof.
  unfold stored.
  destruct (insert_captions_others cs d') as (-> & -> & -> & -> & ->). tauto.
Qed.

(** ** The steps of an import, one by one *)

Lemma processThumbnail_quiet env req video w :
  quiet w (processThumbnail env req video w)
    (uploadedSlot (thumbnailfile req) MINIATURE).
Proof.
  unfold quiet, processThumbnail, awaitCall.
  destruct (thumbnailfile req) as [f |]; simpl; [| auto].
  destruct (fate env (CMiniatureFromExisting MINIATURE)); simpl;
    repeat split; discriminate.
Qed.

Lemma processPreview_quiet env req video w :
  quiet w (processPreview env req video w)
    (uploadedSlot (previewfile req) PREVIEW).
Proof.
  unfold quiet, processPreview, awaitCall.
  destruct (previewfile req) as [f |]; simpl; [| auto].
  destruct (fate env (CMiniatureFromExisting PREVIEW)); simpl;
    repeat split; discriminate.
Qed.

(** The second try of a slot, from the extractor's URL. *)
Lemma thumbnail_fallback_quiet env uploaded url video w :
  quiet w
    ((if negb (bool_decide (is_Some (uploadedSlot uploaded MINIATURE)))
         && truthy url
      then processThumbnailFromUrl env url video
      else ret (uploadedSlot uploaded MINIATURE)) w)
    (resolvedSlot env uploaded url MINIATURE).
Proof.
  unfold quiet, resolvedSlot, processThumbnailFromUrl,
    createVideoMiniatureFromUrl, logger.
  destruct uploaded as [f |]; simpl; [auto |].
  destruct (truthy url); simpl; [| auto].
  destruct (fate env (CMiniatureFromUrl MINIATURE)); simpl;
    repeat split; discriminate.
Qed.

Lemma preview_fallback_quiet env uploaded url video w :
  quiet w
    ((if negb (bool_decide (is_Some (uploadedSlot uploaded PREVIEW)))
         && truthy url
      then processPreviewFromUrl env url video
      else ret (uploadedSlot uploaded PREVIEW)) w)
    (resolvedSlot env uploaded url PREVIEW).
Proof.
  unfold quiet, resolvedSlot, processPreviewFromUrl,
    createVideoMiniatureFromUrl, logger.
  destruct uploaded as [f |]; simpl; [auto |].
  destruct (truthy url); simpl; [| auto].
  destruct (fate env (CMiniatureFromUrl PREVIEW)); simpl;
    repeat split; discriminate.
Qed.

(** The transaction: everything or nothing. *)
Lemma insertIntoDB_outcomes env video thumbnailModel previewModel tags
    targetUrl magnetUri torrentName userId w :
  let run :=
    insertIntoDB env video thumbnailModel previewModel tags targetUrl
      magnetUri torrentName userId w in
  match fst run with
  | Throw e => snd run = w /\ e <> Failed CCreateJob
  | Ok videoImport =>
      videoImport
      = mkVideoImport (next_id (videoImports (db w)))
          (next_id (videos (db w))) targetUrl magnetUri torrentName
          PENDING userId
      /\ stored env (db w) (db (snd run)) video
           [thumbnailModel; previewModel] tags videoImport
      /\ captions (db (snd run)) = captions (db w)
      /\ jobs (snd run) = jobs w
      /\ fs (snd run) = fs w
      /\ log (snd run) = log w
  end.
Proof.
  cbv zeta.
  unfold insertIntoDB, inTransaction, addAndSaveThumbnail, awaitCall, stored.
  destruct w as [d j f l].
  destruct thumbnailModel as [th |], previewModel as [pv |]; run_fates env.
  all: first [ solve [split; [reflexivity | discriminate]]
             | solve [close_stored] ].
Qed.

(** The subtitles: they return, and touch nothing but the captions. *)
Lemma subtitles_block env videoId w :
  let run :=
    try_catch
      (bind (awaitCall env CGetYoutubeDLSubs (ret (youtubeDLSubs env)))
         (fun subtitles =>
            bind (logger LInfo
                    "Will create %s subtitles from youtube import %s.")
                 (fun _ => importSubtitles env videoId subtitles)))
      (fun err => logger LWarn "Cannot get video subtitles.") w in
  fst run = Ok tt
  /\ jobs (snd run) = jobs w
  /\ db (snd run)
     = insert_captions (map (captionOf env videoId) (importedSubtitles env))
         (db w).
Proof.
  cbv zeta. unfold awaitCall, logger, importedSubtitles.
  destruct (fate env CGetYoutubeDLSubs); eff_red; simpl; auto.
  match goal with
  | |- context [importSubtitles ?e ?vid ?subs ?w1] =>
      destruct (ImportsProofs.importSubtitles_run e vid subs w1)
        as (r & w3 & Hrun & Hdb & Hjobs & Hlog & Hr);
      rewrite Hrun
  end.
  destruct r as [[] | e]; simpl; rewrite Hdb, Hjobs; auto.
Qed.

(** Uses a [quiet] step [Hm] of the run: the state after it is the state
    the run started from, as far as the tables and the jobs go. *)
Ltac use_quiet lem Hm Hd Hj Hr :=
  let Q := fresh "Q" in
  pose proof lem as Q; unfold quiet in Q; rewrite Hm in Q; simpl in Q;
  let Hd' := fresh "Hd" in
  let Hj' := fresh "Hj" in
  destruct Q as (Hd' & Hj' & Hr);
  apply (fun H => eq_trans H Hd) in Hd';
  apply (fun H => eq_trans H Hj) in Hj';
  clear Hd Hj; rename Hd' into Hd; rename Hj' into Hj.

Ltac quiet_step Hm Hd Hj Hr :=
  match type of Hm with
  | processThumbnail ?e ?rq ?v ?s = _ =>
      use_quiet (processThumbnail_quiet e rq v s) Hm Hd Hj Hr
  | processPreview ?e ?rq ?v ?s = _ =>
      use_quiet (processPreview_quiet e rq v s) Hm Hd Hj Hr
  | (if negb (bool_decide (is_Some (uploadedSlot ?u MINIATURE))) && truthy ?url
     then processThumbnailFromUrl ?e _ ?v else _) ?s = _ =>
      use_quiet (thumbnail_fallback_quiet e u url v s) Hm Hd Hj Hr
  | (if negb (bool_decide (is_Some (uploadedSlot ?u PREVIEW))) && truthy ?url
     then processPreviewFromUrl ?e _ ?v else _) ?s = _ =>
      use_quiet (preview_fallback_quiet e u url v s) Hm Hd Hj Hr
  end.

(** The run threw at a quiet step. *)
Ltac thrown_before_job Hd Hj Hr :=
  simpl; split;
  [ exact Hj
  | split; [ intros _; exact Hd | intros ->; now contradiction Hr ] ].

(** One quiet step of the run [H]. *)
Ltac step_quiet H a s Hd Hj :=
  let Hm := fresh "Hm" in
  let Hr := fresh "Hr" in
  split_bind H a s Hm;
  [ quiet_step Hm Hd Hj Hr; subst a; clear Hm
  | quiet_step Hm Hd Hj Hr; thrown_before_job Hd Hj Hr ].

(** The transaction step [Hm] of the run. *)
Ltac insert_step Hm Q :=
  match type of Hm with
  | insertIntoDB ?e ?v ?t ?p ?tags ?a ?b ?c ?u ?s = _ =>
      pose proof (insertIntoDB_outcomes e v t p tags a b c u s) as Q;
      cbv zeta in Q; rewrite Hm in Q; cbn [fst snd] in Q
  end.

(** The job step [Hm] of the run. *)
Ltac job_step Hm :=
  unfold createImportJob, awaitCall in Hm; apply call_inv in Hm;
  destruct Hm as [[_ Hm] | (_ & Hm & ->)];
  first [ discriminate Hm
        | unfold modify in Hm; inversion Hm; subst; clear Hm ].

(** Every way [addYoutubeDLImport] can end. *)
Lemma addYoutubeDLImport_outcomes env req res w :
  let info := youtubeDLInfo env in
  let videoImport :=
    createdImport w res (Body.targetUrl (body req)) VUndefined VUndefined in
  let video := buildVideo env (videoChannel_id res) (body req) info in
  let slots :=
    [resolvedSlot env (thumbnailfile req) (Info.thumbnailUrl info) MINIATURE;
     resolvedSlot env (previewfile req) (Info.thumbnailUrl info) PREVIEW] in
  let tags := arr_or (Body.tags (body req)) (Info.tags info) in
  let run := addYoutubeDLImport env req res w in
  match fst run with
  | Ok r =>
      (status r = BAD_REQUEST_400
       /\ db (snd run) = db w /\ jobs (snd run) = jobs w)
      \/ (r = mkResponse OK_200 (JsonImport videoImport)
          /\ stored env (db w) (db (snd run)) video slots tags videoImport
          /\ jobs (snd run)
             = jobs w ++ [PayloadYoutubeDL (vi_id videoImport)
                            (fileExt (Info.ext info))])
  | Throw e =>
      jobs (snd run) = jobs w
      /\ (e <> Failed CCreateJob -> db (snd run) = db w)
      /\ (e = Failed CCreateJob ->
          stored env (db w) (db (snd run)) video slots tags videoImport)
  end.
Proof.
  cbv zeta.
  destruct (addYoutubeDLImport env req res w) as [r w'] eqn:H.
  cbn [fst snd]. unfold addYoutubeDLImport in H.
  split_bind H fetched w1 Hf.
  2: { revert Hf. unfold awaitCall, logger.
       destruct (fate env CGetYoutubeDLInfo); discriminate. }
  revert Hf. unfold awaitCall, logger.
  destruct (fate env CGetYoutubeDLInfo); eff_red; cbn [add_log];
    intros [= <- <-]; cbn beta iota in H.
  2, 3: injection H as <- <-; left; repeat split.
  assert (Hd : db w = db w) by reflexivity.
  assert (Hj : jobs w = jobs w) by reflexivity.
  step_quiet H tm w1 Hd Hj.
  step_quiet H tm' w2 Hd Hj.
  step_quiet H pm w3 Hd Hj.
  step_quiet H pm' w4 Hd Hj.
  unfold createdImport.
  split_bind H videoImport w5 Hm; insert_step Hm Q.
  2: { destruct Q as [-> Hr]. thrown_before_job Hd Hj Hr. }
  rewrite Hd in Q. destruct Q as (-> & Hst & _ & Hj5 & _).
  split_bind H u w6 Hs;
    match type of Hs with
    | _ ?s = _ =>
        pose proof (subtitles_block env (next_id (videos (db w))) s) as Q
    end;
    cbv zeta in Q; cbn [vi_videoId] in Hs; rewrite Hs in Q;
    destruct Q as (Hok & Hj6 & Hd6); [| discriminate Hok].
  cbn [fst snd] in Hj6, Hd6.
  split_bind H u' w7 Hc; job_step Hc.
  - unfold logger in H. revert H. eff_red. intros [= <- <-]. right.
    split; [reflexivity |]. cbn [db jobs add_log add_job vi_id]. split.
    + rewrite Hd6. now apply stored_insert_captions.
    + now rewrite Hj6, Hj5, Hj.
  - simpl. split; [now rewrite Hj6, Hj5, Hj |].
    split; [intros Hne; now contradiction Hne |]. intros _.
    rewrite Hd6. now apply stored_insert_captions.
Qed.
(** Every way [addTorrentImport] can end. *)
Lemma addTorrentImport_outcomes env req res torrentfile w :
  let videoImport :=
    createdImport w res VUndefined (recordedMagnetUri req torrentfile)
      (recordedTorrentName torrentfile) in
  let video :=
    buildVideo env (videoChannel_id res) (body req)
      (Info.onlyName (importedName env req torrentfile)) in
  let slots :=
    [uploadedSlot (thumbnailfile req) MINIATURE;
     uploadedSlot (previewfile req) PREVIEW] in
  let tags := arr_or (Body.tags (body req)) None in
  let run := addTorrentImport env req res torrentfile w in
  match fst run with
  | Ok r =>
      (status r = BAD_REQUEST_400
       /\ db (snd run) = db w /\ jobs (snd run) = jobs w)
      \/ (r = mkResponse OK_200 (JsonImport videoImport)
          /\ stored env (db w) (db (snd run)) video slots tags videoImport
          /\ jobs (snd run)
             = jobs w ++ [PayloadTorrent (torrentJobType torrentfile)
                            (vi_id videoImport)
                            (recordedMagnetUri req torrentfile)])
  | Throw e =>
      jobs (snd run) = jobs w
      /\ (e <> Failed CCreateJob -> db (snd run) = db w)
      /\ (e = Failed CCreateJob ->
          stored env (db w) (db (snd run)) video slots tags videoImport)
  end.
Proof.
  cbv zeta.
  destruct (addTorrentImport env req res torrentfile w) as [r w'] eqn:H.
  cbn [fst snd]. unfold addTorrentImport in H.
  split_bind H named w1 Hn.
  2: { revert Hn. unfold awaitCall.
       destruct torrentfile as [tf |]; run_fates env;
         try destruct (negb _); intros [= <- <-];
         simpl; repeat split; intros; congruence. }
  assert (Hnamed :
    db w1 = db w /\ jobs w1 = jobs w
    /\ match named with
       | inl n =>
           n = (importedName env req torrentfile,
                recordedTorrentName torrentfile,
                recordedMagnetUri req torrentfile)
       | inr response => status response = BAD_REQUEST_400
       end).
  { revert Hn. unfold awaitCall.
    destruct torrentfile as [tf |]; run_fates env;
      try destruct (negb _); intros [= <- <-]; repeat split. }
  clear Hn. destruct Hnamed as (Hd & Hj & Hnamed).
  destruct named as [[[videoName torrentName] magnetUri] | response];
    cbn beta iota in H.
  2: { injection H as <- <-. left. auto. }
  injection Hnamed as -> -> ->.
  step_quiet H tm w2 Hd Hj.
  step_quiet H pm w3 Hd Hj.
  unfold createdImport.
  split_bind H videoImport w4 Hm; insert_step Hm Q.
  2: { destruct Q as [-> Hr]. thrown_before_job Hd Hj Hr. }
  rewrite Hd in Q. destruct Q as (-> & Hst & _ & Hj4 & _).
  cbn [vi_id] in H.
  assert (Htype :
    (if bool_decide (is_Some torrentfile) then TorrentFile else MagnetUri)
    = torrentJobType torrentfile) by (destruct torrentfile; reflexivity).
  rewrite Htype in H.
  split_bind H u' w5 Hc; job_step Hc.
  - unfold logger in H. revert H. eff_red. intros [= <- <-]. right.
    split; [reflexivity |]. cbn [db jobs add_log add_job vi_id].
    split; [exact Hst | now rewrite Hj4, Hj].
  - simpl. split; [now rewrite Hj4, Hj |].
    split; [intros Hne; now contradiction Hne | intros _; exact Hst].
Qed.

(** ** The extractor fails *)

(** X1. When the extractor cannot fetch the information of the URL, the
    import is answered with status 400 and the error of the remote fetch;
    but for the line logged, the state is as before: no descriptor, no
    thumbnail, no import record, no caption and no job. *)
Theorem addYoutubeDLImport_extractor_failure :
  forall env req res w,
    fate env CGetYoutubeDLInfo <> Succeeds ->
    addYoutubeDLImport env req res w
    = (Ok (mkResponse BAD_REQUEST_400
             (JsonError None "Cannot fetch remote information of this URL.")),
       add_log (mkLog LInfo "Cannot fetch information from import for URL %s.")
               w).
Proof.
  intros env req res w H. unfold addYoutubeDLImport, awaitCall, logger.
  destruct (fate env CGetYoutubeDLInfo); [congruence | reflexivity ..].
Qed.

(** The extractor rejects. *)
Lemma addYoutubeDLImport_extractor_failure_witness :
  let run :=
    addYoutubeDLImport (sampleEnv extractorFails)
      (mkRequest urlBody None None None) someLocals emptyWorld in
  status <$> (match fst run with Ok r => Some r | Throw _ => None end)
  = Some 400
  /\ db (snd run) = emptyDb
  /\ jobs (snd run) = [].
Proof.
  cbv zeta.
  rewrite (addYoutubeDLImport_extractor_failure (sampleEnv extractorFails)
             (mkRequest urlBody None None None) someLocals emptyWorld);
    [| discriminate].
  repeat split.
Defined.

(** ** [insertIntoDB] *)

(** X2. [insertIntoDB] writes everything or nothing. When it throws, the
    state is the one it started from. When it returns, the descriptor
    and the import record are the last rows of their tables, the record
    is pending, points to the descriptor and carries the sources it was
    given, and the tag row of the descriptor holds the tags it was
    given. *)
Theorem insertIntoDB_all_or_nothing :
  forall env video thumbnailModel previewModel tags targetUrl magnetUri
         torrentName userId w,
    match insertIntoDB env video thumbnailModel previewModel tags targetUrl
            magnetUri torrentName userId w with
    | (Throw _, w') => w' = w
    | (Ok videoImport, w') =>
        videoImport
        = mkVideoImport (next_id (videoImports (db w)))
            (next_id (videos (db w))) targetUrl magnetUri torrentName
            PENDING userId
        /\ videos (db w')
           = videos (db w) ++ [(vi_videoId videoImport, video)]
        /\ videoImports (db w') = videoImports (db w) ++ [videoImport]
        /\ videoTags (db w')
           = videoTags (db w) ++ [(vi_videoId videoImport, tags)]
        /\ captions (db w') = captions (db w)
        /\ jobs w' = jobs w /\ fs w' = fs w /\ log w' = log w
    end.
Proof.
  intros env video th pv tags t m n u w.
  unfold insertIntoDB, inTransaction, addAndSaveThumbnail, awaitCall.
  destruct w as [d j f l].
  destruct th as [th |], pv as [pv |]; run_fates env;
    first [ reflexivity | repeat split ].
Qed.

(** ** What an accepted import has stored and queued *)



(** X4. When a remote-URL import is answered with status 200, the answer
    is the import record created, which carries the URL; the descriptor
    stored is the one built from the request and the extractor's
    information, with the tags of the request or else the extractor's; each
    thumbnail slot holds the uploaded file when there is one (the
    extractor's URL is then not used), else the picture fetched from the
    extractor's URL when there is such a URL and the fetch was not given
    up, else nothing; and one job is queued for the record, with the
    extractor's file extension, [mp4] when it gives none. *)
Theorem addYoutubeDLImport_created :
  forall env req res w r w',
    addYoutubeDLImport env req res w = (Ok r, w') ->
    status r = OK_200 ->
    let info := youtubeDLInfo env in
    let videoImport :=
      createdImport w res (Body.targetUrl (body req)) VUndefined VUndefined in
    r = mkResponse OK_200 (JsonImport videoImport)
    /\ stored env (db w) (db w')
         (buildVideo env (videoChannel_id res) (body req) info)
         [resolvedSlot env (thumbnailfile req) (Info.thumbnailUrl info)
            MINIATURE;
          resolvedSlot env (previewfile req) (Info.thumbnailUrl info)
            PREVIEW]
         (arr_or (Body.tags (body req)) (Info.tags info)) videoImport
    /\ jobs w'
       = jobs w ++ [PayloadYoutubeDL (vi_id videoImport)
                      (fileExt (Info.ext info))].
Proof.
  intros env req res w r w' Hrun Hstatus. cbv zeta.
  pose proof (addYoutubeDLImport_outcomes env req res w) as H.
  cbv zeta in H. rewrite Hrun in H. cbn [fst snd] in H.
  destruct H as [(H400 & _) | H]; [| exact H].
  rewrite H400 in Hstatus. discriminate Hstatus.
Qed.

(** A thumbnail is uploaded, no preview; every fetch from the extractor's
    URL would be given up. *)
Lemma addYoutubeDLImport_created_witness :
  let run :=
    addYoutubeDLImport (sampleEnv urlFetchesGivenUp) (mkRequest urlBody (Some thumbUpload) None None)
      someLocals emptyWorld in
  thumbnails (db (snd run))
  = [(1, mkThumbnail MINIATURE (FromExisting "/tmp/thumb-1"))]
  /\ videoTags (db (snd run)) = [(1, Some ["talk"%string])]
  /\ jobs (snd run) = [PayloadYoutubeDL 1 ".webm"].
Proof.
  cbv zeta.
  destruct (addYoutubeDLImport
              (sampleEnv urlFetchesGivenUp)
              (mkRequest urlBody (Some thumbUpload) None None) someLocals
              emptyWorld)
    as [[r | e] w'] eqn:Hrun; [| discriminate Hrun].
  assert (Hstatus : status r = OK_200) by (injection Hrun as <- _; reflexivity).
  destruct (addYoutubeDLImport_created _ _ _ _ _ _ Hrun Hstatus)
    as (_ & (_ & Hth & _ & Htags & _) & Hjobs).
  cbn [snd]. rewrite Hth, Htags, Hjobs. repeat split.
Defined.

(** ** Imports that fail *)

(** What [addVideoImport] runs: one of the two paths, or nothing. *)
Lemma addVideoImport_paths env req res w :
  let lift (run : Res Error Response * World) :=
    (match fst run with Ok r => Ok (Some r) | Throw e => Throw e end,
     snd run) in
  addVideoImport env req res w = lift (addYoutubeDLImport env req res w)
  \/ addVideoImport env req res w
     = lift (addTorrentImport env req res (torrentfile req) w)
  \/ addVideoImport env req res w = (Ok None, w).
Proof.
  cbv zeta. unfold addVideoImport.
  destruct (truthy (Body.targetUrl (body req))).
  - left. unfold bind.
    destruct (addYoutubeDLImport env req res w) as [[r | e] w']; reflexivity.
  - destruct (truthy (Body.magnetUri (body req))
              || bool_decide (is_Some (torrentfile req))).
    + right. left. unfold bind.
      destruct (addTorrentImport env req res (torrentfile req) w)
        as [[r | e] w']; reflexivity.
    + right. right. reflexivity.
Qed.

(** Both paths at once. *)
Ltac on_both_paths env req res w :=
  destruct (addVideoImport_paths env req res w) as [-> | [-> | ->]];
  [ pose proof (addYoutubeDLImport_outcomes env req res w) as H;
    cbv zeta in H;
    destruct (addYoutubeDLImport env req res w) as [[r | e] w']
  | pose proof (addTorrentImport_outcomes env req res (torrentfile req) w)
      as H;
    cbv zeta in H;
    destruct (addTorrentImport env req res (torrentfile req) w)
      as [[r | e] w']
  | ];
  cbn [fst snd] in *.

(** X5. An import that throws anywhere but at the job queue leaves every
    table and the job queue as they were: no descriptor, thumbnail, tag
    row, import record, caption or job is left behind. *)
Theorem addVideoImport_failure_leaves_tables :
  forall env req res w e,
    fst (addVideoImport env req res w) = Throw e ->
    e <> Failed CCreateJob ->
    db (snd (addVideoImport env req res w)) = db w
    /\ jobs (snd (addVideoImport env req res w)) = jobs w.
Proof.
  intros env req res w e0. on_both_paths env req res w;
    intros He Hne; try discriminate He; injection He as ->.
  - destruct H as (Hj & Hd & _). auto.
  - destruct H as (Hj & Hd & _). auto.
Qed.

(** The creation of the import record fails. *)
Lemma addVideoImport_failure_leaves_tables_witness :
  let run :=
    addVideoImport (sampleEnv importCreateFails)
      (mkRequest urlBody None None None) someLocals emptyWorld in
  db (snd run) = emptyDb /\ jobs (snd run) = [].
Proof.
  cbv zeta.
  apply (addVideoImport_failure_leaves_tables (sampleEnv importCreateFails)
           (mkRequest urlBody None None None) someLocals emptyWorld
           (Failed CVideoImportCreate));
    [reflexivity | discriminate].
Defined.

(** X6. When the job queue refuses the job, the import throws with its
    descriptor and its record already committed: the tables hold a pending
    import for which no job is queued. *)
Theorem addVideoImport_job_failure_keeps_import :
  forall env req res w,
    fst (addVideoImport env req res w) = Throw (Failed CCreateJob) ->
    exists videoImport video,
      videos (db (snd (addVideoImport env req res w)))
      = videos (db w) ++ [(vi_videoId videoImport, video)]
      /\ videoImports (db (snd (addVideoImport env req res w)))
         = videoImports (db w) ++ [videoImport]
      /\ vi_state videoImport = PENDING
      /\ jobs (snd (addVideoImport env req res w)) = jobs w.
Proof.
  intros env req res w. on_both_paths env req res w;
    intros He; try discriminate He; injection He as ->.
  - destruct H as (Hj & _ & Hst).
    destruct (Hst eq_refl) as (Hv & _ & _ & _ & Hi). eauto 10.
  - destruct H as (Hj & _ & Hst).
    destruct (Hst eq_refl) as (Hv & _ & _ & _ & Hi). eauto 10.
Qed.

(** A magnet URI is imported while the job queue is down. *)
Lemma addVideoImport_job_failure_keeps_import_witness :
  let run :=
    addVideoImport (torrentEnv jobQueueFails)
      (mkRequest magnetBody None None None) someLocals emptyWorld in
  exists videoImport video,
    videos (db (snd run)) = [] ++ [(vi_videoId videoImport, video)]
    /\ videoImports (db (snd run)) = [] ++ [videoImport]
    /\ vi_state videoImport = PENDING
    /\ jobs (snd run) = [].
Proof.
  cbv zeta.
  apply (addVideoImport_job_failure_keeps_import (torrentEnv jobQueueFails)
           (mkRequest magnetBody None None None) someLocals emptyWorld).
  reflexivity.
Defined.

(** X7. A request gets a job exactly when it is answered with status 200:
    then one job is queued, for the import record of the answer; in every
    other case (status 400, an error thrown, no source named) the job
    queue is as it was. *)
Theorem addVideoImport_one_job_iff_created :
  forall env req res w,
    let run := addVideoImport env req res w in
    if created (fst run)
    then exists p,
           jobs (snd run) = jobs w ++ [p]
           /\ payloadImportId p = next_id (videoImports (db w))
           /\ exists r videoImport,
                fst run = Ok (Some r) /\ json r = JsonImport videoImport
                /\ vi_id videoImport = payloadImportId p
    else jobs (snd run) = jobs w.
Proof.
  intros env req res w. cbv zeta. on_both_paths env req res w;
    cbn [created]; try reflexivity; try tauto.
  - destruct H as [(H400 & _ & Hj) | (-> & _ & Hj)].
    + rewrite H400. exact Hj.
    + cbn [status]. rewrite Hj. simpl. eauto 10.
  - destruct H as [(H400 & _ & Hj) | (-> & _ & Hj)].
    + rewrite H400. exact Hj.
    + cbn [status]. rewrite Hj. simpl. eauto 10.
Qed.

(** ** What no import does, whatever its outcome *)

#[local] Instance growsOnly_preorder : PreOrder growsOnly.
Proof.
  split.
  - intros w. unfold growsOnly. repeat split; reflexivity.
  - intros a b c (H1 & H2 & H3 & H4 & H5 & H6 & H7 & H8)
      (K1 & K2 & K3 & K4 & K5 & K6 & K7 & K8).
    unfold growsOnly. repeat split; etransitivity; eassumption.
Qed.

#[local] Instance sameCaptions_preorder : PreOrder sameCaptions.
Proof.
  split.
  - intros w. reflexivity.
  - intros a b c H K. unfold sameCaptions in *. congruence.
Qed.

Ltac frames_imports :=
  repeat first
    [ frames_step
    | match goal with
      | |- frames _ (transaction _ _ _) =>
          refine (frames_transaction _ _ _ _ _ _)
      end ].

Ltac solve_growsOnly :=
  unfold growsOnly; simpl;
  repeat split;
  first [ reflexivity
        | apply prefix_app_r; reflexivity
        | match goal with
          | |- context [if ?b then _ else _] => destruct b
          end;
          first [ reflexivity | apply prefix_app_r; reflexivity ] ].

Lemma importSubtitles_growsOnly env videoId subtitles :
  frames growsOnly (importSubtitles env videoId subtitles).
Proof.
  induction subtitles as [| s rest IH].
  - apply frames_ret; typeclasses eauto.
  - cbn [importSubtitles]. unfold awaitCall, inTransaction.
    frames_imports; try exact IH; try solve_growsOnly.
    intros wa wb (H1 & H2 & H3 & H4 & H5 & H6 & H7 & H8).
    unfold growsOnly. simpl. repeat split; first [reflexivity | assumption].
Qed.

(** X8. Whatever a request does and however it ends, the descriptors,
    thumbnails, blacklist entries, tag rows, import records, jobs, file
    operations and log lines that were there are still there, in their
    place: an import only adds to them. *)
Theorem addVideoImport_only_adds :
  forall env req res w,
    growsOnly w (snd (addVideoImport env req res w)).
Proof.
  intros env req res.
  change (frames growsOnly (addVideoImport env req res)).
  unfold addVideoImport, addYoutubeDLImport, addTorrentImport,
    processThumbnail, processPreview, processThumbnailFromUrl,
    processPreviewFromUrl, createVideoMiniatureFromUrl, insertIntoDB,
    addAndSaveThumbnail, createImportJob, logger, awaitCall, inTransaction.
  frames_imports.
  all: try apply importSubtitles_growsOnly.
  all: try solve_growsOnly.
  all: intros wa wb (H1 & H2 & H3 & H4 & H5 & H6 & H7 & H8);
    unfold growsOnly; simpl; repeat split; first [reflexivity | assumption].
Qed.

(** X9. A torrent import, by file or by magnet URI, never writes a
    caption, whatever its outcome. *)
Theorem addTorrentImport_leaves_captions :
  forall env req res torrentfile w,
    captions (db (snd (addTorrentImport env req res torrentfile w)))
    = captions (db w).
Proof.
  intros env req res torrentfile.
  change (frames sameCaptions (addTorrentImport env req res torrentfile)).
  unfold addTorrentImport, processThumbnail, processPreview, insertIntoDB,
    addAndSaveThumbnail, createImportJob, logger, awaitCall, inTransaction.
  frames_imports.
  all: try reflexivity.
  all: intros wa wb H; unfold sameCaptions; reflexivity.
Qed.

End ImportsMoreProofs.

(* ===================================================================== *)
(** * More theorems about videos/index.ts                                 *)
(* ===================================================================== *)

Module VideosMoreProofs.
Import Videos VideosSpec VideosMore EffFacts.

Ltac run_fates env :=
  repeat (eff_red; simpl;
          match goal with
          | |- context [fate env ?c] => destruct (fate env c) eqn:?
          end);
  eff_red; simpl.

(** ** [viewVideo] *)

(** The run of a view whose key is recorded. *)
Lemma viewVideo_recorded_run env ip vid uuid w :
  (ip, uuid) ∈ ipViews w ->
  viewVideo env ip vid uuid w
  = (if bool_decide (fate env CDoesVideoIPViewExist = Succeeds)
     then (Ok NO_CONTENT_204,
           add_event (EvLog "View for ip %s and video %s already exists.") w)
     else (Throw (Failed CDoesVideoIPViewExist), w)).
Proof.
  intros Hin. unfold viewVideo, awaitCall, emit.
  destruct (fate env CDoesVideoIPViewExist); eff_red;
    [| reflexivity | reflexivity].
  rewrite bool_decide_eq_true_2 by exact Hin. reflexivity.
Qed.

(** X10. A view whose key (address, video) is already recorded counts
    nothing: when the check goes through, the request is answered with
    status 204 and the only thing done is the debug line; when the check
    fails the request throws with the state as it was. Either way the keys,
    both counters and the tables are unchanged and nothing is sent to the
    federation. *)
Theorem viewVideo_repeated_view_not_counted :
  forall env ip vid uuid w,
    (ip, uuid) ∈ ipViews w ->
    let run := viewVideo env ip vid uuid w in
    run
    = (if bool_decide (fate env CDoesVideoIPViewExist = Succeeds)
       then (Ok NO_CONTENT_204,
             add_event (EvLog "View for ip %s and video %s already exists.") w)
       else (Throw (Failed CDoesVideoIPViewExist), w))
    /\ countersUntouched w (snd run)
    /\ db (snd run) = db w.
Proof.
  intros env ip vid uuid w Hin. cbv zeta.
  rewrite (viewVideo_recorded_run env ip vid uuid w Hin).
  split; [reflexivity |].
  destruct (bool_decide _); repeat split.
Qed.

(** The second view of a video from the same address. *)
Lemma viewVideo_repeated_view_not_counted_witness :
  let env := sampleEnv allSucceed untouched in
  let once := snd (viewVideo env "10.0.0.1" 1 "uuid-1"
                     (worldWith (sampleVideo false true))) in
  let twice := viewVideo env "10.0.0.1" 1 "uuid-1" once in
  fst twice = Ok NO_CONTENT_204
  /\ videoViews (snd twice) = videoViews once
  /\ videoViews once !! 1 = Some 1%nat.
Proof.
  cbv zeta.
  destruct (viewVideo_repeated_view_not_counted
              (sampleEnv allSucceed untouched) "10.0.0.1" 1 "uuid-1"
              (snd (viewVideo (sampleEnv allSucceed untouched) "10.0.0.1" 1
                      "uuid-1" (worldWith (sampleVideo false true)))))
    as (Hrun & (_ & Hvod & _) & _).
  { apply (bool_decide_unpack _). vm_compute. exact I. }
  split; [rewrite Hrun; reflexivity |]. split; [exact Hvod |].
  reflexivity.
Defined.



(** X12. A view request that is answered has its key recorded afterwards,
    first view or not; so the next one from the same address for the same
    video counts nothing. *)
Theorem viewVideo_answer_means_recorded :
  forall env ip vid uuid w st w',
    (forall video,
       videos (db w) !! vid = Some video -> Videos.uuid video = uuid) ->
    viewVideo env ip vid uuid w = (Ok st, w') ->
    (ip, uuid) ∈ ipViews w'
    /\ countersUntouched w' (snd (viewVideo env ip vid uuid w')).
Proof.
  intros env ip vid uuid w st w' Huuid Hrun.
  assert (Hin : (ip, uuid) ∈ ipViews w').
  { revert Hrun. unfold viewVideo, awaitCall, emit.
    destruct (fate env CDoesVideoIPViewExist); eff_red; try discriminate.
    destruct (bool_decide ((ip, uuid) ∈ ipViews w)) eqn:Hold.
    { intros [= <- <-]. exact (bool_decide_eq_true_1 _ Hold). }
    destruct (fate env CLoadVideo); eff_red; try discriminate.
    destruct (videos (db w) !! vid) as [video |] eqn:Hload;
      [| discriminate].
    specialize (Huuid video eq_refl).
    destruct (isLive video), (owned video); run_fates env; try discriminate.
    all: intros [= <- <-]; simpl; rewrite Huuid; set_solver. }
  split; [exact Hin |].
  rewrite (viewVideo_recorded_run env ip vid uuid w' Hin).
  destruct (bool_decide _); repeat split.
Qed.

(** A first view, and its repetition. *)
Lemma viewVideo_answer_means_recorded_witness :
  let env := sampleEnv allSucceed untouched in
  let once :=
    snd (viewVideo env "10.0.0.1" 1 "uuid-1"
           (worldWith (sampleVideo true true))) in
  ("10.0.0.1"%string, "uuid-1"%string) ∈ ipViews once
  /\ countersUntouched once (snd (viewVideo env "10.0.0.1" 1 "uuid-1" once)).
Proof.
  cbv zeta.
  destruct (viewVideo (sampleEnv allSucceed untouched) "10.0.0.1" 1 "uuid-1"
              (worldWith (sampleVideo true true)))
    as [[st | e] w'] eqn:Hrun; [| discriminate Hrun].
  apply (viewVideo_answer_means_recorded (sampleEnv allSucceed untouched)
           "10.0.0.1" 1 "uuid-1" (worldWith (sampleVideo true true)) st w');
    [| exact Hrun].
  intros video Hload. vm_compute in Hload. injection Hload as <-. reflexivity.
Defined.

(** X13. Counting is not undone when the request fails later: for a video
    that is not a live of this server, when the view cannot be sent to the
    federation the request throws and the hook is not run, but the key is
    recorded and the VOD counter (for a video that is not live) has its
    view; the same address will not be counted again. *)
Theorem viewVideo_failed_send_still_counts :
  forall env ip vid uuid w video,
    (ip, uuid) ∉ ipViews w ->
    videos (db w) !! vid = Some video ->
    isLive video && owned video = false ->
    (forall c, c <> CSendView -> fate env c = Succeeds) ->
    fate env CSendView = Rejects ->
    let run := viewVideo env ip vid uuid w in
    fst run = Throw (Failed CSendView)
    /\ ipViews (snd run) = {[(ip, Videos.uuid video)]} ∪ ipViews w
    /\ videoViews (snd run)
       = (if isLive video then videoViews w
          else incr (id video) (videoViews w))
    /\ appends not_Hook w (snd run).
Proof.
  intros env ip vid uuid w video Hnew Hload Hfed Hok Hsend. cbv zeta.
  unfold viewVideo, awaitCall, emit.
  rewrite (Hok CDoesVideoIPViewExist) by discriminate. eff_red.
  rewrite bool_decide_eq_false_2 by exact Hnew.
  rewrite (Hok CLoadVideo) by discriminate. eff_red.
  rewrite Hload, Hfed.
  rewrite (Hok CSetIPVideoView), (Hok CAddVideoView),
    (Hok CGetServerActor), Hsend by discriminate.
  destruct (isLive video); eff_red; simpl;
    (split; [| split; [| split]]); try reflexivity;
    unfold appends; simpl; eexists;
    (split; [rewrite <- ?app_assoc; reflexivity | reflexivity]).
Qed.

(** A view of a video of this server that is not live. *)
Lemma viewVideo_failed_send_still_counts_witness :
  let run :=
    viewVideo (sampleEnv sendViewFails untouched) "10.0.0.1" 1 "uuid-1"
      (worldWith (sampleVideo false true)) in
  fst run = Throw (Failed CSendView)
  /\ ipViews (snd run) = {[("10.0.0.1"%string, "uuid-1"%string)]} ∪ ∅
  /\ videoViews (snd run) = incr 1 ∅
  /\ appends not_Hook (worldWith (sampleVideo false true)) (snd run).
Proof.
  cbv zeta.
  apply (viewVideo_failed_send_still_counts
           (sampleEnv sendViewFails untouched) "10.0.0.1" 1 "uuid-1"
           (worldWith (sampleVideo false true)) (sampleVideo false true)).
  - apply (bool_decide_unpack _). vm_compute. exact I.
  - reflexivity.
  - reflexivity.
  - intros c Hc. destruct c; try reflexivity. now contradiction Hc.
  - reflexivity.
Defined.

(** X14. When the video is gone by the time it is loaded, the request
    throws on the first attribute it reads from it: no key is recorded and
    no counter is touched. *)
Theorem viewVideo_missing_video :
  forall env ip vid uuid w,
    (ip, uuid) ∉ ipViews w ->
    videos (db w) !! vid = None ->
    fate env CDoesVideoIPViewExist = Succeeds ->
    fate env CLoadVideo = Succeeds ->
    viewVideo env ip vid uuid w
    = (Throw (TypeError "Cannot read properties of null"), w).
Proof.
  intros env ip vid uuid w Hnew Hload Hcheck Hfind.
  unfold viewVideo, awaitCall, emit.
  rewrite Hcheck. eff_red.
  rewrite bool_decide_eq_false_2 by exact Hnew.
  rewrite Hfind. eff_red. rewrite Hload. reflexivity.
Qed.

(** The video 2 is not in the table. *)
Lemma viewVideo_missing_video_witness :
  viewVideo (sampleEnv allSucceed untouched) "10.0.0.1" 2 "uuid-2"
    (worldWith (sampleVideo false true))
  = (Throw (TypeError "Cannot read properties of null"),
     worldWith (sampleVideo false true)).
Proof.
  apply (viewVideo_missing_video (sampleEnv allSucceed untouched)
           "10.0.0.1" 2 "uuid-2" (worldWith (sampleVideo false true)));
    [ apply (bool_decide_unpack _); vm_compute; exact I
    | reflexivity | reflexivity | reflexivity ].
Defined.

(** ** [updateVideo] *)

#[local] Existing Instance VideosProofs.appends_preorder.

Lemma stable_assignIfDefined {T} (f : Video -> T) x set v :
  (forall y u, f (set y u) = f u) ->
  f (assignIfDefined x set v) = f v.
Proof. intros H. unfold assignIfDefined. destruct (strict_neq _ _); auto. Qed.

Lemma strict_neq_true x y : x <> y -> strict_neq x y = true.
Proof.
  intros H. unfold strict_neq. now rewrite bool_decide_eq_false_2.
Qed.

(** An attribute the body gives a value for holds that value after the
    assignments. *)
Lemma attribute_assignFields_mentioned a p v :
  mentioned a p <> VUndefined ->
  (a = AOriginallyPublishedAt -> mentioned a p <> VNull) ->
  attribute a (assignFields p v) = assigned a p.
Proof.
  intros Hdef Hnull. unfold assignFields. cbv zeta.
  destruct a; cbn [mentioned attribute assigned] in *.
  11: { rewrite !strict_neq_true by auto. cbn [andb].
        match goal with
        | |- originallyPublishedAt (set_originallyPublishedAt _ ?u) = _ =>
            generalize u; intros u'; now destruct u'
        end. }
  all: match goal with
       | |- ?f (if ?b then set_originallyPublishedAt ?x ?u else ?u) = _ =>
           transitivity (f u);
           [destruct b; [generalize u; intros u'; now destruct u' |
                         reflexivity] |]
       end.
  all: repeat (rewrite stable_assignIfDefined;
               [| intros y u; destruct u; reflexivity]).
  all: unfold assignIfDefined at 1; rewrite strict_neq_true by exact Hdef;
    match goal with
    | |- _ (_ _ ?u) = _ => generalize u; intros u'; now destruct u'
    end.
Qed.

(** X15. After a successful update every attribute the body gives a value
    for holds that value, in the instance and in the stored row: the value
    as it is, be it [null], [false], [0] or the empty string, and for
    [originallyPublishedAt] (neither absent nor [null]) the date made of
    it. *)
Theorem updateVideo_mentioned_attribute_stored :
  forall env p channel w r w' a,
    updateVideo env p channel w = (Ok r, w') ->
    mentioned a p <> VUndefined ->
    (a = AOriginallyPublishedAt -> mentioned a p <> VNull) ->
    attribute a (videoInstance w') = assigned a p
    /\ exists row,
         videos (db w') !! id (videoInstance w) = Some row
         /\ attribute a row = assigned a p.
Proof.
  intros env p ch w r w' a Hrun Hdef Hnull.
  apply VideosProofs.updateVideo_ok in Hrun. cbv zeta in Hrun.
  destruct Hrun as (-> & Hrow & _).
  pose proof (attribute_assignFields_mentioned a p (videoInstance w)
                Hdef Hnull) as Hassign.
  rewrite <- (VideosProofs.attribute_withPrivacy a p) in Hassign.
  split.
  - unfold updatedInstance. cbv zeta. rewrite <- Hassign.
    generalize (withPrivacy p (assignFields p (videoInstance w))). intros u.
    destruct (newChannel ch u); [| reflexivity]. now destruct u, a.
  - eexists. split; [exact Hrow |].
    unfold persistedRow. cbv zeta. rewrite <- Hassign.
    generalize (withPrivacy p (assignFields p (videoInstance w))). intros u.
    destruct (newChannel ch u); [| reflexivity]. now destruct u, a.
Qed.

(** An update that empties the name, the category and the support text
    and turns [nsfw] off. *)
Lemma updateVideo_mentioned_attribute_stored_witness :
  let run :=
    updateVideo (sampleEnv allSucceed untouched) falsyPatch None
      (worldWith (sampleVideo false true)) in
  nsfw (videoInstance (snd run)) = VBool false
  /\ exists row,
       videos (db (snd run)) !! 1 = Some row /\ nsfw row = VBool false.
Proof.
  cbv zeta.
  destruct (updateVideo (sampleEnv allSucceed untouched) falsyPatch None
              (worldWith (sampleVideo false true)))
    as [[r | e] w'] eqn:Hrun; [| discriminate Hrun].
  apply (updateVideo_mentioned_attribute_stored
           (sampleEnv allSucceed untouched) falsyPatch None
           (worldWith (sampleVideo false true)) r w' ANsfw Hrun);
    [discriminate | discriminate].
Defined.

Lemma channelId_prepared p v :
  channelId (withPrivacy p (assignFields p v)) = channelId v.
Proof.
  transitivity (channelId (assignFields p v)).
  { unfold withPrivacy, setPrivacy. destruct (Patch.privacy p); [| reflexivity].
    generalize (assignFields p v). intros u. now destruct u. }
  unfold assignFields. cbv zeta.
  match goal with
  | |- ?f (if ?b then set_originallyPublishedAt ?x ?u else ?u) = _ =>
      transitivity (f u);
      [destruct b; [generalize u; intros u'; now destruct u' | reflexivity] |]
  end.
  repeat (rewrite stable_assignIfDefined;
          [| intros y u; destruct u; reflexivity]).
  reflexivity.
Qed.

(** X16. A successful update given a channel other than the one of the
    video moves the video there: the instance and the stored row carry the
    new channel id, and the instance its new channel. Given no channel, or
    the channel the video is in, the channel stays. *)
Theorem updateVideo_channel_reassigned :
  forall env p channel w r w',
    updateVideo env p channel w = (Ok r, w') ->
    let moved :=
      match channel with
      | Some c => if channelId (videoInstance w) =? c then None else Some c
      | None => None
      end in
    channelId (videoInstance w')
    = default (channelId (videoInstance w)) moved
    /\ (forall c, moved = Some c -> VideoChannel (videoInstance w') = c)
    /\ exists row,
         videos (db w') !! id (videoInstance w) = Some row
         /\ channelId row = default (channelId (videoInstance w)) moved.
Proof.
  intros env p ch w r w' Hrun. cbv zeta.
  apply VideosProofs.updateVideo_ok in Hrun. cbv zeta in Hrun.
  destruct Hrun as (-> & Hrow & _).
  pose proof (channelId_prepared p (videoInstance w)) as Hch.
  unfold updatedInstance, persistedRow, newChannel in *. cbv zeta in *.
  revert Hrow Hch.
  generalize (withPrivacy p (assignFields p (videoInstance w))). intros u.
  intros Hrow Hch. rewrite Hch in *.
  destruct ch as [c |]; [destruct (channelId (videoInstance w) =? c) |];
    cbn [default].
  - split; [exact Hch |]. split; [discriminate |]. eauto.
  - split; [now destruct u |]. split; [intros ? [= <-]; now destruct u |].
    eexists. split; [exact Hrow |]. now destruct u.
  - split; [exact Hch |]. split; [discriminate |]. eauto.
Qed.

(** The video of channel 7 is moved to channel 8. *)
Lemma updateVideo_channel_reassigned_witness :
  let run :=
    updateVideo (sampleEnv allSucceed untouched) descriptionPatch (Some 8)
      (worldWith (sampleVideo false true)) in
  channelId (videoInstance (snd run)) = 8
  /\ (forall c, Some 8 = Some c -> VideoChannel (videoInstance (snd run)) = c)
  /\ exists row, videos (db (snd run)) !! 1 = Some row /\ channelId row = 8.
Proof.
  cbv zeta.
  destruct (updateVideo (sampleEnv allSucceed untouched) descriptionPatch
              (Some 8) (worldWith (sampleVideo false true)))
    as [[r | e] w'] eqn:Hrun; [| discriminate Hrun].
  exact (updateVideo_channel_reassigned (sampleEnv allSucceed untouched)
           descriptionPatch (Some 8) (worldWith (sampleVideo false true))
           r w' Hrun).
Defined.

(** X17. A successful update whose body schedules a change stores, for
    this video, the date made of [updateAt] and the privacy given, [null]
    when the body gives none; the scheduled changes of the other videos are
    as they were. *)
Theorem updateVideo_schedule_stored :
  forall env p channel w r w' updateAt privacy,
    updateVideo env p channel w = (Ok r, w') ->
    Patch.scheduleUpdate p = ScheduleObject updateAt privacy ->
    schedules (db w') !! id (videoInstance w)
    = Some (mkSchedule (newDate updateAt) (privacy || VNull)%js)
    /\ forall other,
         other <> id (videoInstance w) ->
         schedules (db w') !! other = schedules (db w) !! other.
Proof.
  intros env p ch w r w' updateAt privacy Hrun Hs.
  apply VideosProofs.updateVideo_ok in Hrun. cbv zeta in Hrun.
  destruct Hrun as (_ & _ & -> & _).
  unfold scheduled. rewrite Hs. split.
  - apply lookup_insert_eq.
  - intros other Hne. now apply lookup_insert_ne.
Qed.

(** A change is scheduled without a privacy, over the one there was. *)
Lemma updateVideo_schedule_stored_witness :
  let run :=
    updateVideo (sampleEnv allSucceed untouched) schedulePatch None
      (worldWith (sampleVideo false true)) in
  schedules (db (snd run)) !! 1
  = Some (mkSchedule (VDate (VStr "2031-05-01")) VNull)
  /\ forall other,
       other <> 1 ->
       schedules (db (snd run)) !! other
       = schedules (db (worldWith (sampleVideo false true))) !! other.
Proof.
  cbv zeta.
  destruct (updateVideo (sampleEnv allSucceed untouched) schedulePatch None
              (worldWith (sampleVideo false true)))
    as [[r | e] w'] eqn:Hrun; [| discriminate Hrun].
  exact (updateVideo_schedule_stored (sampleEnv allSucceed untouched)
           schedulePatch None (worldWith (sampleVideo false true)) r w'
           (VStr "2031-05-01") VUndefined Hrun eq_refl).
Defined.

(** The steps that add events of the kind [ok] only. *)
Ltac solve_ok_events :=
  first
    [ apply VideosProofs.appends_refl
    | apply VideosProofs.appends_event; reflexivity
    | exists []; split; [simpl; symmetry; apply app_nil_r | reflexivity]
    | intros ? ? (t & Ht & Hok); exists t; split; [exact Ht | exact Hok] ].

Lemma updatePrivacy_no_delete env p had :
  match Patch.privacy p with
  | Some privacy =>
      had && negb (isPrivacyForFederation env (parseInt_toString privacy))
  | None => false
  end = false ->
  frames (appends not_SendDelete) (updatePrivacy env p had).
Proof.
  intros H w. unfold updatePrivacy.
  destruct (Patch.privacy p) as [privacy |]; [| apply VideosProofs.appends_refl].
  eff_red. cbn [videoInstance upd_videoInstance set_videoInstance].
  unfold hasPrivacyForFederation, setPrivacy.
  rewrite VideosProofs.privacy_set_privacy, H. simpl.
  exists []. split; [simpl; symmetry; apply app_nil_r | reflexivity].
Qed.

(** X18. An update retracts the video from the federation only when it
    moves the privacy from one open to federation to one that is not: in
    every other case (no privacy in the body, a video that was not
    federated, a new privacy open to federation) no [sendDelete] is issued,
    however the update ends. *)
Theorem updateVideo_retracts_only_when_closing :
  forall env p channel w,
    unfederates env p (videoInstance w) = false ->
    appends not_SendDelete w (snd (updateVideo env p channel w)).
Proof.
  intros env p ch w H. unfold unfederates in H.
  unfold updateVideo, awaitCall.
  unfold bind at 1, gets at 1. cbv beta iota.
  match goal with
  | |- appends ?ok ?w0 (snd (?m ?w0)) =>
      enough (frames (appends ok) m) as Hf by exact (Hf w0)
  end.
  unfold updateVideoTry, updateVideoTransaction, inTransaction,
    resetSequelizeInstance, saveVideo, addAndSaveThumbnail, updateTags,
    updateChannel, updateSchedule, finishUpdate, awaitCall, emit.
  repeat first
    [ match goal with
      | |- frames _ (updatePrivacy _ _ _) =>
          apply updatePrivacy_no_delete; exact H
      | |- frames _ (transaction _ _ _) =>
          refine (frames_transaction _ _ _ _ _ _)
      end
    | frames_step ].
  all: solve_ok_events.
Qed.

(** A public video is given a new description. *)
Lemma updateVideo_retracts_only_when_closing_witness :
  appends not_SendDelete (worldWith (sampleVideo false true))
    (snd (updateVideo (sampleEnv allSucceed untouched) descriptionPatch None
            (worldWith (sampleVideo false true)))).
Proof.
  apply (updateVideo_retracts_only_when_closing
           (sampleEnv allSucceed untouched) descriptionPatch None
           (worldWith (sampleVideo false true))).
  reflexivity.
Defined.






(** X20. The notification of a new video is only sent for a video that
    was confidential before the update: for any other video no update
    sends it, however the update ends. *)
Theorem updateVideo_notifies_only_confidential :
  forall env p channel w,
    isConfidential env (videoInstance w) = false ->
    appends not_Notify w (snd (updateVideo env p channel w)).
Proof.
  intros env p ch w H.
  unfold updateVideo, awaitCall.
  unfold bind at 1, gets at 1. cbv beta iota. rewrite H.
  match goal with
  | |- appends ?ok ?w0 (snd (?m ?w0)) =>
      enough (frames (appends ok) m) as Hf by exact (Hf w0)
  end.
  unfold updateVideoTry, updateVideoTransaction, inTransaction,
    resetSequelizeInstance, updatePrivacy, saveVideo, addAndSaveThumbnail,
    updateTags, updateChannel, updateSchedule, finishUpdate, awaitCall, emit.
  repeat first
    [ match goal with
      | |- frames _ (transaction _ _ _) =>
          refine (frames_transaction _ _ _ _ _ _)
      end
    | frames_step ].
  all: solve_ok_events.
Qed.

(** A video that was not confidential is made private. *)
Lemma updateVideo_notifies_only_confidential_witness :
  appends not_Notify (worldWith (sampleVideo false true))
    (snd (updateVideo (sampleEnv allSucceed untouched) privatePatch None
            (worldWith (sampleVideo false true)))).
Proof.
  apply (updateVideo_notifies_only_confidential
           (sampleEnv allSucceed untouched) privatePatch None
           (worldWith (sampleVideo false true))).
  reflexivity.
Defined.

(** ** The chain [addVideo] leaves behind *)

#[local] Instance torrentStage_preorder : PreOrder torrentStage.
Proof.
  split.
  - intros w. split; [reflexivity | apply VideosProofs.appends_refl].
  - intros a b c [H1 H2] [K1 K2]. split; [congruence |].
    eapply VideosProofs.appends_trans; eassumption.
Qed.

Lemma createTorrentDetached_stage env video videoFile :
  frames torrentStage (createTorrentDetached env video videoFile).
Proof.
  unfold createTorrentDetached, createTorrentAndSetInfoHashAsync,
    createTorrentAndSetInfoHash, removeTorrent, awaitCall, emit.
  destruct (createdTorrent env video videoFile) as [hash filename].
  repeat frames_step.
  all: split; [reflexivity | solve_ok_events].
Qed.

(** X21. The chain started by [addVideo] never throws, whatever fails in
    it. What it asks of the outside is the torrent stage first and the
    rest after it: no announcement of the video comes before the torrent
    stage is over. When the video is not in the table any more, nothing is
    announced at all. *)
Theorem addVideoDetached_torrent_first :
  forall env video videoFile w,
    let run := addVideoDetached env video videoFile w in
    fst run = Ok tt
    /\ (exists t t',
          trace (snd run) = trace w ++ t ++ t'
          /\ forallb torrentEvent t = true
          /\ forallb (fun e => negb (torrentEvent e)) t' = true)
    /\ (videos (db w) !! id video = None ->
        appends (fun e => negb (announces e)) w (snd run)).
Proof.
  intros env video videoFile w. cbv zeta.
  pose proof (VideosProofs.createTorrentDetached_never_throws
                env video videoFile w) as Hok.
  destruct (createTorrentDetached_stage env video videoFile w)
    as (Hvideos & t & Ht & Htok).
  destruct (addVideoDetached env video videoFile w) as [r w'] eqn:Hrun.
  cbn [fst snd]. revert Hrun. unfold addVideoDetached.
  unfold try_catch at 1, bind at 1.
  destruct (createTorrentDetached env video videoFile w) as [[[] | e] w1];
    [| discriminate Hok].
  cbn [snd] in Hvideos, Ht. unfold awaitCall, emit.
  assert (Hquiet : forall t',
            forallb (fun e => negb (announces e)) t' = true ->
            appends (fun e => negb (announces e)) w
              (mkWorld (db w1) (videoInstance w1) (ipViews w1) (videoViews w1)
                 (liveViews w1) (torrents w1) (trace w1 ++ t'))).
  { intros t' Ht'. exists (t ++ t'). simpl. rewrite Ht, <- app_assoc.
    split; [reflexivity |]. rewrite forallb_app, Ht', andb_true_r.
    clear - Htok. induction t as [| e t IH]; [reflexivity |].
    simpl in *. apply andb_prop in Htok as [He Hrest].
    rewrite (IH Hrest), andb_true_r. now destruct e. }
  destruct (fate env CLoadVideo); eff_red; cbn [fst snd trace add_event];
    rewrite ?Hvideos.
  1: destruct (videos (db w) !! id video) as [v |] eqn:Hv;
       run_fates env.
  all: intros [= <- <-]; split; [reflexivity |]; split.
  all: try (intros Hnone; try discriminate Hnone).
  all: try (exists t; eexists; cbn [trace add_event];
            rewrite Ht, <- ?app_assoc;
            split; [reflexivity | split; [exact Htok | reflexivity]]).
  all: try (exists t, []; rewrite app_nil_r;
            split; [exact Ht | split; [exact Htok | reflexivity]]).
  all: try (apply (Hquiet [_]); reflexivity).
  all: try (destruct w1; specialize (Hquiet []); simpl in Hquiet;
            rewrite app_nil_r in Hquiet; apply Hquiet; reflexivity).
Qed.

(** X22. The announcement does not depend on the torrent: when the video
    is still in the table and loading, notifying and federating go
    through, the chain ends with the notification and the federation of
    the loaded video as a new one, whether the torrent was created or its
    creation failed (and was logged). *)
Theorem addVideoDetached_announces_whatever_the_torrent :
  forall env video videoFile w v,
    videos (db w) !! id video = Some v ->
    fate env CLoadVideo = Succeeds ->
    fate env CNotifyOnNewVideo = Succeeds ->
    fate env CFederate = Succeeds ->
    exists t,
      trace (snd (addVideoDetached env video videoFile w))
      = trace w ++ t ++ [EvNotifyOnNewVideo (id v); EvFederate v true]
      /\ forallb torrentEvent t = true.
Proof.
  intros env video videoFile w v Hv Hload Hnotify Hfed.
  pose proof (VideosProofs.createTorrentDetached_never_throws
                env video videoFile w) as Hok.
  destruct (createTorrentDetached_stage env video videoFile w)
    as (Hvideos & t & Ht & Htok).
  unfold addVideoDetached. unfold try_catch at 1, bind at 1.
  destruct (createTorrentDetached env video videoFile w) as [[[] | e] w1];
    [| discriminate Hok].
  cbn [snd] in Hvideos, Ht. unfold awaitCall, emit.
  rewrite Hload, Hnotify, Hfed. eff_red. rewrite Hvideos, Hv.
  exists t. cbn [snd trace add_event]. rewrite Ht, <- !app_assoc.
  split; [reflexivity | exact Htok].
Qed.

(** The creation of the torrent fails. *)
Lemma addVideoDetached_announces_whatever_the_torrent_witness :
  exists t,
    trace (snd (addVideoDetached (sampleEnv torrentFails untouched)
                  (sampleVideo false true) sampleFile
                  (worldWith (sampleVideo false true))))
    = [] ++ t ++ [EvNotifyOnNewVideo 1;
                  EvFederate (sampleVideo false true) true]
    /\ forallb torrentEvent t = true.
Proof.
  apply (addVideoDetached_announces_whatever_the_torrent
           (sampleEnv torrentFails untouched) (sampleVideo false true)
           sampleFile (worldWith (sampleVideo false true))
           (sampleVideo false true));
    reflexivity.
Defined.

End VideosMoreProofs.

(* ===================================================================== *)
(** * Theorems about uploads                                              *)
(* ===================================================================== *)

Module UploadProofs.
Import Upload UploadSpec EffFacts.
Import ImportsMoreProofs.

Ltac run_fates env :=
  repeat (eff_red; simpl;
          match goal with
          | |- context [fate env ?c] => destruct (fate env c) eqn:?
          end);
  eff_red; simpl.

(** The transaction of an upload: everything or nothing. *)
Lemma addVideoTransaction_outcomes env ch info files f w :
  let run :=
    inTransaction
      (addVideoTransaction env ch info (builtVideo env ch info f)
         (namedVideoFile env ch info f)
         (fst (buildVideoThumbnailsFromReq env (builtVideo env ch info f) files))
         (snd (buildVideoThumbnailsFromReq env (builtVideo env ch info f) files)))
      w in
  match fst run with
  | Throw e => snd run = w /\ ~ afterCommit e /\ ~ beforeMove e
  | Ok created =>
      created = (createdVideo env ch info (db w) f, fileRow env ch info (db w) f)
      /\ stored env ch info files f (db w) (db (snd run))
      /\ physicalFile (snd run) = physicalFile w
      /\ moves (snd run) = moves w
      /\ jobs (snd run) = jobs w
      /\ detached (snd run) = detached w
  end.
Proof.
  cbv zeta.
  unfold inTransaction, addVideoTransaction, addAndSaveThumbnail, awaitCall,
    emit, stored, scheduleRows, afterCommit, beforeMove.
  destruct w as [d pf md mv j dt tr].
  destruct (buildVideoThumbnailsFromReq env (builtVideo env ch info f) files)
    as [th pv].
  destruct (vc_scheduleUpdate info) as [| | updateAt privacy]; run_fates env.
  all: first
    [ solve [split; [reflexivity |]; split; intros [H | H];
             try discriminate H; destruct H as [H | [H | H]];
             discriminate H]
    | solve [repeat split; simpl; rewrite <- ?app_assoc, ?app_nil_r;
             first [ reflexivity
                   | destruct (autoBlacklisted _ _); reflexivity ]] ].
Qed.

(** Every way [addVideo] can end. *)
Lemma addVideo_outcomes env ch info files w :
  let f := physicalFile w in
  let run := addVideo env ch info files w in
  match fst run with
  | Ok r =>
      r = mkResponse (id (createdVideo env ch info (db w) f))
                     (uuid (createdVideo env ch info (db w) f))
      /\ committed env ch info files w (snd run)
      /\ jobs (snd run)
         = jobs w
           ++ (if TRANSCODING_ENABLED env
               then [(createdVideo env ch info (db w) f,
                      fileRow env ch info (db w) f)]
               else [])
  | Throw e =>
      (afterCommit e
       /\ committed env ch info files w (snd run)
       /\ (e = Failed CAddOptimizeOrMergeAudioJob -> jobs (snd run) = jobs w))
      \/ (beforeMove e /\ snd run = w)
      \/ (~ afterCommit e /\ ~ beforeMove e
          /\ snd run
             = set_physicalFile (movedFile env ch info f)
                 (add_move (path f) (destination env ch info f) w))
  end.
Proof.
  cbv zeta.
  destruct (addVideo env ch info files w) as [r w'] eqn:H.
  cbn [fst snd]. unfold addVideo in H.
  split_bind H pf w0 Hg; [| discriminate Hg].
  unfold gets in Hg. injection Hg as <- <-.
  cbv zeta in H.
  change (set_url _ (set_VideoChannel ch (set_duration _ (set_state _ _))))
    with (builtVideo env ch info (physicalFile w)) in H.
  (* the metadata *)
  split_bind H metadata w1 Hmd; unfold awaitCall in Hmd;
    apply call_inv in Hmd as [[_ Hmd] | (_ & Hmd & ->)];
    try discriminate Hmd.
  2: { injection Hmd as ->. right. left. split; [left |]; reflexivity. }
  unfold ret in Hmd. injection Hmd as <- <-.
  fold (newVideoFile env (physicalFile w)) in H.
  (* the resolution *)
  pose proof (eq_refl (namedVideoFile env ch info (physicalFile w))) as Hn.
  unfold namedVideoFile at 2 in Hn. cbv zeta in Hn.
  split_bind H videoFile w2 Hvf.
  2: { revert Hvf. unfold awaitCall.
       destruct (isAudio env (newVideoFile env (physicalFile w)));
         run_fates env; intros [= <- <-]; right; left;
         (split; [| reflexivity]); unfold beforeMove; auto. }
  assert (Hsized :
    w2 = w
    /\ set_filename
         (generateVideoFilename env (builtVideo env ch info (physicalFile w))
            false (f_resolution videoFile) (f_extname videoFile))
         videoFile
       = namedVideoFile env ch info (physicalFile w)).
  { revert Hvf. unfold awaitCall. rewrite Hn.
    destruct (isAudio env (newVideoFile env (physicalFile w)));
      run_fates env; intros [= <- <-]; split; reflexivity. }
  clear Hvf Hn. destruct Hsized as [-> Hn]. rewrite !Hn in H. clear Hn.
  fold (destination env ch info (physicalFile w)) in H.
  fold (movedFile env ch info (physicalFile w)) in H.
  (* the move *)
  split_bind H u w3 Hmove; unfold awaitCall in Hmove;
    apply call_inv in Hmove as [[_ Hmove] | (_ & Hmove & ->)];
    try discriminate Hmove.
  2: { injection Hmove as ->. right. left.
       split; [| reflexivity]. unfold beforeMove. auto. }
  unfold modify in Hmove. injection Hmove as _ <-.
  split_bind H u' w4 Hset; [| discriminate Hset].
  unfold modify in Hset. injection Hset as _ <-.
  (* the thumbnails *)
  split_bind H thumbs w5 Hth; unfold awaitCall in Hth;
    apply call_inv in Hth as [[_ Hth] | (_ & Hth & ->)];
    try discriminate Hth.
  2: { injection Hth as ->. right. right.
       split; [| split; [| reflexivity]];
         unfold afterCommit, beforeMove; intros Hx;
         repeat (destruct Hx as [Hx | Hx]); discriminate Hx. }
  unfold ret in Hth. injection Hth as <- <-.
  (* the transaction *)
  pose proof (addVideoTransaction_outcomes env ch info files (physicalFile w)
                (set_physicalFile (movedFile env ch info (physicalFile w))
                   (add_move (path (physicalFile w))
                      (destination env ch info (physicalFile w)) w))) as Q.
  cbv zeta in Q.
  destruct (buildVideoThumbnailsFromReq env
              (builtVideo env ch info (physicalFile w)) files)
    as [th pv] eqn:Hb.
  cbn [fst snd] in Q.
  split_bind H created w6 Htx; rewrite Htx in Q; cbn [fst snd] in Q.
  2: { destruct Q as (-> & Hnot1 & Hnot2). right. right. auto. }
  cbn [db set_physicalFile add_move set_db physicalFile moves jobs detached]
    in Q.
  destruct Q as (-> & Hst & Hpf & Hmv & Hj & Hdt).
  assert (Hcommitted : forall w'',
            db w'' = db w6 -> physicalFile w'' = physicalFile w6 ->
            moves w'' = moves w6 ->
            detached w''
            = detached w6 ++ [(createdVideo env ch info (db w) (physicalFile w),
                               fileRow env ch info (db w) (physicalFile w))] ->
            committed env ch info files w w'').
  { intros w'' E1 E2 E3 E4. unfold committed. cbv zeta.
    rewrite E1, E2, E3, E4, Hpf, Hmv, Hdt.
    split; [exact Hst | repeat split]. }
  clear Htx Hst Hpf Hmv Hdt.
  split_bind H u2 w7 Hd; [| discriminate Hd].
  unfold modify in Hd. injection Hd as _ <-.
  change (state (createdVideo env ch info (db w) (physicalFile w)))
    with (if TRANSCODING_ENABLED env then TO_TRANSCODE else PUBLISHED) in H.
  unfold awaitCall, emit in H. revert H.
  destruct (TRANSCODING_ENABLED env); run_fates env; intros [= <- <-].
  all: first
    [ solve [split; [reflexivity |]; split;
             [apply Hcommitted; reflexivity
             | simpl; rewrite Hj, ?app_nil_r; reflexivity]]
    | solve [left; split; [unfold afterCommit; auto |]; split;
             [apply Hcommitted; reflexivity
             | intros _; simpl; exact Hj]]
    | solve [left; split; [unfold afterCommit; auto |]; split;
             [apply Hcommitted; reflexivity
             | intros Hx; discriminate Hx]] ].
Qed.

(** ** [addVideo] *)

(** X23. An upload that is answered has stored, in one transaction, the
    video (in the state [TO_TRANSCODE] when the server transcodes, else
    [PUBLISHED], with the duration the request file carries), its two
    thumbnails, its file (pointing to the video; with the default audio
    resolution and no frame rate when the file is audio, else with the
    frame rate and resolution read from the file), the tags of the
    request, the scheduled change if the request has one (its privacy
    [null] when none is given) and the blacklist entry if any, and has
    marked the channel as updated; the file is moved to its destination
    and the request file points there; the chain of the torrent is
    started; a transcoding job is asked for exactly when the server
    transcodes; and the answer carries the id and the uuid of the video. *)
Theorem addVideo_created :
  forall env videoChannel_id videoInfo files w r w',
    addVideo env videoChannel_id videoInfo files w = (Ok r, w') ->
    let f := physicalFile w in
    let video := createdVideo env videoChannel_id videoInfo (db w) f in
    let videoFile := fileRow env videoChannel_id videoInfo (db w) f in
    r = mkResponse (Some (next_id (videos (db w)))) (uuid video)
    /\ committed env videoChannel_id videoInfo files w w'
    /\ jobs w'
       = jobs w ++ (if TRANSCODING_ENABLED env then [(video, videoFile)]
                    else [])
    /\ state video
       = (if TRANSCODING_ENABLED env then TO_TRANSCODE else PUBLISHED)
    /\ duration video = up_duration f
    /\ f_videoId videoFile = Some (next_id (videos (db w)))
    /\ f_resolution videoFile
       = Some (if isAudio env (newVideoFile env f)
               then DEFAULT_AUDIO_RESOLUTION env
               else getVideoFileResolution env (path f))
    /\ f_fps videoFile
       = (if isAudio env (newVideoFile env f) then None
          else Some (getVideoFileFPS env (path f))).
Proof.
  intros env ch info files w r w' Hrun. cbv zeta.
  pose proof (addVideo_outcomes env ch info files w) as H.
  cbv zeta in H. rewrite Hrun in H. cbn [fst snd] in H.
  destruct H as (-> & Hc & Hj).
  split; [reflexivity |]. split; [exact Hc |]. split; [exact Hj |].
  split; [reflexivity |]. split; [reflexivity |]. split; [reflexivity |].
  unfold fileRow, namedVideoFile. cbv zeta.
  destruct (isAudio env (newVideoFile env (physicalFile w))); split;
    reflexivity.
Qed.

(** A video file is uploaded to a server that transcodes. *)
Lemma addVideo_created_witness :
  let run :=
    addVideo (sampleEnv allSucceed true) 7 sampleInfo noFiles
      (worldWith videoUpload) in
  fst run = Ok (mkResponse (Some 1) "uuid-9")
  /\ length (jobs (snd run)) = 1%nat
  /\ moves (snd run) = [("/tmp/upload-7", "/var/videos/uuid-9.mp4")]%string
  /\ schedules (db (snd run))
     = [mkSchedule (Some 1) (VDate (VStr "2031-05-01")) VNull].
Proof.
  cbv zeta.
  destruct (addVideo (sampleEnv allSucceed true) 7 sampleInfo noFiles
              (worldWith videoUpload))
    as [[r | e] w'] eqn:Hrun; [| discriminate Hrun].
  destruct (addVideo_created (sampleEnv allSucceed true) 7 sampleInfo noFiles
              (worldWith videoUpload) r w' Hrun)
    as (-> & ((_ & _ & _ & _ & Hs & _) & Hm & _) & Hj & _).
  cbn [fst snd]. rewrite Hj, Hm, Hs. repeat split.
Defined.

(** X24. An upload that throws before its transaction is committed
    leaves every table as it was, starts no chain and asks for no job.
    When what failed is reading the file or moving it, the state is
    untouched; otherwise the file stays moved to its destination and the
    request file points there, which is where a new attempt of the
    request starts from. *)
Theorem addVideo_failure_before_commit :
  forall env videoChannel_id videoInfo files w e w',
    addVideo env videoChannel_id videoInfo files w = (Throw e, w') ->
    ~ afterCommit e ->
    let f := physicalFile w in
    db w' = db w /\ jobs w' = jobs w /\ detached w' = detached w
    /\ trace w' = trace w
    /\ ((beforeMove e /\ w' = w)
        \/ (~ beforeMove e
            /\ moves w'
               = moves w
                 ++ [(path f, destination env videoChannel_id videoInfo f)]
            /\ physicalFile w'
               = movedFile env videoChannel_id videoInfo f)).
Proof.
  intros env ch info files w e w' Hrun Hnot. cbv zeta.
  pose proof (addVideo_outcomes env ch info files w) as H.
  cbv zeta in H. rewrite Hrun in H. cbn [fst snd] in H.
  destruct H as [(Hafter & _) | [(Hbefore & ->) | (_ & Hmoved & ->)]].
  - contradiction.
  - repeat split. left. auto.
  - repeat split. right. auto.
Qed.

(** Saving the row of the file fails. *)
Lemma addVideo_failure_before_commit_witness :
  let run :=
    addVideo (sampleEnv fileSaveFails true) 7 sampleInfo noFiles
      (worldWith videoUpload) in
  db (snd run) = emptyDb /\ jobs (snd run) = [] /\ detached (snd run) = []
  /\ moves (snd run) = [("/tmp/upload-7", "/var/videos/uuid-9.mp4")]%string
  /\ path (physicalFile (snd run)) = "/var/videos/uuid-9.mp4"%string.
Proof.
  cbv zeta.
  destruct (addVideo (sampleEnv fileSaveFails true) 7 sampleInfo noFiles
              (worldWith videoUpload))
    as [[r | e] w'] eqn:Hrun; [discriminate Hrun |].
  assert (He : e = Failed CVideoFileSave).
  { pose proof Hrun as Hrun'. vm_compute in Hrun'.
    now injection Hrun' as <- _. }
  destruct (addVideo_failure_before_commit (sampleEnv fileSaveFails true) 7
              sampleInfo noFiles (worldWith videoUpload) e w' Hrun)
    as (Hd & Hj & Hdt & _ & [(Hb & _) | (_ & Hm & Hp)]).
  - rewrite He. intros [Hx | Hx]; discriminate Hx.
  - rewrite He in Hb. repeat (destruct Hb as [Hb | Hb]); discriminate Hb.
  - cbn [snd]. rewrite Hd, Hj, Hdt, Hm, Hp. repeat split.
Defined.

(** X25. An upload that throws after its transaction is committed (the
    transcoding job cannot be asked for, or the hook throws) gives no
    answer, yet the video and its rows are stored, the file is moved and
    the chain of the torrent is started; when it is the job that failed,
    no job is queued. *)
Theorem addVideo_failure_after_commit :
  forall env videoChannel_id videoInfo files w e w',
    addVideo env videoChannel_id videoInfo files w = (Throw e, w') ->
    afterCommit e ->
    committed env videoChannel_id videoInfo files w w'
    /\ (e = Failed CAddOptimizeOrMergeAudioJob -> jobs w' = jobs w).
Proof.
  intros env ch info files w e w' Hrun Hafter.
  pose proof (addVideo_outcomes env ch info files w) as H.
  cbv zeta in H. rewrite Hrun in H. cbn [fst snd] in H.
  destruct H as [(_ & H) | [(Hbefore & _) | (Hnot & _)]].
  - exact H.
  - destruct Hafter as [-> | ->];
      repeat (destruct Hbefore as [Hbefore | Hbefore]); discriminate Hbefore.
  - contradiction.
Qed.

(** The transcoding job cannot be created. *)
Lemma addVideo_failure_after_commit_witness :
  let run :=
    addVideo (sampleEnv jobFails true) 7 sampleInfo noFiles
      (worldWith videoUpload) in
  fst run = Throw (Failed CAddOptimizeOrMergeAudioJob)
  /\ length (videos (db (snd run))) = 1%nat
  /\ length (detached (snd run)) = 1%nat
  /\ jobs (snd run) = [].
Proof.
  cbv zeta.
  destruct (addVideo (sampleEnv jobFails true) 7 sampleInfo noFiles
              (worldWith videoUpload))
    as [[r | e] w'] eqn:Hrun; [discriminate Hrun |].
  assert (He : e = Failed CAddOptimizeOrMergeAudioJob).
  { pose proof Hrun as Hrun'. vm_compute in Hrun'.
    now injection Hrun' as <- _. }
  destruct (addVideo_failure_after_commit (sampleEnv jobFails true) 7
              sampleInfo noFiles (worldWith videoUpload) e w' Hrun)
    as (((Hv & _) & _ & _ & Hdt) & Hj).
  - rewrite He. left. reflexivity.
  - cbn [fst snd]. rewrite He, Hv, Hdt, (Hj He). repeat split.
Defined.


(** X26. An audio file is not probed: for a file the model takes for
    audio, the upload runs the same whatever reading the frame rate or the
    resolution of the file would do. *)
Theorem addVideo_audio_not_probed :
  forall env fate' videoChannel_id videoInfo files w,
    isAudio env (newVideoFile env (physicalFile w)) = true ->
    (forall c,
       c <> CGetVideoFileFPS -> c <> CGetVideoFileResolution ->
       fate' c = fate env c) ->
    addVideo (with_fate fate' env) videoChannel_id videoInfo files w
    = addVideo env videoChannel_id videoInfo files w.
Proof.
  intros env fate' ch info files w Haudio Hsame.
  unfold newVideoFile in Haudio.
  unfold addVideo, inTransaction, addVideoTransaction, addAndSaveThumbnail,
    awaitCall, emit.
  cbn [with_fate fate TRANSCODING_ENABLED DEFAULT_AUDIO_RESOLUTION
       buildLocalVideoFromReq getLocalVideoActivityPubUrl extname
       getMetadataFromFile isAudio getVideoFileFPS getVideoFileResolution
       generateVideoFilename getVideoFilePath buildVideoThumbnailsFromReq
       autoBlacklisted].
  repeat
    (eff_red; cbn beta iota;
     repeat match goal with
            | |- context [fate' ?c] => rewrite (Hsame c) by discriminate
            end;
     rewrite ?Haudio;
     try match goal with
         | |- context [buildVideoThumbnailsFromReq env ?v ?fs] =>
             destruct (buildVideoThumbnailsFromReq env v fs)
         end;
     try match goal with
         | |- context [fate env ?c] => destruct (fate env c) eqn:?
         end;
     try reflexivity).
Qed.

(** The file is audio and neither probe would go through. *)
Lemma addVideo_audio_not_probed_witness :
  addVideo (with_fate probesFail (sampleEnv allSucceed true)) 7 sampleInfo
    noFiles (worldWith audioUpload)
  = addVideo (sampleEnv allSucceed true) 7 sampleInfo noFiles
      (worldWith audioUpload).
Proof.
  apply (addVideo_audio_not_probed (sampleEnv allSucceed true) probesFail 7
           sampleInfo noFiles (worldWith audioUpload)).
  - reflexivity.
  - intros c Hfps Hres. destruct c; try reflexivity; contradiction.
Defined.

(** X27. On a second attempt of a request whose first attempt had moved
    the file and thrown before the commit, the file is moved from where
    the first attempt left it, and the tables hold the rows of the second
    attempt only. *)
Theorem addVideo_retry_moves_from_destination :
  forall env env' videoChannel_id videoInfo files w e w1 r w2,
    addVideo env videoChannel_id videoInfo files w = (Throw e, w1) ->
    ~ afterCommit e -> ~ beforeMove e ->
    addVideo env' videoChannel_id videoInfo files w1 = (Ok r, w2) ->
    let f := physicalFile w in
    let f1 := movedFile env videoChannel_id videoInfo f in
    moves w2
    = moves w
      ++ [(path f, destination env videoChannel_id videoInfo f);
          (destination env videoChannel_id videoInfo f,
           destination env' videoChannel_id videoInfo f1)]
    /\ stored env' videoChannel_id videoInfo files f1 (db w) (db w2)
    /\ detached w2
       = detached w
         ++ [(createdVideo env' videoChannel_id videoInfo (db w) f1,
              fileRow env' videoChannel_id videoInfo (db w) f1)].
Proof.
  intros env env' ch info files w e w1 r w2 Hfirst Hnot1 Hnot2 Hsecond.
  cbv zeta.
  pose proof (addVideo_outcomes env ch info files w) as H1.
  cbv zeta in H1. rewrite Hfirst in H1. cbn [fst snd] in H1.
  destruct H1 as [(Hafter & _) | [(Hbefore & _) | (_ & _ & ->)]];
    [contradiction | contradiction |].
  pose proof (addVideo_outcomes env' ch info files
                (set_physicalFile (movedFile env ch info (physicalFile w))
                   (add_move (path (physicalFile w))
                      (destination env ch info (physicalFile w)) w))) as H2.
  cbv zeta in H2. rewrite Hsecond in H2. cbn [fst snd] in H2.
  destruct H2 as (_ & (Hst & Hmv & _ & Hdt) & _).
  cbn [physicalFile db moves detached set_physicalFile add_move] in *.
  rewrite Hmv, Hdt, <- app_assoc.
  split; [reflexivity |]. split; [exact Hst | reflexivity].
Qed.

(** Saving the row of the file fails at the first attempt. *)
Lemma addVideo_retry_moves_from_destination_witness :
  let first :=
    addVideo (sampleEnv fileSaveFails true) 7 sampleInfo noFiles
      (worldWith videoUpload) in
  let second :=
    addVideo (sampleEnv allSucceed true) 7 sampleInfo noFiles (snd first) in
  moves (snd second)
  = [("/tmp/upload-7", "/var/videos/uuid-9.mp4");
     ("/var/videos/uuid-9.mp4", "/var/videos/uuid-9.mp4")]%string
  /\ length (videos (db (snd second))) = 1%nat.
Proof.
  cbv zeta.
  destruct (addVideo (sampleEnv fileSaveFails true) 7 sampleInfo noFiles
              (worldWith videoUpload))
    as [[r1 | e] w1] eqn:Hfirst; [discriminate Hfirst |].
  assert (He : e = Failed CVideoFileSave).
  { pose proof Hfirst as H'. vm_compute in H'. now injection H' as <- _. }
  cbn [snd].
  destruct (addVideo (sampleEnv allSucceed true) 7 sampleInfo noFiles w1)
    as [[r | e2] w2] eqn:Hsecond.
  2: { pose proof Hfirst as H'. vm_compute in H'. injection H' as _ <-.
       vm_compute in Hsecond. discriminate Hsecond. }
  destruct (addVideo_retry_moves_from_destination
              (sampleEnv fileSaveFails true) (sampleEnv allSucceed true) 7
              sampleInfo noFiles (worldWith videoUpload) e w1 r w2 Hfirst)
    as (Hmv & (Hv & _) & _).
  - rewrite He. intros [Hx | Hx]; discriminate Hx.
  - rewrite He. intros Hx.
    repeat (destruct Hx as [Hx | Hx]); discriminate Hx.
  - exact Hsecond.
  - cbn [snd]. rewrite Hmv, Hv. repeat split.
Defined.

(** ** [addVideoResumable] *)

#[local] Instance sameMeta_preorder : PreOrder sameMeta.
Proof.
  split.
  - intros w. reflexivity.
  - intros a b c H K. unfold sameMeta in *. congruence.
Qed.

Lemma addVideo_sameMeta env ch info files :
  frames sameMeta (addVideo env ch info files).
Proof.
  unfold addVideo, inTransaction, addVideoTransaction, addAndSaveThumbnail,
    awaitCall, emit.
  repeat first
    [ match goal with
      | |- frames _ (transaction _ _ _) =>
          refine (frames_transaction _ _ _ _ _ _)
      end
    | frames_step ].
  all: try reflexivity.
  all: intros wa wb H; exact H.
Qed.

Lemma addVideoResumable_run env ch md w :
  addVideoResumable env ch md w
  = (if bool_decide (fate env CDeleteResumableUploadMetaFile = Succeeds)
     then addVideo env ch md (mkFiles None (vc_previewfile md))
            (add_metaDeleted (path (physicalFile w)) w)
     else (Throw (Failed CDeleteResumableUploadMetaFile), w)).
Proof.
  unfold addVideoResumable, awaitCall.
  unfold bind at 1, gets at 1. cbv beta iota.
  unfold bind at 1.
  destruct (fate env CDeleteResumableUploadMetaFile);
    [rewrite call_succeeds_run | reflexivity | reflexivity].
  unfold modify at 1. cbv beta iota. reflexivity.
Qed.

(** X28. A resumable upload first deletes its meta file: when that fails
    the request throws with the state as it was, nothing moved and nothing
    stored. When the request is answered the meta file is deleted and the
    upload is committed as by [addVideo], with the metadata of the file as
    request body and, of the request files, only the preview the metadata
    names: no thumbnail file is passed on. *)
Theorem addVideoResumable_meta_file_first :
  forall env videoChannel_id metadata w,
    let run := addVideoResumable env videoChannel_id metadata w in
    (fate env CDeleteResumableUploadMetaFile <> Succeeds ->
     run = (Throw (Failed CDeleteResumableUploadMetaFile), w))
    /\ (forall r, fst run = Ok r ->
        committed env videoChannel_id metadata
          (mkFiles None (vc_previewfile metadata)) w (snd run)
        /\ metaDeleted (snd run)
           = metaDeleted w ++ [path (physicalFile w)]).
Proof.
  intros env ch md w. cbv zeta. rewrite addVideoResumable_run.
  destruct (fate env CDeleteResumableUploadMetaFile) eqn:Hdel;
    cbn [bool_decide decide_rel]; simpl.
  2, 3: split; [reflexivity | intros r Hr; discriminate Hr].
  split; [intros Hx; now contradiction Hx |].
  intros r Hr.
  pose proof (addVideo_outcomes env ch md
                (mkFiles None (vc_previewfile md))
                (add_metaDeleted (path (physicalFile w)) w)) as H.
  cbv zeta in H. rewrite Hr in H.
  destruct H as (_ & Hc & _). split; [exact Hc |].
  exact (addVideo_sameMeta env ch md _
           (add_metaDeleted (path (physicalFile w)) w)).
Qed.

End UploadProofs.
